(** * Mesh assets: deferred GPU materialisation, merge and validation

    A shallow embedding of [cocos/3d/assets/mesh.ts].

    - JavaScript numbers that hold byte offsets, byte lengths, counts and
      enum values are integers ([Z]); the coordinates of a [Vec3] are
      [number]s (a rational or NaN).
    - Exceptions are completions: every effectful function returns either
      [Normal v] or [Throw e] together with the world it leaves behind, so
      that what happened before a throw stays visible.
    - Mesh structs are objects mutated in place ([merge], the raycast
      fields written by [_deferredInit]); they live in a store indexed by
      reference and a [Mesh] holds the reference.  Two meshes may hold the
      same struct; distinct structs share no sub-object.
    - The GPU device is a collaborator of this file: it is the log of the
      calls made to it, with a policy that says which allocations
      succeed. *)

From Stdlib Require Import ZArith QArith Lia.
From stdpp Require Import base option list strings gmap.

(** ** Completions *)

Inductive JSError := RangeError | TypeError | DeviceError.

Inductive Completion (A : Type) :=
| Normal (a : A)
| Throw (e : JSError).
Arguments Normal {A} a.
Arguments Throw {A} e.

(** ** Numbers of a [Vec3] *)

Inductive number := NaN | Num (q : Q).

(** [Math.max(a, b)]: NaN if either is NaN, else [b] when [a < b], else [a]. *)
Definition Math_max (a b : number) : number :=
  match a, b with
  | Num x, Num y => match (x ?= y)%Q with Lt => Num y | _ => Num x end
  | _, _ => NaN
  end.

(** [Math.min(a, b)]: NaN if either is NaN, else [b] when [b < a], else [a]. *)
Definition Math_min (a b : number) : number :=
  match a, b with
  | Num x, Num y => match (y ?= x)%Q with Lt => Num y | _ => Num x end
  | _, _ => NaN
  end.

(** Modelled from the spec: the [Vec3] of [core/value-types], a mutable
    object with three numbers. *)
Module Vec3.
Record t := mk { x : number; y : number; z : number }.
End Vec3.

(** ** Array buffers and typed-array views *)

Definition ArrayBuffer := list Byte.byte.

Definition byteLength (buffer : ArrayBuffer) : Z := Z.of_nat (length buffer).

Inductive TypedArrayCtor := Uint8Array | Uint16Array | Uint32Array | Float32Array.

Definition BYTES_PER_ELEMENT (ctor : TypedArrayCtor) : Z :=
  match ctor with
  | Uint8Array => 1
  | Uint16Array => 2
  | Uint32Array => 4
  | Float32Array => 4
  end.

Module TypedArray.
Record t := mk {
  ctor : TypedArrayCtor;
  buffer : ArrayBuffer;
  byteOffset : Z;
  length : Z
}.
End TypedArray.

(** [new ctor(buffer, byteOffset, length)] for a number [length] whose
    integer part is [len]: a negative offset, an offset that is not a
    multiple of the element size, a negative length, or a view that runs
    past the end of the buffer raises RangeError. *)
Definition new_TypedArray (ctor : TypedArrayCtor) (buffer : ArrayBuffer)
    (byteOffset len : Z) : Completion TypedArray.t :=
  if (byteOffset <? 0)%Z then Throw RangeError
  else if negb (byteOffset mod BYTES_PER_ELEMENT ctor =? 0)%Z then Throw RangeError
  else if (len <? 0)%Z then Throw RangeError
  else if (byteLength buffer <? byteOffset + len * BYTES_PER_ELEMENT ctor)%Z
       then Throw RangeError
  else Normal (TypedArray.mk ctor buffer byteOffset len).

(** The integer part of the quotient [n / d] of two integers, as the
    typed-array constructors take it from a fractional length. *)
Definition truncated_quotient (n d : Z) : Z := Z.quot n d.

(** [arr[i]] for a number [i]: [undefined] unless [i] is an index of [arr]. *)
Definition element_at {A : Type} (arr : list A) (i : Z) : option A :=
  if (i <? 0)%Z then None else arr !! Z.to_nat i.

(** ** The mesh struct *)

Definition UINT8 : Z := 0.
Definition UINT16 : Z := 1.
Definition UINT32 : Z := 2.

Definition getIndexUnitStride (indexUnit : Z) : Z :=
  if (indexUnit =? UINT8)%Z then 1
  else if (indexUnit =? UINT16)%Z then 2
  else if (indexUnit =? UINT32)%Z then 4
  else 1.

Definition getIndexUnitCtor (indexUnit : Z) : TypedArrayCtor :=
  if (indexUnit =? UINT8)%Z then Uint8Array
  else if (indexUnit =? UINT16)%Z then Uint16Array
  else if (indexUnit =? UINT32)%Z then Uint32Array
  else Uint8Array.

Module IBufferRange.
Record t := mk { offset : Z; length : Z }.
End IBufferRange.

(** Modelled from the spec: the attribute descriptor [IGFXAttribute] of
    [gfx/input-assembler], of which this file compares the [format]
    (a [GFXFormat], a numeric enum) and nothing else. *)
Module IGFXAttribute.
Record t := mk { name : string; format : Z }.
End IGFXAttribute.

Module IVertexBundle.
Record t := mk {
  data : IBufferRange.t;
  verticesCount : Z;
  attributes : list IGFXAttribute.t
}.
End IVertexBundle.

Module IPrimitiveIndices.
Record t := mk { range : IBufferRange.t; indexUnit : Z }.
End IPrimitiveIndices.

(** [geometricInfo] of a primitive.  [indices] and [positions] are the
    fields [_deferredInit] attaches: [indices] is absent, [null]
    ([Some None]) or an index view; [positions] is absent or a view. *)
Module IPrimitiveGeometricInfo.
Record t := mk {
  doubleSided : option bool;
  range : IBufferRange.t;
  indices : option (option TypedArray.t);
  positions : option TypedArray.t
}.
End IPrimitiveGeometricInfo.

Module IPrimitive.
Record t := mk {
  vertexBundelIndices : list Z;
  primitiveMode : Z;
  indices : option IPrimitiveIndices.t;
  geometricInfo : option IPrimitiveGeometricInfo.t
}.
End IPrimitive.

Module IMeshStruct.
Record t := mk {
  vertexBundles : list IVertexBundle.t;
  primitives : list IPrimitive.t;
  minPosition : option Vec3.t;
  maxPosition : option Vec3.t
}.
End IMeshStruct.

(** ** The GPU device

    The device ([gfx/device], [gfx/buffer], [gfx/define]) is known to
    this file through three calls: [createBuffer], [GFXBuffer.update]
    and [GFXBuffer.destroy].  A device is the log of the calls it
    received and a policy [accepts] that decides, from the log and the
    request, whether an allocation succeeds.  A buffer is the handle the
    device gave it: the length of the log at the time of its creation. *)

(** Modelled from the spec: the usage flags of [gfx/define] that this
    file combines (vertex, index, transfer-destination), by name. *)
Inductive GFXBufferUsageBit := TRANSFER_DST | INDEX | VERTEX.

(** Modelled from the spec: the memory flags of [gfx/define] that this
    file combines (host-visible, device-local), by name. *)
Inductive GFXMemoryUsageBit := HOST | DEVICE.

(** Modelled from the spec: the argument of [createBuffer], with the four
    fields this file sets.  A combination of flags is the list of the
    flags combined.  [stride] is the JavaScript quotient of two integers;
    it is kept as the pair (dividend, divisor). *)
Module IGFXBufferInfo.
Record t := mk {
  usage : list GFXBufferUsageBit;
  memUsage : list GFXMemoryUsageBit;
  size : Z;
  stride : Z * Z
}.
End IGFXBufferInfo.

(** Modelled from the spec: a [GFXBuffer] of [gfx/buffer], known by its
    handle. *)
Definition GFXBuffer := nat.

Inductive GFXCall :=
| createBuffer_call (buffer : GFXBuffer) (info : IGFXBufferInfo.t)
| update_call (buffer : GFXBuffer) (data : TypedArray.t)
| destroy_call (buffer : GFXBuffer).

(** Modelled from the spec: the [GFXDevice] of [gfx/device], whose
    [createBuffer] returns a buffer or fails with an allocation error. *)
Module GFXDevice.
Record t := mk {
  accepts : list GFXCall -> IGFXBufferInfo.t -> bool;
  calls : list GFXCall
}.
End GFXDevice.

(** ** The world: the device and the store of mesh structs *)

(** A mesh holds a reference to its struct, and two meshes can hold the
    same one.  A struct is stored as a value: its bundles, primitives
    and positions are its own, and two distinct structs that share one
    of these objects are not represented.  What is stated of a write is
    therefore stated of the struct it is made through. *)

Module World.
Record t := mk {
  device : GFXDevice.t;
  structs : gmap nat IMeshStruct.t
}.
End World.

(** A computation over a state [S]: it ends normally with a value or
    throws, and in both cases leaves a state behind. *)
Definition M (S A : Type) : Type := S -> Completion A * S.

Definition ret {S A : Type} (a : A) : M S A := fun s => (Normal a, s).

Definition throw {S A : Type} (e : JSError) : M S A := fun s => (Throw e, s).

Definition bind {S A B : Type} (m : M S A) (k : A -> M S B) : M S B :=
  fun s =>
    match m s with
    | (Normal a, s') => k a s'
    | (Throw e, s') => (Throw e, s')
    end.

Definition lift {S A : Type} (c : Completion A) : M S A := fun s => (c, s).

Notation "'let!' x ':=' m 'in' k" := (bind m (fun x => k))
  (at level 10, x pattern, m at level 100, k at level 200).

Definition log_call (c : GFXCall) (w : World.t) : World.t :=
  World.mk
    (GFXDevice.mk (GFXDevice.accepts (World.device w))
                  (GFXDevice.calls (World.device w) ++ [c]))
    (World.structs w).

(** Modelled from the spec: [gfxDevice.createBuffer(info)] returns a
    new buffer, or fails with an allocation error where the policy of
    the device says so; a failed call leaves no trace. *)
Definition createBuffer (info : IGFXBufferInfo.t) : M World.t GFXBuffer :=
  fun w =>
    let dev := World.device w in
    if GFXDevice.accepts dev (GFXDevice.calls dev) info then
      let b := length (GFXDevice.calls dev) in
      (Normal b, log_call (createBuffer_call b info) w)
    else (Throw DeviceError, w).

(** Modelled from the spec: [buffer.update(data)] uploads the view and
    returns. *)
Definition GFXBuffer_update (buffer : GFXBuffer) (data : TypedArray.t) : M World.t unit :=
  fun w => (Normal tt, log_call (update_call buffer data) w).

(** Modelled from the spec: [buffer.destroy()] releases the buffer and
    returns; every call is logged, also a repeated one. *)
Definition GFXBuffer_destroy (buffer : GFXBuffer) : M World.t unit :=
  fun w => (Normal tt, log_call (destroy_call buffer) w).

(** The struct at reference [l], read from the store.  A reference
    held by a mesh is in the store; one that is not reads as a
    TypeError. *)
Definition read_struct (l : nat) : M World.t IMeshStruct.t :=
  fun w =>
    match World.structs w !! l with
    | Some s => (Normal s, w)
    | None => (Throw TypeError, w)
    end.

(** In-place mutation of the struct at reference [l]. *)
Definition modify_struct (l : nat) (f : IMeshStruct.t -> IMeshStruct.t) : M World.t unit :=
  fun w =>
    match World.structs w !! l with
    | Some s => (Normal tt, World.mk (World.device w) (<[l := f s]> (World.structs w)))
    | None => (Throw TypeError, w)
    end.

(** [for (let i = start; i < start + n; ++i) body(i)] *)
Fixpoint for_loop (i n : nat) (body : nat -> M World.t unit) : M World.t unit :=
  match n with
  | O => ret tt
  | S n' => let! _ := body i in for_loop (S i) n' body
  end.

(** ** The rendering mesh *)

(** An entry of [vertexBuffers] is [None] where the primitive names a
    bundle that does not exist ([undefined] in the source).
    [geometricInfo] is the primitive's own object. *)
Module IRenderingSubmesh.
Record t := mk {
  vertexBuffers : list (option GFXBuffer);
  indexBuffer : option GFXBuffer;
  attributes : list IGFXAttribute.t;
  primitiveMode : Z;
  geometricInfo : option IPrimitiveGeometricInfo.t
}.
End IRenderingSubmesh.

Module RenderingMesh.

Record t := mk {
  _subMeshes : list IRenderingSubmesh.t;
  _vertexBuffers : list GFXBuffer;
  _indexBuffers : list GFXBuffer
}.

Definition subMeshes (this : t) : list IRenderingSubmesh.t := _subMeshes this.

Definition subMeshCount (this : t) : nat := length (_subMeshes this).

Definition getSubmesh (this : t) (index : Z) : option IRenderingSubmesh.t :=
  element_at (_subMeshes this) index.

(** [buffers.forEach((b) => { b.destroy(); })] *)
Fixpoint forEach_destroy (buffers : list GFXBuffer) : M World.t unit :=
  match buffers with
  | [] => ret tt
  | b :: rest => let! _ := GFXBuffer_destroy b in forEach_destroy rest
  end.

(** [destroy()] returns the object as it has mutated it. *)
Definition destroy (this : t) : M World.t t :=
  let! _ := forEach_destroy (_vertexBuffers this) in
  let this := mk (_subMeshes this) [] (_indexBuffers this) in
  let! _ := forEach_destroy (_indexBuffers this) in
  let this := mk (_subMeshes this) (_vertexBuffers this) [] in
  let this := mk [] (_vertexBuffers this) (_indexBuffers this) in
  ret this.

End RenderingMesh.

(** ** In-place updates of a struct's parts *)

(** [bundle.data.length += n] *)
Definition add_data_length (n : Z) (bundle : IVertexBundle.t) : IVertexBundle.t :=
  IVertexBundle.mk
    (IBufferRange.mk (IBufferRange.offset (IVertexBundle.data bundle))
                     (IBufferRange.length (IVertexBundle.data bundle) + n))
    (IVertexBundle.verticesCount bundle)
    (IVertexBundle.attributes bundle).

(** [bundle.verticesCount += n] *)
Definition add_verticesCount (n : Z) (bundle : IVertexBundle.t) : IVertexBundle.t :=
  IVertexBundle.mk
    (IVertexBundle.data bundle)
    (IVertexBundle.verticesCount bundle + n)
    (IVertexBundle.attributes bundle).

(** [prim.indices.range.length += n] *)
Definition add_indices_length (n : Z) (prim : IPrimitive.t) : IPrimitive.t :=
  IPrimitive.mk
    (IPrimitive.vertexBundelIndices prim)
    (IPrimitive.primitiveMode prim)
    (match IPrimitive.indices prim with
     | Some indices =>
         Some (IPrimitiveIndices.mk
                 (IBufferRange.mk
                    (IBufferRange.offset (IPrimitiveIndices.range indices))
                    (IBufferRange.length (IPrimitiveIndices.range indices) + n))
                 (IPrimitiveIndices.indexUnit indices))
     | None => None
     end)
    (IPrimitive.geometricInfo prim).

(** [prim.geometricInfo = g] seen from the primitive (the object [g] is
    the one the primitive already holds, with fields written). *)
Definition with_geometricInfo (g : IPrimitiveGeometricInfo.t) (prim : IPrimitive.t)
    : IPrimitive.t :=
  IPrimitive.mk
    (IPrimitive.vertexBundelIndices prim)
    (IPrimitive.primitiveMode prim)
    (IPrimitive.indices prim)
    (Some g).

Definition alter_vertexBundle (i : nat) (f : IVertexBundle.t -> IVertexBundle.t)
    (s : IMeshStruct.t) : IMeshStruct.t :=
  IMeshStruct.mk
    (alter f i (IMeshStruct.vertexBundles s))
    (IMeshStruct.primitives s)
    (IMeshStruct.minPosition s)
    (IMeshStruct.maxPosition s).

Definition alter_primitive (i : nat) (f : IPrimitive.t -> IPrimitive.t)
    (s : IMeshStruct.t) : IMeshStruct.t :=
  IMeshStruct.mk
    (IMeshStruct.vertexBundles s)
    (alter f i (IMeshStruct.primitives s))
    (IMeshStruct.minPosition s)
    (IMeshStruct.maxPosition s).

Definition alter_maxPosition (f : Vec3.t -> Vec3.t) (s : IMeshStruct.t) : IMeshStruct.t :=
  IMeshStruct.mk
    (IMeshStruct.vertexBundles s)
    (IMeshStruct.primitives s)
    (IMeshStruct.minPosition s)
    (f <$> IMeshStruct.maxPosition s).

Definition alter_minPosition (f : Vec3.t -> Vec3.t) (s : IMeshStruct.t) : IMeshStruct.t :=
  IMeshStruct.mk
    (IMeshStruct.vertexBundles s)
    (IMeshStruct.primitives s)
    (f <$> IMeshStruct.minPosition s)
    (IMeshStruct.maxPosition s).

Definition set_x (v : number) (p : Vec3.t) : Vec3.t := Vec3.mk v (Vec3.y p) (Vec3.z p).
Definition set_y (v : number) (p : Vec3.t) : Vec3.t := Vec3.mk (Vec3.x p) v (Vec3.z p).
Definition set_z (v : number) (p : Vec3.t) : Vec3.t := Vec3.mk (Vec3.x p) (Vec3.y p) v.

(** ** The mesh asset *)

Module Mesh.

(** [_struct] is a reference into the store of structs; [_data] is a
    [Uint8Array] or [null]. *)
Record t := mk {
  _struct : nat;
  _data : option TypedArray.t;
  _initialized : bool;
  _renderingMesh : option RenderingMesh.t
}.

(** A method runs on [this] and the world. *)
Definition Method (A : Type) : Type := M (t * World.t) A.

Definition in_world {A : Type} (m : M World.t A) : Method A :=
  fun st =>
    match m (snd st) with
    | (c, w') => (c, (fst st, w'))
    end.

Definition get_this : Method t := fun st => (Normal (fst st), st).

Definition set_this (this : t) : Method unit := fun st => (Normal tt, (this, snd st)).

(** *** validateMergingMesh *)

(** A loop [for (let i = 0; i < xs.length; ++i) { if (!same(xs[i], ys[i])) { return false; } }]
    over two arrays whose lengths were found equal: [false] when it
    returns, [true] when it falls through. *)
Fixpoint each_pair {A : Type} (same : A -> A -> bool) (xs ys : list A) : bool :=
  match xs, ys with
  | x :: xs', y :: ys' => if negb (same x y) then false else each_pair same xs' ys'
  | _, _ => true
  end.

(** The body of the loop over vertex bundles: the attribute counts, then
    [bundle.attributes[j].format !== dstBundle.attributes[j].format] for
    every [j]. *)
Definition validate_bundle (bundle dstBundle : IVertexBundle.t) : bool :=
  if negb (length (IVertexBundle.attributes bundle)
           =? length (IVertexBundle.attributes dstBundle))%nat then false
  else each_pair (fun a d => (IGFXAttribute.format a =? IGFXAttribute.format d)%Z)
                 (IVertexBundle.attributes bundle) (IVertexBundle.attributes dstBundle).

(** The body of the loop over primitives: the counts of bundle indices,
    then [prim.vertexBundelIndices[j] !== dstPrim.vertexBundelIndices[j]]
    for every [j], then the primitive modes, then the index units when
    both primitives carry indices. *)
Definition validate_primitive (prim dstPrim : IPrimitive.t) : bool :=
  if negb (length (IPrimitive.vertexBundelIndices prim)
           =? length (IPrimitive.vertexBundelIndices dstPrim))%nat then false
  else if negb (each_pair Z.eqb (IPrimitive.vertexBundelIndices prim)
                                (IPrimitive.vertexBundelIndices dstPrim)) then false
  else if negb (IPrimitive.primitiveMode prim =? IPrimitive.primitiveMode dstPrim)%Z then false
  else
    match IPrimitive.indices prim, IPrimitive.indices dstPrim with
    | Some indices, Some dstIndices =>
        if negb (IPrimitiveIndices.indexUnit indices
                 =? IPrimitiveIndices.indexUnit dstIndices)%Z then false
        else true
    | _, _ => true
    end.

(** [validateMergingMesh] on the two structs the meshes hold. *)
Definition validateMergingMesh_structs (s dst : IMeshStruct.t) : bool :=
  (* validate vertex bundles *)
  if negb (length (IMeshStruct.vertexBundles s)
           =? length (IMeshStruct.vertexBundles dst))%nat then false
  else if negb (each_pair validate_bundle (IMeshStruct.vertexBundles s)
                                          (IMeshStruct.vertexBundles dst)) then false
  (* validate primitives *)
  else if negb (length (IMeshStruct.primitives s)
                =? length (IMeshStruct.primitives dst))%nat then false
  else each_pair validate_primitive (IMeshStruct.primitives s) (IMeshStruct.primitives dst).

Definition validateMergingMesh (this mesh : t) : M World.t bool :=
  let! s := read_struct (_struct this) in
  let! dst := read_struct (_struct mesh) in
  ret (validateMergingMesh_structs s dst).

(** *** merge *)

(** [mesh._struct.vertexBundles[i]], about to be dereferenced. *)
Definition vertexBundle_at (mesh : t) (i : nat) : M World.t IVertexBundle.t :=
  let! dst := read_struct (_struct mesh) in
  match IMeshStruct.vertexBundles dst !! i with
  | Some dstBundle => ret dstBundle
  | None => throw TypeError
  end.

(** The body of the loop over [this]'s vertex bundles. *)
Definition merge_vertexBundle (this mesh : t) (i : nat) : M World.t unit :=
  (* bundle.data.length += dstBundle.data.length; *)
  let! dstBundle := vertexBundle_at mesh i in
  let! _ := modify_struct (_struct this)
              (alter_vertexBundle i
                 (add_data_length (IBufferRange.length (IVertexBundle.data dstBundle)))) in
  (* bundle.verticesCount += dstBundle.verticesCount; *)
  let! dstBundle := vertexBundle_at mesh i in
  modify_struct (_struct this)
    (alter_vertexBundle i (add_verticesCount (IVertexBundle.verticesCount dstBundle))).

(** The body of the loop over [this]'s primitives:
    [if (prim.indices && dstPrim.indices) prim.indices.range.length += dstPrim.indices.range.length;] *)
Definition merge_primitive (this mesh : t) (i : nat) : M World.t unit :=
  let! s := read_struct (_struct this) in
  match IMeshStruct.primitives s !! i with
  | None => throw TypeError
  | Some prim =>
      match IPrimitive.indices prim with
      | None => ret tt
      | Some _ =>
          let! dst := read_struct (_struct mesh) in
          match IMeshStruct.primitives dst !! i with
          | None => throw TypeError
          | Some dstPrim =>
              match IPrimitive.indices dstPrim with
              | None => ret tt
              | Some dstIndices =>
                  modify_struct (_struct this)
                    (alter_primitive i
                       (add_indices_length
                          (IBufferRange.length (IPrimitiveIndices.range dstIndices))))
              end
          end
      end
  end.

(** One statement [this._struct.P.c = f(this._struct.P.c, mesh._struct.P.c)]
    for a position [P] (read by [get], written through [alter]) and a
    component [c] (read by [component], written by [set]). *)
Definition merge_component
    (get : IMeshStruct.t -> option Vec3.t)
    (alter : (Vec3.t -> Vec3.t) -> IMeshStruct.t -> IMeshStruct.t)
    (component : Vec3.t -> number) (set : number -> Vec3.t -> Vec3.t)
    (f : number -> number -> number) (this mesh : t) : M World.t unit :=
  let! dst := read_struct (_struct mesh) in
  match get dst with
  | None => throw TypeError
  | Some q => modify_struct (_struct this) (alter (fun p => set (f (component p) (component q)) p))
  end.

Definition merge_maxPosition (this mesh : t) : M World.t unit :=
  let! s := read_struct (_struct this) in
  let! dst := read_struct (_struct mesh) in
  match IMeshStruct.maxPosition s, IMeshStruct.maxPosition dst with
  | Some _, Some _ =>
      let! _ := merge_component IMeshStruct.maxPosition alter_maxPosition
                  Vec3.x set_x Math_max this mesh in
      let! _ := merge_component IMeshStruct.maxPosition alter_maxPosition
                  Vec3.y set_y Math_max this mesh in
      merge_component IMeshStruct.maxPosition alter_maxPosition
        Vec3.z set_z Math_max this mesh
  | _, _ => ret tt
  end.

Definition merge_minPosition (this mesh : t) : M World.t unit :=
  let! s := read_struct (_struct this) in
  let! dst := read_struct (_struct mesh) in
  match IMeshStruct.minPosition s, IMeshStruct.minPosition dst with
  | Some _, Some _ =>
      let! _ := merge_component IMeshStruct.minPosition alter_minPosition
                  Vec3.x set_x Math_min this mesh in
      let! _ := merge_component IMeshStruct.minPosition alter_minPosition
                  Vec3.y set_y Math_min this mesh in
      merge_component IMeshStruct.minPosition alter_minPosition
        Vec3.z set_z Math_min this mesh
  | _, _ => ret tt
  end.

(** [merge(mesh, validate)]; [validate] is [None] when the argument is
    omitted. *)
Definition merge (this mesh : t) (validate : option bool) : M World.t bool :=
  let! valid :=
    match validate with
    | Some true => validateMergingMesh this mesh
    | _ => ret true
    end in
  if negb valid then ret false
  else
    (* merge vertex bundles *)
    let! s := read_struct (_struct this) in
    let! _ := for_loop 0 (length (IMeshStruct.vertexBundles s))
                (merge_vertexBundle this mesh) in
    (* merge primitives *)
    let! s := read_struct (_struct this) in
    let! _ := for_loop 0 (length (IMeshStruct.primitives s))
                (merge_primitive this mesh) in
    (* merge bounding box *)
    let! _ := merge_maxPosition this mesh in
    let! _ := merge_minPosition this mesh in
    ret true.

(** *** Deferred initialisation *)

(** [this._struct.vertexBundles.map((vertexBundle) => { ... })] *)
Fixpoint _createVertexBuffers_map (data : ArrayBuffer)
    (vertexBundles : list IVertexBundle.t) : M World.t (list GFXBuffer) :=
  match vertexBundles with
  | [] => ret []
  | vertexBundle :: rest =>
      let range := IVertexBundle.data vertexBundle in
      let! vertexBuffer :=
        createBuffer
          (IGFXBufferInfo.mk [VERTEX; TRANSFER_DST] [HOST; DEVICE]
             (IBufferRange.length range)
             (IBufferRange.length range, IVertexBundle.verticesCount vertexBundle)) in
      let! view :=
        lift (new_TypedArray Uint8Array data
                (IBufferRange.offset range) (IBufferRange.length range)) in
      let! _ := GFXBuffer_update vertexBuffer view in
      let! buffers := _createVertexBuffers_map data rest in
      ret (vertexBuffer :: buffers)
  end.

Definition _createVertexBuffers (this : t) (data : ArrayBuffer)
    : M World.t (list GFXBuffer) :=
  let! s := read_struct (_struct this) in
  _createVertexBuffers_map data (IMeshStruct.vertexBundles s).

(** The branch [if (prim.indices) { ... }]: the index buffer and the
    view [ib] uploaded to it. *)
Definition create_indexBuffer (buffer : ArrayBuffer) (indices : IPrimitiveIndices.t)
    : M World.t (GFXBuffer * TypedArray.t) :=
  let range := IPrimitiveIndices.range indices in
  let indexUnit := IPrimitiveIndices.indexUnit indices in
  let! indexBuffer :=
    createBuffer
      (IGFXBufferInfo.mk [INDEX; TRANSFER_DST] [HOST; DEVICE]
         (IBufferRange.length range)
         (getIndexUnitStride indexUnit, 1%Z)) in
  let! ib :=
    lift (new_TypedArray (getIndexUnitCtor indexUnit) buffer
            (IBufferRange.offset range)
            (truncated_quotient (IBufferRange.length range)
                                (getIndexUnitStride indexUnit))) in
  let! _ := GFXBuffer_update indexBuffer ib in
  ret (indexBuffer, ib).

(** [let indexBuffer = null; let ib = null; if (prim.indices) { ... }]:
    the values of [indexBuffer] and [ib] after the branch. *)
Definition prepare_indices (buffer : ArrayBuffer) (prim : IPrimitive.t)
    : M World.t (option GFXBuffer * option TypedArray.t) :=
  match IPrimitive.indices prim with
  | Some indices =>
      let! created := create_indexBuffer buffer indices in
      ret (Some (fst created), Some (snd created))
  | None => ret (None, None)
  end.

(** [let gfxAttributes = []; if (prim.vertexBundelIndices.length > 0) { ... }]:
    the attributes of the first bundle the primitive names. *)
Definition first_bundle_attributes (this : t) (prim : IPrimitive.t)
    : M World.t (list IGFXAttribute.t) :=
  match IPrimitive.vertexBundelIndices prim with
  | [] => ret []
  | idx :: _ =>
      let! s := read_struct (_struct this) in
      match element_at (IMeshStruct.vertexBundles s) idx with
      | Some vertexBundle => ret (IVertexBundle.attributes vertexBundle)
      | None => throw TypeError
      end
  end.

(** [const geomInfo = prim.geometricInfo; if (geomInfo) { ... }]: the two
    fields are written into the primitive's own object, at position [i]
    of the struct. *)
Definition attach_geometricInfo (this : t) (buffer : ArrayBuffer) (i : nat)
    (prim : IPrimitive.t) (ib : option TypedArray.t)
    : M World.t (option IPrimitiveGeometricInfo.t) :=
  match IPrimitive.geometricInfo prim with
  | None => ret None
  | Some g =>
      (* geomInfo.indices = ib; *)
      let g1 :=
        IPrimitiveGeometricInfo.mk
          (IPrimitiveGeometricInfo.doubleSided g) (IPrimitiveGeometricInfo.range g)
          (Some ib) (IPrimitiveGeometricInfo.positions g) in
      let! _ := modify_struct (_struct this) (alter_primitive i (with_geometricInfo g1)) in
      (* geomInfo.positions = new Float32Array(...); *)
      let! positions :=
        lift (new_TypedArray Float32Array buffer
                (IBufferRange.offset (IPrimitiveGeometricInfo.range g))
                (truncated_quotient
                   (IBufferRange.length (IPrimitiveGeometricInfo.range g)) 4)) in
      let g2 :=
        IPrimitiveGeometricInfo.mk
          (IPrimitiveGeometricInfo.doubleSided g) (IPrimitiveGeometricInfo.range g)
          (Some ib) (Some positions) in
      let! _ := modify_struct (_struct this) (alter_primitive i (with_geometricInfo g2)) in
      ret (Some g2)
  end.

(** The body of the loop over primitives, past the [continue]: the
    index buffer it created (if any) and the submesh it pushes.  [i] is
    the position of [prim] in the struct. *)
Definition materialize_primitive (this : t) (buffer : ArrayBuffer)
    (vertexBuffers : list GFXBuffer) (i : nat) (prim : IPrimitive.t)
    : M World.t (option GFXBuffer * IRenderingSubmesh.t) :=
  let! index := prepare_indices buffer prim in
  let indexBuffer : option GFXBuffer := fst index in
  let ib : option TypedArray.t := snd index in
  let vbReference := map (element_at vertexBuffers) (IPrimitive.vertexBundelIndices prim) in
  let! gfxAttributes := first_bundle_attributes this prim in
  let! geomInfo := attach_geometricInfo this buffer i prim ib in
  ret (indexBuffer,
       IRenderingSubmesh.mk vbReference indexBuffer gfxAttributes
         (IPrimitive.primitiveMode prim) geomInfo).

(** [indexBuffers.push(b)] when the primitive created [b]. *)
Definition push_indexBuffer (indexBuffers : list GFXBuffer) (b : option GFXBuffer)
    : list GFXBuffer :=
  match b with
  | Some indexBuffer => indexBuffers ++ [indexBuffer]
  | None => indexBuffers
  end.

(** [for (const prim of this._struct.primitives) { ... }], from the
    primitive at position [i] on, with the two arrays built so far. *)
Fixpoint materialize_primitives (this : t) (buffer : ArrayBuffer)
    (vertexBuffers : list GFXBuffer) (prims : list IPrimitive.t) (i : nat)
    (indexBuffers : list GFXBuffer) (submeshes : list IRenderingSubmesh.t)
    : M World.t (list GFXBuffer * list IRenderingSubmesh.t) :=
  match prims with
  | [] => ret (indexBuffers, submeshes)
  | prim :: rest =>
      if (length (IPrimitive.vertexBundelIndices prim) =? 0)%nat then
        materialize_primitives this buffer vertexBuffers rest (S i) indexBuffers submeshes
      else
        let! made := materialize_primitive this buffer vertexBuffers i prim in
        materialize_primitives this buffer vertexBuffers rest (S i)
          (push_indexBuffer indexBuffers (fst made)) (submeshes ++ [snd made])
  end.

Definition _deferredInit : Method unit :=
  let! this := get_this in
  if _initialized this then ret tt
  else
    let! _ := set_this (mk (_struct this) (_data this) true (_renderingMesh this)) in
    let! this := get_this in
    match _data this with
    | None => ret tt
    | Some data =>
        let buffer := TypedArray.buffer data in
        let! vertexBuffers := in_world (_createVertexBuffers this buffer) in
        let! s := in_world (read_struct (_struct this)) in
        let! made :=
          in_world (materialize_primitives this buffer vertexBuffers
                      (IMeshStruct.primitives s) 0 [] []) in
        let! this := get_this in
        set_this (mk (_struct this) (_data this) (_initialized this)
                     (Some (RenderingMesh.mk (snd made) vertexBuffers (fst made))))
    end.

Definition _tryDestroyRenderingMesh : Method unit :=
  let! this := get_this in
  match _renderingMesh this with
  | Some renderingMesh =>
      let! _ := in_world (RenderingMesh.destroy renderingMesh) in
      let! _ := set_this (mk (_struct this) (_data this) (_initialized this) None) in
      let! this := get_this in
      set_this (mk (_struct this) (_data this) false (_renderingMesh this))
  | None => ret tt
  end.

(** *** The public interface *)

(** [new Mesh()]: a fresh empty struct, no data, not initialised. *)
Definition create (w : World.t) : t * World.t :=
  let l := fresh (dom (World.structs w)) in
  (mk l None false None,
   World.mk (World.device w)
     (<[l := IMeshStruct.mk [] [] None None]> (World.structs w))).

(** [destroy()], up to the teardown of the base class. *)
Definition destroy : Method unit := _tryDestroyRenderingMesh.

Definition assign (struct : nat) (data : TypedArray.t) : Method unit :=
  let! this := get_this in
  let! _ := set_this (mk struct (_data this) (_initialized this) (_renderingMesh this)) in
  let! this := get_this in
  let! _ := set_this (mk (_struct this) (Some data) (_initialized this) (_renderingMesh this)) in
  _tryDestroyRenderingMesh.

(** The getter [renderingMesh]; [None] is [null]. *)
Definition renderingMesh : Method (option RenderingMesh.t) :=
  let! _ := _deferredInit in
  let! this := get_this in
  ret (_renderingMesh this).

Definition subMeshCount : Method nat :=
  let! renderingMesh := renderingMesh in
  match renderingMesh with
  | Some rm => ret (RenderingMesh.subMeshCount rm)
  | None => ret 0
  end.

End Mesh.

(** ** What a log of device calls says *)

(** The buffers allocated by the calls of a log, in order. *)
Definition created_buffers (calls : list GFXCall) : list GFXBuffer :=
  flat_map (fun c => match c with createBuffer_call b _ => [b] | _ => [] end) calls.

(** The buffers released by the calls of a log, in order, one entry per
    call of [destroy]. *)
Definition destroyed_buffers (calls : list GFXCall) : list GFXBuffer :=
  flat_map (fun c => match c with destroy_call b => [b] | _ => [] end) calls.

Definition device_calls (w : World.t) : list GFXCall :=
  GFXDevice.calls (World.device w).

(** A device that refuses no allocation. *)
Definition device_never_fails (w : World.t) : Prop :=
  forall calls info, GFXDevice.accepts (World.device w) calls info = true.

(** ** Well-formed structs for a buffer *)

(** The range lies within the buffer. *)
Definition range_in_bounds (buffer : ArrayBuffer) (r : IBufferRange.t) : bool :=
  (0 <=? IBufferRange.offset r)%Z
  && (0 <=? IBufferRange.length r)%Z
  && (IBufferRange.offset r + IBufferRange.length r <=? byteLength buffer)%Z.

(** The range starts at a multiple of the element size [n]. *)
Definition range_aligned (n : Z) (r : IBufferRange.t) : bool :=
  (IBufferRange.offset r mod n =? 0)%Z.

(** The range ends past the end of the buffer. *)
Definition range_exceeds (buffer : ArrayBuffer) (r : IBufferRange.t) : Prop :=
  (byteLength buffer < IBufferRange.offset r + IBufferRange.length r)%Z.

Definition valid_bundle (buffer : ArrayBuffer) (bundle : IVertexBundle.t) : bool :=
  range_in_bounds buffer (IVertexBundle.data bundle).

(** A primitive that names no bundle is not looked at.  Otherwise its
    first bundle exists, and its index range and raycast range lie within
    the buffer and are aligned to the elements they hold. *)
Definition valid_primitive (buffer : ArrayBuffer) (bundles : nat) (prim : IPrimitive.t)
    : bool :=
  match IPrimitive.vertexBundelIndices prim with
  | [] => true
  | idx :: _ =>
      (0 <=? idx)%Z && (idx <? Z.of_nat bundles)%Z
      && match IPrimitive.indices prim with
         | None => true
         | Some indices =>
             range_in_bounds buffer (IPrimitiveIndices.range indices)
             && range_aligned (getIndexUnitStride (IPrimitiveIndices.indexUnit indices))
                              (IPrimitiveIndices.range indices)
         end
      && match IPrimitive.geometricInfo prim with
         | None => true
         | Some g =>
             range_in_bounds buffer (IPrimitiveGeometricInfo.range g)
             && range_aligned 4 (IPrimitiveGeometricInfo.range g)
         end
  end.

Definition valid_struct (buffer : ArrayBuffer) (s : IMeshStruct.t) : bool :=
  forallb (valid_bundle buffer) (IMeshStruct.vertexBundles s)
  && forallb (valid_primitive buffer (length (IMeshStruct.vertexBundles s)))
             (IMeshStruct.primitives s).

(** A mesh that holds data and was not materialised yet. *)
Definition pending (m : Mesh.t) (data : TypedArray.t) : Prop :=
  Mesh._initialized m = false /\ Mesh._data m = Some data.

(** The primitive names at least one vertex bundle. *)
Definition names_a_bundle (prim : IPrimitive.t) : bool :=
  negb (length (IPrimitive.vertexBundelIndices prim) =? 0)%nat.

Definition carries_indices (prim : IPrimitive.t) : bool :=
  match IPrimitive.indices prim with Some _ => true | None => false end.

(** [sub] is the submesh of [prim] in a rendering mesh with vertex
    buffers [vertexBuffers], for a struct with bundles [bundles]. *)
Definition submesh_of (vertexBuffers : list GFXBuffer) (bundles : list IVertexBundle.t)
    (prim : IPrimitive.t) (sub : IRenderingSubmesh.t) : Prop :=
  IRenderingSubmesh.primitiveMode sub = IPrimitive.primitiveMode prim
  /\ IRenderingSubmesh.vertexBuffers sub
     = map (element_at vertexBuffers) (IPrimitive.vertexBundelIndices prim)
  /\ (is_Some (IRenderingSubmesh.indexBuffer sub) <-> is_Some (IPrimitive.indices prim))
  /\ (exists idx bundle,
        head (IPrimitive.vertexBundelIndices prim) = Some idx
        /\ element_at bundles idx = Some bundle
        /\ IRenderingSubmesh.attributes sub = IVertexBundle.attributes bundle)
  /\ (is_Some (IRenderingSubmesh.geometricInfo sub)
      <-> is_Some (IPrimitive.geometricInfo prim)).

(** ** The merged struct, in the words of the specification *)

(** [a]'s bundle gains [b]'s [data.length] and [verticesCount]. *)
Definition merged_bundle (a b : IVertexBundle.t) : IVertexBundle.t :=
  IVertexBundle.mk
    (IBufferRange.mk
       (IBufferRange.offset (IVertexBundle.data a))
       (IBufferRange.length (IVertexBundle.data a)
        + IBufferRange.length (IVertexBundle.data b)))
    (IVertexBundle.verticesCount a + IVertexBundle.verticesCount b)
    (IVertexBundle.attributes a).

(** Where both primitives carry indices, [a]'s gains [b]'s
    [indices.range.length]; otherwise [a]'s primitive is as it was. *)
Definition merged_primitive (a b : IPrimitive.t) : IPrimitive.t :=
  match IPrimitive.indices a, IPrimitive.indices b with
  | Some ia, Some ib =>
      IPrimitive.mk
        (IPrimitive.vertexBundelIndices a)
        (IPrimitive.primitiveMode a)
        (Some (IPrimitiveIndices.mk
                 (IBufferRange.mk
                    (IBufferRange.offset (IPrimitiveIndices.range ia))
                    (IBufferRange.length (IPrimitiveIndices.range ia)
                     + IBufferRange.length (IPrimitiveIndices.range ib)))
                 (IPrimitiveIndices.indexUnit ia)))
        (IPrimitive.geometricInfo a)
  | _, _ => a
  end.

(** Component-wise [f] of the two positions where both are present;
    otherwise [a]'s position is as it was. *)
Definition merged_position (f : number -> number -> number) (a b : option Vec3.t)
    : option Vec3.t :=
  match a, b with
  | Some p, Some q =>
      Some (Vec3.mk (f (Vec3.x p) (Vec3.x q)) (f (Vec3.y p) (Vec3.y q))
                    (f (Vec3.z p) (Vec3.z q)))
  | _, _ => a
  end.

Definition merged_struct (a b : IMeshStruct.t) : IMeshStruct.t :=
  IMeshStruct.mk
    (zip_with merged_bundle (IMeshStruct.vertexBundles a) (IMeshStruct.vertexBundles b))
    (zip_with merged_primitive (IMeshStruct.primitives a) (IMeshStruct.primitives b))
    (merged_position Math_min (IMeshStruct.minPosition a) (IMeshStruct.minPosition b))
    (merged_position Math_max (IMeshStruct.maxPosition a) (IMeshStruct.maxPosition b)).

(** The world after the device received the calls [cs]. *)
Definition add_calls (cs : list GFXCall) (w : World.t) : World.t :=
  World.mk
    (GFXDevice.mk (GFXDevice.accepts (World.device w))
                  (GFXDevice.calls (World.device w) ++ cs))
    (World.structs w).

(** ** The store while [merge] runs *)

(** The world once the struct at reference [l] has become [X]. *)
Definition with_struct (l : nat) (X : IMeshStruct.t) (w : World.t) : World.t :=
  World.mk (World.device w) (<[l := X]> (World.structs w)).

(** What reference [lb] shows once the struct at [la] has become [X]:
    [X] itself when the two references are the same object, and the
    struct [sb] it held before otherwise. *)
Definition seen_from (la lb : nat) (X sb : IMeshStruct.t) : IMeshStruct.t :=
  if decide (la = lb) then X else sb.

(** [a]'s struct after [i] turns of the loop over vertex bundles. *)
Definition bundles_merged_upto (i : nat) (a b : IMeshStruct.t) : IMeshStruct.t :=
  IMeshStruct.mk
    (zip_with merged_bundle (take i (IMeshStruct.vertexBundles a))
                            (take i (IMeshStruct.vertexBundles b))
     ++ drop i (IMeshStruct.vertexBundles a))
    (IMeshStruct.primitives a)
    (IMeshStruct.minPosition a)
    (IMeshStruct.maxPosition a).

(** [a]'s struct after the loop over vertex bundles and [j] turns of the
    loop over primitives. *)
Definition primitives_merged_upto (j : nat) (a b : IMeshStruct.t) : IMeshStruct.t :=
  IMeshStruct.mk
    (zip_with merged_bundle (IMeshStruct.vertexBundles a) (IMeshStruct.vertexBundles b))
    (zip_with merged_primitive (take j (IMeshStruct.primitives a))
                               (take j (IMeshStruct.primitives b))
     ++ drop j (IMeshStruct.primitives a))
    (IMeshStruct.minPosition a)
    (IMeshStruct.maxPosition a).

(** ** Materialisation seen from outside *)

(** [w'] is [w] after the device received the calls [evs]; the store of
    structs may differ. *)
Definition device_extended (w w' : World.t) (evs : list GFXCall) : Prop :=
  GFXDevice.accepts (World.device w') = GFXDevice.accepts (World.device w)
  /\ device_calls w' = device_calls w ++ evs.

(** A computation that, whatever its outcome, only adds calls to the
    device's log and releases no buffer. *)
Definition no_release {A : Type} (m : M World.t A) : Prop :=
  forall w, exists evs,
    device_extended w (snd (m w)) evs /\ destroyed_buffers evs = [].

(** [this] once [_deferredInit] has set the flag. *)
Definition flagged (this : Mesh.t) : Mesh.t :=
  Mesh.mk (Mesh._struct this) (Mesh._data this) true (Mesh._renderingMesh this).

(** The part of [_deferredInit] that runs on the world: from the
    creation of the vertex buffers to the construction of the rendering
    mesh. *)
Definition materialize (this : Mesh.t) (buffer : ArrayBuffer) : M World.t RenderingMesh.t :=
  let! vertexBuffers := Mesh._createVertexBuffers this buffer in
  let! s := read_struct (Mesh._struct this) in
  let! made := Mesh.materialize_primitives this buffer vertexBuffers
                 (IMeshStruct.primitives s) 0 [] [] in
  ret (RenderingMesh.mk (snd made) vertexBuffers (fst made)).

(** The buffer a primitive created, as a list. *)
Definition buffer_list (b : option GFXBuffer) : list GFXBuffer :=
  match b with Some x => [x] | None => [] end.

(** ** Sample worlds *)

(** A device that accepts every allocation, with an empty log. *)
Definition sample_device : GFXDevice.t := GFXDevice.mk (fun _ _ => true) [].

(** A device that accepts an allocation only while its log holds fewer
    than two calls: the first allocation succeeds, the second fails. *)
Definition failing_device : GFXDevice.t :=
  GFXDevice.mk (fun calls _ => (length calls <? 2)%nat) [].

(** Sixteen bytes: three floats of positions, then two 16-bit indices. *)
Definition sample_buffer : ArrayBuffer := replicate 16 Byte.x00.

Definition sample_data : TypedArray.t := TypedArray.mk Uint8Array sample_buffer 0 16.

Definition sample_bundle : IVertexBundle.t :=
  IVertexBundle.mk (IBufferRange.mk 0 12) 1 [IGFXAttribute.mk "a_position" 21].

Definition sample_indices : IPrimitiveIndices.t :=
  IPrimitiveIndices.mk (IBufferRange.mk 12 4) UINT16.

(** A primitive that draws from bundle 0, with indices and raycast data. *)
Definition indexed_primitive : IPrimitive.t :=
  IPrimitive.mk [0%Z] 7 (Some sample_indices)
    (Some (IPrimitiveGeometricInfo.mk None (IBufferRange.mk 0 12) None None)).

(** A primitive that carries indices but names no vertex bundle. *)
Definition unbound_primitive : IPrimitive.t :=
  IPrimitive.mk [] 7 (Some sample_indices) None.

Definition sample_struct : IMeshStruct.t :=
  IMeshStruct.mk [sample_bundle] [unbound_primitive; indexed_primitive] None None.

(** A bundle of 32 bytes, more than the buffer holds. *)
Definition oversized_struct : IMeshStruct.t :=
  IMeshStruct.mk [IVertexBundle.mk (IBufferRange.mk 0 32) 2 []] [] None None.

(** A bundle of 12 bytes in bounds whose [verticesCount] is zero. *)
Definition zero_count_struct : IMeshStruct.t :=
  IMeshStruct.mk [IVertexBundle.mk (IBufferRange.mk 0 12) 0 []] [] None None.

Definition two_bundle_struct : IMeshStruct.t :=
  IMeshStruct.mk
    [IVertexBundle.mk (IBufferRange.mk 0 8) 2 []; IVertexBundle.mk (IBufferRange.mk 8 8) 2 []]
    [] None None.

Definition one_bundle_struct : IMeshStruct.t :=
  IMeshStruct.mk [IVertexBundle.mk (IBufferRange.mk 0 8) 2 []] [] None None.

(** The two structs of the specification's merge example. *)
Definition merge_target_struct : IMeshStruct.t :=
  IMeshStruct.mk
    [IVertexBundle.mk (IBufferRange.mk 0 100) 10 [IGFXAttribute.mk "a_position" 21]]
    [indexed_primitive]
    (Some (Vec3.mk (Num 0) (Num 0) (Num 0)))
    (Some (Vec3.mk (Num 1) (Num 2) (Num 3))).

Definition merge_source_struct : IMeshStruct.t :=
  IMeshStruct.mk
    [IVertexBundle.mk (IBufferRange.mk 0 50) 5 [IGFXAttribute.mk "a_position" 21]]
    [indexed_primitive]
    (Some (Vec3.mk (Num (-1)) (Num 1) (Num 0)))
    (Some (Vec3.mk (Num 4) (Num 0) (Num 5))).

Definition sample_structs : gmap nat IMeshStruct.t :=
  <[0 := sample_struct]>
    (<[1 := oversized_struct]>
       (<[2 := zero_count_struct]>
          (<[3 := two_bundle_struct]>
             (<[4 := one_bundle_struct]>
                (<[5 := merge_target_struct]>
                   (<[6 := merge_source_struct]> ∅)))))).

Definition sample_world : World.t := World.mk sample_device sample_structs.

Definition failing_world : World.t := World.mk failing_device sample_structs.

(** A mesh that holds the struct at reference [l] and the sample data,
    not yet materialised. *)
Definition pending_mesh (l : nat) : Mesh.t := Mesh.mk l (Some sample_data) false None.

(** [new Mesh()] in the sample world. *)
Definition fresh_mesh : Mesh.t := fst (Mesh.create sample_world).

Definition fresh_world : World.t := snd (Mesh.create sample_world).

(** Deferred initialisation of the two-bundle struct on the failing
    device. *)
Definition failed_pass : Completion unit * (Mesh.t * World.t) :=
  Mesh._deferredInit (pending_mesh 3, failing_world).

(** ** The remaining accessors of the mesh asset *)

Module MeshAccessors.

(** [get _nativeAsset ()] *)
Definition get_nativeAsset : Mesh.Method (option TypedArray.t) :=
  let! this := Mesh.get_this in
  ret (Mesh._data this).

(** [set _nativeAsset (value)] *)
Definition set_nativeAsset (value : option TypedArray.t) : Mesh.Method unit :=
  let! this := Mesh.get_this in
  Mesh.set_this (Mesh.mk (Mesh._struct this) value (Mesh._initialized this)
                   (Mesh._renderingMesh this)).

(** [get struct ()]: the reference to the struct. *)
Definition struct : Mesh.Method nat :=
  let! this := Mesh.get_this in
  ret (Mesh._struct this).

(** [get data ()] *)
Definition data : Mesh.Method (option TypedArray.t) :=
  let! this := Mesh.get_this in
  ret (Mesh._data this).

(** [get minPosition ()]: [this.struct.minPosition]. *)
Definition minPosition : Mesh.Method (option Vec3.t) :=
  let! l := struct in
  let! s := Mesh.in_world (read_struct l) in
  ret (IMeshStruct.minPosition s).

(** [get maxPosition ()]: [this.struct.maxPosition]. *)
Definition maxPosition : Mesh.Method (option Vec3.t) :=
  let! l := struct in
  let! s := Mesh.in_world (read_struct l) in
  ret (IMeshStruct.maxPosition s).

(** [getSubMesh(index)]: [this.renderingMesh.getSubmesh(index)]; the
    call on [null] is a TypeError, and the result is [None] where
    [getSubmesh] returns [undefined]. *)
Definition getSubMesh (index : Z) : Mesh.Method (option IRenderingSubmesh.t) :=
  let! renderingMesh := Mesh.renderingMesh in
  match renderingMesh with
  | Some rm => ret (RenderingMesh.getSubmesh rm index)
  | None => throw TypeError
  end.

End MeshAccessors.

(** ** Compatibility of two structs, in words *)

(** The two bundles have the same attribute formats, in order. *)
Definition same_attribute_formats (a d : IVertexBundle.t) : Prop :=
  map IGFXAttribute.format (IVertexBundle.attributes a)
  = map IGFXAttribute.format (IVertexBundle.attributes d).

(** The two primitives name the same bundles in the same order, have
    the same mode, and the same index unit if both carry indices. *)
Definition same_primitive_layout (p q : IPrimitive.t) : Prop :=
  IPrimitive.vertexBundelIndices p = IPrimitive.vertexBundelIndices q
  /\ IPrimitive.primitiveMode p = IPrimitive.primitiveMode q
  /\ forall i j,
       IPrimitive.indices p = Some i -> IPrimitive.indices q = Some j ->
       IPrimitiveIndices.indexUnit i = IPrimitiveIndices.indexUnit j.

(** ** What [merge] leaves alone, and the order on positions *)

(** A computation that, whatever its outcome, leaves the device and
    every struct other than the one at reference [l] as they were. *)
Definition writes_only {A : Type} (l : nat) (m : M World.t A) : Prop :=
  forall w,
    World.device (snd (m w)) = World.device w
    /\ forall l', l' <> l -> World.structs (snd (m w)) !! l' = World.structs w !! l'.

(** [a <= b] on numbers neither of which is NaN. *)
Definition number_le (a b : number) : Prop :=
  match a, b with
  | Num x, Num y => (x <= y)%Q
  | _, _ => False
  end.

(** Component-wise order on positions without NaN. *)
Definition Vec3_le (p q : Vec3.t) : Prop :=
  number_le (Vec3.x p) (Vec3.x q)
  /\ number_le (Vec3.y p) (Vec3.y q)
  /\ number_le (Vec3.z p) (Vec3.z q).

(** No coordinate of the position is NaN. *)
Definition no_NaN (p : Vec3.t) : Prop :=
  Vec3.x p <> NaN /\ Vec3.y p <> NaN /\ Vec3.z p <> NaN.

(** ** The flag and the rendering mesh *)

(** A mesh that holds a rendering mesh has its flag set. *)
Definition consistent (m : Mesh.t) : Prop :=
  is_Some (Mesh._renderingMesh m) -> Mesh._initialized m = true.

(** The buffers a mesh owns through its rendering mesh, vertex buffers
    first. *)
Definition owned_buffers (m : Mesh.t) : list GFXBuffer :=
  match Mesh._renderingMesh m with
  | Some rm => RenderingMesh._vertexBuffers rm ++ RenderingMesh._indexBuffers rm
  | None => []
  end.

(** ** What materialisation writes into a struct *)

(** [g'] is [g] up to the two fields that materialisation attaches. *)
Definition same_raycast_source (g g' : IPrimitiveGeometricInfo.t) : Prop :=
  IPrimitiveGeometricInfo.doubleSided g' = IPrimitiveGeometricInfo.doubleSided g
  /\ IPrimitiveGeometricInfo.range g' = IPrimitiveGeometricInfo.range g.

(** [p'] is [p] up to the two attached fields of its [geometricInfo]. *)
Definition same_primitive_source (p p' : IPrimitive.t) : Prop :=
  IPrimitive.vertexBundelIndices p' = IPrimitive.vertexBundelIndices p
  /\ IPrimitive.primitiveMode p' = IPrimitive.primitiveMode p
  /\ IPrimitive.indices p' = IPrimitive.indices p
  /\ option_Forall2 same_raycast_source (IPrimitive.geometricInfo p)
                                        (IPrimitive.geometricInfo p').

(** [s'] is [s] up to the attached fields of its primitives'
    [geometricInfo]. *)
Definition same_struct_source (s s' : IMeshStruct.t) : Prop :=
  IMeshStruct.vertexBundles s' = IMeshStruct.vertexBundles s
  /\ IMeshStruct.minPosition s' = IMeshStruct.minPosition s
  /\ IMeshStruct.maxPosition s' = IMeshStruct.maxPosition s
  /\ Forall2 same_primitive_source (IMeshStruct.primitives s) (IMeshStruct.primitives s').

(** A computation that, whatever its outcome, leaves the store of
    structs as it was. *)
Definition keeps_structs {A : Type} (m : M World.t A) : Prop :=
  forall w, World.structs (snd (m w)) = World.structs w.

(** A computation that, whatever its outcome, leaves at reference [l] a
    struct that is [s] up to the attached fields, if it found one
    there, and leaves every other struct as it was. *)
Definition keeps_source {A : Type} (l : nat) (s : IMeshStruct.t) (m : M World.t A) : Prop :=
  forall w cur,
    World.structs w !! l = Some cur ->
    same_struct_source s cur ->
    (exists s', World.structs (snd (m w)) !! l = Some s' /\ same_struct_source s s')
    /\ forall l', l' <> l -> World.structs (snd (m w)) !! l' = World.structs w !! l'.

(** ** Further sample states *)

(** The sample mesh after a read of [renderingMesh]. *)
Definition materialized_sample : Completion (option RenderingMesh.t) * (Mesh.t * World.t) :=
  Mesh.renderingMesh (pending_mesh 0, sample_world).

Definition materialized_mesh : Mesh.t := fst (snd materialized_sample).

Definition materialized_world : World.t := snd (snd materialized_sample).

(** The rendering mesh that read returned. *)
Definition sample_renderingMesh : RenderingMesh.t :=
  match fst materialized_sample with
  | Normal (Some rm) => rm
  | _ => RenderingMesh.mk [] [] []
  end.

(** The mesh of the oversized struct after a read of [renderingMesh]. *)
Definition rejected_sample : Completion (option RenderingMesh.t) * (Mesh.t * World.t) :=
  Mesh.renderingMesh (pending_mesh 1, sample_world).

(** [new Mesh()] given the sample data through the setter. *)
Definition loaded_fresh_mesh : Mesh.t :=
  fst (snd (MeshAccessors.set_nativeAsset (Some sample_data) (fresh_mesh, fresh_world))).

(** A primitive whose first bundle index names no bundle of a
    one-bundle struct. *)
Definition dangling_primitive : IPrimitive.t :=
  IPrimitive.mk [3%Z] 7 (Some sample_indices) None.

Definition dangling_struct : IMeshStruct.t :=
  IMeshStruct.mk [sample_bundle]
    [indexed_primitive; dangling_primitive; unbound_primitive] None None.

Definition dangling_world : World.t :=
  World.mk sample_device (<[7 := dangling_struct]> sample_structs).

(** The index buffer of the sample indices, created on the sample device. *)
Definition sample_indexBuffer : Completion (GFXBuffer * TypedArray.t) * World.t :=
  Mesh.create_indexBuffer sample_buffer sample_indices sample_world.

(** ** An allocation the device refuses *)

(** The device, in the state it has in [w], refuses [createBuffer(info)]. *)
Definition refuses (w : World.t) (info : IGFXBufferInfo.t) : Prop :=
  GFXDevice.accepts (World.device w) (GFXDevice.calls (World.device w)) info = false.

(** The argument of [createBuffer] in [_createVertexBuffers]. *)
Definition vertexBuffer_info (vertexBundle : IVertexBundle.t) : IGFXBufferInfo.t :=
  IGFXBufferInfo.mk [VERTEX; TRANSFER_DST] [HOST; DEVICE]
    (IBufferRange.length (IVertexBundle.data vertexBundle))
    (IBufferRange.length (IVertexBundle.data vertexBundle),
     IVertexBundle.verticesCount vertexBundle).

(** The argument of [createBuffer] in the branch [if (prim.indices)]. *)
Definition indexBuffer_info (indices : IPrimitiveIndices.t) : IGFXBufferInfo.t :=
  IGFXBufferInfo.mk [INDEX; TRANSFER_DST] [HOST; DEVICE]
    (IBufferRange.length (IPrimitiveIndices.range indices))
    (getIndexUnitStride (IPrimitiveIndices.indexUnit indices), 1%Z).

(** During the materialisation of [this] over the struct [s], started in
    the world [w], the device refuses an allocation: the pass has come,
    with the buffers [created] allocated and the world [w'], to a call
    of [createBuffer] that the device refuses.  The call is either the
    one for a vertex bundle, the bundles before it having got their
    buffers, or the one for the indices of a primitive that names a
    bundle, all vertex bundles and the primitives before it having been
    dealt with. *)
Inductive allocation_refused (this : Mesh.t) (buffer : ArrayBuffer) (s : IMeshStruct.t)
    (w : World.t) : list GFXBuffer -> World.t -> Prop :=
| refused_vertexBuffer (pre rest : list IVertexBundle.t) (vertexBundle : IVertexBundle.t)
    (vertexBuffers : list GFXBuffer) (w1 : World.t) :
    IMeshStruct.vertexBundles s = pre ++ vertexBundle :: rest ->
    Mesh._createVertexBuffers_map buffer pre w = (Normal vertexBuffers, w1) ->
    refuses w1 (vertexBuffer_info vertexBundle) ->
    allocation_refused this buffer s w vertexBuffers w1
| refused_indexBuffer (pre rest : list IPrimitive.t) (prim : IPrimitive.t)
    (indices : IPrimitiveIndices.t) (vertexBuffers : list GFXBuffer) (w1 : World.t)
    (made : list GFXBuffer * list IRenderingSubmesh.t) (w2 : World.t) :
    IMeshStruct.primitives s = pre ++ prim :: rest ->
    Mesh._createVertexBuffers_map buffer (IMeshStruct.vertexBundles s) w
    = (Normal vertexBuffers, w1) ->
    Mesh.materialize_primitives this buffer vertexBuffers pre 0 [] [] w1
    = (Normal made, w2) ->
    names_a_bundle prim = true ->
    IPrimitive.indices prim = Some indices ->
    refuses w2 (indexBuffer_info indices) ->
    allocation_refused this buffer s w (vertexBuffers ++ fst made) w2.

(** A computation that does not throw the device's error. *)
Definition never_DeviceError {A : Type} (m : M World.t A) : Prop :=
  forall w e w', m w = (Throw e, w') -> e <> DeviceError.

(** * Properties *)

(** ** Validation is reflexive and symmetric *)

Section Validation.

Import Mesh.

Lemma each_pair_refl {A : Type} (same : A -> A -> bool) (l : list A) :
  (forall x, same x x = true) -> each_pair same l l = true.
Proof.
  intros Hsame. induction l as [|x l IH]; simpl; [done|].
  by rewrite Hsame.
Qed.

Lemma each_pair_sym {A : Type} (same : A -> A -> bool) (l k : list A) :
  (forall x y, same x y = same y x) -> each_pair same l k = each_pair same k l.
Proof.
  intros Hsame. revert k; induction l as [|x l IH]; intros [|y k]; simpl; try done.
  by rewrite (Hsame x y), IH.
Qed.

(** The loop falls through exactly when the test holds at every index. *)
Lemma each_pair_lookup {A : Type} (same : A -> A -> bool) (l k : list A) :
  length l = length k ->
  each_pair same l k = true
  <-> forall i x y, l !! i = Some x -> k !! i = Some y -> same x y = true.
Proof.
  revert k; induction l as [|x l IH]; intros [|y k] Hlen; simpl in *; try done.
  destruct (same x y) eqn:E; simpl.
  - rewrite IH by lia. split.
    + intros H [|i] x' y' Hx Hy; simpl in *; [congruence|by eapply H].
    + intros H i x' y' Hx Hy. by apply (H (S i)).
  - split; [done|]. intros H. rewrite <- E. by apply (H 0).
Qed.

Lemma validate_bundle_refl (b : IVertexBundle.t) : validate_bundle b b = true.
Proof.
  unfold validate_bundle. rewrite Nat.eqb_refl. simpl.
  apply each_pair_refl. intros x. apply Z.eqb_refl.
Qed.

Lemma validate_bundle_sym (a b : IVertexBundle.t) :
  validate_bundle a b = validate_bundle b a.
Proof.
  unfold validate_bundle.
  rewrite (Nat.eqb_sym (length (IVertexBundle.attributes a))).
  rewrite (each_pair_sym _ (IVertexBundle.attributes a)); [done|].
  intros x y. apply Z.eqb_sym.
Qed.

Lemma validate_primitive_refl (p : IPrimitive.t) : validate_primitive p p = true.
Proof.
  unfold validate_primitive.
  rewrite Nat.eqb_refl, (each_pair_refl Z.eqb _ Z.eqb_refl), Z.eqb_refl. simpl.
  destruct (IPrimitive.indices p); [|done].
  by rewrite Z.eqb_refl.
Qed.

Lemma validate_primitive_sym (p q : IPrimitive.t) :
  validate_primitive p q = validate_primitive q p.
Proof.
  unfold validate_primitive.
  rewrite (Nat.eqb_sym (length (IPrimitive.vertexBundelIndices p))).
  rewrite (each_pair_sym Z.eqb (IPrimitive.vertexBundelIndices p) _ Z.eqb_sym).
  rewrite (Z.eqb_sym (IPrimitive.primitiveMode p)).
  destruct (IPrimitive.indices p) as [i|], (IPrimitive.indices q) as [j|]; try done.
  by rewrite (Z.eqb_sym (IPrimitiveIndices.indexUnit i)).
Qed.

Lemma validateMergingMesh_structs_refl (s : IMeshStruct.t) :
  validateMergingMesh_structs s s = true.
Proof.
  unfold validateMergingMesh_structs.
  rewrite !Nat.eqb_refl.
  rewrite (each_pair_refl _ _ validate_bundle_refl).
  by rewrite (each_pair_refl _ _ validate_primitive_refl).
Qed.

Lemma validateMergingMesh_structs_sym (s d : IMeshStruct.t) :
  validateMergingMesh_structs s d = validateMergingMesh_structs d s.
Proof.
  unfold validateMergingMesh_structs.
  rewrite (Nat.eqb_sym (length (IMeshStruct.vertexBundles s))).
  rewrite (Nat.eqb_sym (length (IMeshStruct.primitives s))).
  rewrite (each_pair_sym _ (IMeshStruct.vertexBundles s) _ validate_bundle_sym).
  by rewrite (each_pair_sym _ (IMeshStruct.primitives s) _ validate_primitive_sym).
Qed.

(** Validation reads the two structs and changes nothing. *)
Lemma validateMergingMesh_eval (a b : t) (w : World.t) (sa sb : IMeshStruct.t) :
  World.structs w !! _struct a = Some sa ->
  World.structs w !! _struct b = Some sb ->
  validateMergingMesh a b w = (Normal (validateMergingMesh_structs sa sb), w).
Proof.
  intros Ha Hb. unfold validateMergingMesh, bind, read_struct, ret.
  by rewrite Ha, Hb.
Qed.

Lemma validateMergingMesh_pure (a b : t) (w : World.t) :
  snd (validateMergingMesh a b w) = w.
Proof.
  unfold validateMergingMesh, bind, read_struct, ret.
  destruct (World.structs w !! _struct a); [|done].
  by destruct (World.structs w !! _struct b).
Qed.

(** C9: for every mesh [a] whose struct is in the store,
    [validateMergingMesh(a, a)] returns true. *)
Theorem validateMergingMesh_reflexive (a : t) (w : World.t) (s : IMeshStruct.t) :
  World.structs w !! _struct a = Some s ->
  validateMergingMesh a a w = (Normal true, w).
Proof.
  intros Ha. rewrite (validateMergingMesh_eval a a w s s Ha Ha).
  by rewrite validateMergingMesh_structs_refl.
Qed.

(** C10: for every pair of meshes [a] and [b],
    [validateMergingMesh(a, b)] and [validateMergingMesh(b, a)] give the
    same result. *)
Theorem validateMergingMesh_symmetric (a b : t) (w : World.t) :
  validateMergingMesh a b w = validateMergingMesh b a w.
Proof.
  unfold validateMergingMesh, bind, read_struct, ret.
  destruct (World.structs w !! _struct a) as [sa|] eqn:Ha;
    destruct (World.structs w !! _struct b) as [sb|] eqn:Hb;
    rewrite ?Ha; try done.
  by rewrite validateMergingMesh_structs_sym.
Qed.

End Validation.

(** ** Device calls *)

Lemma add_calls_nil (w : World.t) : add_calls [] w = w.
Proof.
  destruct w as [[acc cs] h]. unfold add_calls; simpl. by rewrite app_nil_r.
Qed.

Lemma add_calls_app (cs1 cs2 : list GFXCall) (w : World.t) :
  add_calls cs2 (add_calls cs1 w) = add_calls (cs1 ++ cs2) w.
Proof. unfold add_calls; simpl. by rewrite app_assoc. Qed.

Lemma log_call_add_calls (c : GFXCall) (w : World.t) : log_call c w = add_calls [c] w.
Proof. done. Qed.

Lemma device_calls_add_calls (cs : list GFXCall) (w : World.t) :
  device_calls (add_calls cs w) = device_calls w ++ cs.
Proof. done. Qed.

Lemma structs_add_calls (cs : list GFXCall) (w : World.t) :
  World.structs (add_calls cs w) = World.structs w.
Proof. done. Qed.

Lemma destroyed_buffers_app (l k : list GFXCall) :
  destroyed_buffers (l ++ k) = destroyed_buffers l ++ destroyed_buffers k.
Proof. unfold destroyed_buffers. by rewrite flat_map_app. Qed.

Lemma created_buffers_app (l k : list GFXCall) :
  created_buffers (l ++ k) = created_buffers l ++ created_buffers k.
Proof. unfold created_buffers. by rewrite flat_map_app. Qed.

Lemma destroyed_buffers_destroy_calls (bs : list GFXBuffer) :
  destroyed_buffers (map destroy_call bs) = bs.
Proof.
  induction bs as [|b bs IH]; [done|].
  simpl. by rewrite IH.
Qed.

(** ** Destroying a rendering mesh *)

Lemma forEach_destroy_eval (buffers : list GFXBuffer) (w : World.t) :
  RenderingMesh.forEach_destroy buffers w
  = (Normal tt, add_calls (map destroy_call buffers) w).
Proof.
  revert w; induction buffers as [|b bs IH]; intros w; simpl.
  - by rewrite add_calls_nil.
  - unfold bind, GFXBuffer_destroy. rewrite IH, log_call_add_calls.
    by rewrite add_calls_app.
Qed.

Lemma RenderingMesh_destroy_eval (rm : RenderingMesh.t) (w : World.t) :
  RenderingMesh.destroy rm w
  = (Normal (RenderingMesh.mk [] [] []),
     add_calls (map destroy_call (RenderingMesh._vertexBuffers rm)
                ++ map destroy_call (RenderingMesh._indexBuffers rm)) w).
Proof.
  unfold RenderingMesh.destroy, bind, ret; simpl.
  rewrite !forEach_destroy_eval. by rewrite add_calls_app.
Qed.

(** C8: [destroy()] raises nothing, releases every vertex buffer then
    every index buffer and leaves the three lists empty; a second call
    raises nothing, makes no call to the device (no buffer is released
    again) and leaves the lists empty. *)
Theorem RenderingMesh_destroy_idempotent (rm : RenderingMesh.t) (w : World.t) :
  exists (rm1 : RenderingMesh.t) (w1 : World.t),
    RenderingMesh.destroy rm w = (Normal rm1, w1)
    /\ RenderingMesh._subMeshes rm1 = []
    /\ RenderingMesh._vertexBuffers rm1 = []
    /\ RenderingMesh._indexBuffers rm1 = []
    /\ destroyed_buffers (device_calls w1)
       = destroyed_buffers (device_calls w)
         ++ RenderingMesh._vertexBuffers rm ++ RenderingMesh._indexBuffers rm
    /\ RenderingMesh.destroy rm1 w1 = (Normal rm1, w1).
Proof.
  eexists _, _. split; [apply RenderingMesh_destroy_eval|].
  split; [done|]. split; [done|]. split; [done|]. split.
  - rewrite device_calls_add_calls, !destroyed_buffers_app.
    by rewrite !destroyed_buffers_destroy_calls.
  - rewrite RenderingMesh_destroy_eval. simpl. by rewrite add_calls_nil.
Qed.

(** ** Merging *)

(** C5: when [validateMergingMesh(a, b)] is false, [merge(a, b, true)]
    returns false and leaves the world, hence the structs of [a] and
    [b], as it was. *)
Theorem merge_rejected_changes_nothing (a b : Mesh.t) (w : World.t) :
  fst (Mesh.validateMergingMesh a b w) = Normal false ->
  Mesh.merge a b (Some true) w = (Normal false, w).
Proof.
  intros Hv. unfold Mesh.merge, bind.
  pose proof (validateMergingMesh_pure a b w) as Hw.
  destruct (Mesh.validateMergingMesh a b w) as [c w']; simpl in *.
  by subst.
Qed.

(** One more turn of a loop that rewrites a list in place, element by
    element, from a second list. *)
Lemma alter_merged_prefix {A B : Type} (f : A -> B -> A) (l : list A) (k : list B)
    (i : nat) (x : A) (d : B) :
  l !! i = Some x -> k !! i = Some d ->
  alter (fun _ => f x d) i (zip_with f (take i l) (take i k) ++ drop i l)
  = zip_with f (take (S i) l) (take (S i) k) ++ drop (S i) l.
Proof.
  intros Hl Hk.
  assert (i < length l) as Hil by (by eapply lookup_lt_Some).
  assert (i < length k) as Hik by (by eapply lookup_lt_Some).
  assert (length (zip_with f (take i l) (take i k)) = i) as Hlen.
  { rewrite length_zip_with, !length_take. lia. }
  rewrite alter_app_r_alt by lia.
  rewrite Hlen, Nat.sub_diag, (drop_S l x i Hl). simpl.
  rewrite (take_S_r l i x Hl), (take_S_r k i d Hk).
  rewrite zip_with_app by (rewrite !length_take; lia).
  simpl. by rewrite <- app_assoc.
Qed.

Lemma lookup_merged_prefix {A B : Type} (f : A -> B -> A) (l : list A) (k : list B)
    (i : nat) :
  i <= length l -> i <= length k ->
  (zip_with f (take i l) (take i k) ++ drop i l) !! i = l !! i.
Proof.
  intros Hil Hik.
  assert (length (zip_with f (take i l) (take i k)) = i) as Hlen.
  { rewrite length_zip_with, !length_take. lia. }
  rewrite lookup_app_r by lia.
  rewrite Hlen, Nat.sub_diag, lookup_drop. f_equal. lia.
Qed.

Section MergeInPlace.

Import Mesh.

Context (a b : t) (w : World.t) (sa sb : IMeshStruct.t).
Hypothesis Ha : World.structs w !! _struct a = Some sa.
Hypothesis Hb : World.structs w !! _struct b = Some sb.

Lemma with_struct_initial : with_struct (_struct a) sa w = w.
Proof.
  unfold with_struct. rewrite insert_id by done. by destruct w.
Qed.

Lemma aliased_structs : _struct a = _struct b -> sa = sb.
Proof. intros E. rewrite E in Ha. congruence. Qed.

Lemma read_this (X : IMeshStruct.t) :
  read_struct (_struct a) (with_struct (_struct a) X w)
  = (Normal X, with_struct (_struct a) X w).
Proof. unfold read_struct, with_struct; simpl. by rewrite lookup_insert_eq. Qed.

Lemma read_mesh (X : IMeshStruct.t) :
  read_struct (_struct b) (with_struct (_struct a) X w)
  = (Normal (seen_from (_struct a) (_struct b) X sb), with_struct (_struct a) X w).
Proof.
  unfold read_struct, with_struct, seen_from; simpl.
  rewrite lookup_insert. case_decide; [done|]. by rewrite Hb.
Qed.

Lemma modify_this (X : IMeshStruct.t) (f : IMeshStruct.t -> IMeshStruct.t) :
  modify_struct (_struct a) f (with_struct (_struct a) X w)
  = (Normal tt, with_struct (_struct a) (f X) w).
Proof.
  unfold modify_struct, with_struct; simpl.
  by rewrite lookup_insert_eq, insert_insert_eq.
Qed.

(** One turn of the loop over vertex bundles. *)
Lemma merge_vertexBundle_step (X : IMeshStruct.t) (i : nat) (x d : IVertexBundle.t) :
  IMeshStruct.vertexBundles X !! i = Some x ->
  IMeshStruct.vertexBundles (seen_from (_struct a) (_struct b) X sb) !! i = Some d ->
  merge_vertexBundle a b i (with_struct (_struct a) X w)
  = (Normal tt,
     with_struct (_struct a) (alter_vertexBundle i (fun _ => merged_bundle x d) X) w).
Proof.
  intros Hx Hd.
  unfold merge_vertexBundle, vertexBundle_at, bind.
  rewrite read_mesh, Hd. unfold ret at 1. rewrite modify_this, read_mesh.
  set (X1 := alter_vertexBundle i _ X).
  assert (exists d1, IMeshStruct.vertexBundles (seen_from (_struct a) (_struct b) X1 sb) !! i
                     = Some d1
                     /\ IVertexBundle.verticesCount d1 = IVertexBundle.verticesCount d)
    as (d1 & Hd1 & Hvc).
  { unfold seen_from in *. case_decide; [|by exists d].
    assert (d = x) as -> by congruence.
    eexists. split; [|shelve]. subst X1. simpl.
    rewrite list_lookup_alter_eq, Hx. done.
    Unshelve. done. }
  rewrite Hd1. unfold ret at 1. rewrite modify_this, Hvc.
  do 2 f_equal. subst X1. unfold alter_vertexBundle; simpl. f_equal.
  rewrite list_alter_alter_eq. apply list_alter_ext; [|done].
  intros y Hy. by assert (y = x) as -> by congruence.
Qed.

Lemma merge_vertexBundles_loop (n i : nat) :
  length (IMeshStruct.vertexBundles sa) = length (IMeshStruct.vertexBundles sb) ->
  i + n = length (IMeshStruct.vertexBundles sa) ->
  for_loop i n (merge_vertexBundle a b)
    (with_struct (_struct a) (bundles_merged_upto i sa sb) w)
  = (Normal tt, with_struct (_struct a) (bundles_merged_upto (i + n) sa sb) w).
Proof.
  intros Hlen. revert i. induction n as [|n IH]; intros i Hi; simpl.
  - by rewrite Nat.add_0_r.
  - destruct (lookup_lt_is_Some_2 (IMeshStruct.vertexBundles sa) i) as [x Hx]; [lia|].
    destruct (lookup_lt_is_Some_2 (IMeshStruct.vertexBundles sb) i) as [d Hd]; [lia|].
    unfold bind at 1.
    rewrite (merge_vertexBundle_step _ i x d).
    + replace (alter_vertexBundle i _ _) with (bundles_merged_upto (S i) sa sb).
      * rewrite IH by lia. do 3 f_equal. lia.
      * unfold alter_vertexBundle, bundles_merged_upto; simpl. f_equal.
        symmetry. by apply alter_merged_prefix.
    + simpl. rewrite lookup_merged_prefix by lia. done.
    + unfold seen_from. case_decide as E; [|done].
      rewrite <- (aliased_structs E) in *. simpl.
      rewrite lookup_merged_prefix by lia. congruence.
Qed.

Lemma alter_unchanged {A : Type} (f : A -> A) (l : list A) (i : nat) (x : A) :
  l !! i = Some x -> f x = x -> alter f i l = l.
Proof.
  intros Hx Hf. rewrite <- (list_alter_id id l i) at 2 by done.
  apply list_alter_ext; [|done]. intros y Hy. by assert (y = x) as -> by congruence.
Qed.

(** One turn of the loop over primitives. *)
Lemma merge_primitive_step (X : IMeshStruct.t) (i : nat) (x d : IPrimitive.t) :
  IMeshStruct.primitives X !! i = Some x ->
  IMeshStruct.primitives (seen_from (_struct a) (_struct b) X sb) !! i = Some d ->
  merge_primitive a b i (with_struct (_struct a) X w)
  = (Normal tt,
     with_struct (_struct a) (alter_primitive i (fun _ => merged_primitive x d) X) w).
Proof.
  intros Hx Hd.
  assert (IPrimitive.indices x = None \/ IPrimitive.indices d = None ->
          alter_primitive i (fun _ => merged_primitive x d) X = X) as Hsame.
  { intros Hnone. destruct X as [B P mn mx]; unfold alter_primitive; simpl in *.
    f_equal. apply (alter_unchanged _ _ _ x Hx).
    unfold merged_primitive.
    destruct (IPrimitive.indices x); [|done].
    destruct (IPrimitive.indices d); [|done].
    by destruct Hnone. }
  unfold merge_primitive, bind.
  rewrite read_this, Hx.
  destruct (IPrimitive.indices x) as [ix|] eqn:Eix.
  - rewrite read_mesh, Hd.
    destruct (IPrimitive.indices d) as [id|] eqn:Eid.
    + rewrite modify_this. do 2 f_equal.
      unfold alter_primitive. f_equal.
      apply list_alter_ext; [|done]. intros y Hy.
      assert (y = x) as -> by congruence.
      unfold add_indices_length, merged_primitive. by rewrite Eix, Eid.
    + unfold ret. rewrite Hsame; auto.
  - unfold ret. rewrite Hsame; auto.
Qed.

Lemma merge_primitives_loop (n i : nat) :
  length (IMeshStruct.primitives sa) = length (IMeshStruct.primitives sb) ->
  i + n = length (IMeshStruct.primitives sa) ->
  for_loop i n (merge_primitive a b)
    (with_struct (_struct a) (primitives_merged_upto i sa sb) w)
  = (Normal tt, with_struct (_struct a) (primitives_merged_upto (i + n) sa sb) w).
Proof.
  intros Hlen. revert i. induction n as [|n IH]; intros i Hi; simpl.
  - by rewrite Nat.add_0_r.
  - destruct (lookup_lt_is_Some_2 (IMeshStruct.primitives sa) i) as [x Hx]; [lia|].
    destruct (lookup_lt_is_Some_2 (IMeshStruct.primitives sb) i) as [d Hd]; [lia|].
    unfold bind at 1.
    rewrite (merge_primitive_step _ i x d).
    + replace (alter_primitive i _ _) with (primitives_merged_upto (S i) sa sb).
      * rewrite IH by lia. do 3 f_equal. lia.
      * unfold alter_primitive, primitives_merged_upto; simpl. f_equal.
        symmetry. by apply alter_merged_prefix.
    + simpl. rewrite lookup_merged_prefix by lia. done.
    + unfold seen_from. case_decide as E; [|done].
      rewrite <- (aliased_structs E) in *. simpl.
      rewrite lookup_merged_prefix by lia. congruence.
Qed.

(** One assignment to a component of a position. *)
Lemma merge_component_step
    (get : IMeshStruct.t -> option Vec3.t)
    (alter : (Vec3.t -> Vec3.t) -> IMeshStruct.t -> IMeshStruct.t)
    (component : Vec3.t -> number) (set : number -> Vec3.t -> Vec3.t)
    (f : number -> number -> number) (X : IMeshStruct.t) (q : Vec3.t) :
  get (seen_from (_struct a) (_struct b) X sb) = Some q ->
  merge_component get alter component set f a b (with_struct (_struct a) X w)
  = (Normal tt,
     with_struct (_struct a) (alter (fun p => set (f (component p) (component q)) p) X) w).
Proof.
  intros Hq. unfold merge_component, bind.
  by rewrite read_mesh, Hq, modify_this.
Qed.

Lemma merge_maxPosition_eval (B : list IVertexBundle.t) (P : list IPrimitive.t)
    (mn : option Vec3.t) :
  merge_maxPosition a b
    (with_struct (_struct a) (IMeshStruct.mk B P mn (IMeshStruct.maxPosition sa)) w)
  = (Normal tt,
     with_struct (_struct a)
       (IMeshStruct.mk B P mn
          (merged_position Math_max (IMeshStruct.maxPosition sa)
                                    (IMeshStruct.maxPosition sb))) w).
Proof.
  unfold merge_maxPosition, bind. rewrite read_this, read_mesh.
  destruct (decide (_struct a = _struct b)) as [E|E].
  - rewrite <- (aliased_structs E).
    unfold seen_from at 1. rewrite decide_True by done. simpl.
    destruct (IMeshStruct.maxPosition sa) as [p|]; [|done].
    rewrite (merge_component_step _ _ _ _ _ _ p)
      by (unfold seen_from; by rewrite decide_True).
    simpl.
    rewrite (merge_component_step _ _ _ _ _ _ (set_x (Math_max (Vec3.x p) (Vec3.x p)) p))
      by (unfold seen_from; by rewrite decide_True).
    simpl.
    rewrite (merge_component_step _ _ _ _ _ _
               (set_y (Math_max (Vec3.y p) (Vec3.y p))
                  (set_x (Math_max (Vec3.x p) (Vec3.x p)) p)))
      by (unfold seen_from; by rewrite decide_True).
    done.
  - unfold seen_from at 1. rewrite decide_False by done. simpl.
    destruct (IMeshStruct.maxPosition sa) as [p|]; [|done].
    destruct (IMeshStruct.maxPosition sb) as [q|] eqn:Eq; [|done].
    rewrite !(merge_component_step _ _ _ _ _ _ q)
      by (unfold seen_from; by rewrite decide_False).
    done.
Qed.

Lemma merge_minPosition_eval (B : list IVertexBundle.t) (P : list IPrimitive.t)
    (mx : option Vec3.t) :
  merge_minPosition a b
    (with_struct (_struct a) (IMeshStruct.mk B P (IMeshStruct.minPosition sa) mx) w)
  = (Normal tt,
     with_struct (_struct a)
       (IMeshStruct.mk B P
          (merged_position Math_min (IMeshStruct.minPosition sa)
                                    (IMeshStruct.minPosition sb)) mx) w).
Proof.
  unfold merge_minPosition, bind. rewrite read_this, read_mesh.
  destruct (decide (_struct a = _struct b)) as [E|E].
  - rewrite <- (aliased_structs E).
    unfold seen_from at 1. rewrite decide_True by done. simpl.
    destruct (IMeshStruct.minPosition sa) as [p|]; [|done].
    rewrite (merge_component_step _ _ _ _ _ _ p)
      by (unfold seen_from; by rewrite decide_True).
    simpl.
    rewrite (merge_component_step _ _ _ _ _ _ (set_x (Math_min (Vec3.x p) (Vec3.x p)) p))
      by (unfold seen_from; by rewrite decide_True).
    simpl.
    rewrite (merge_component_step _ _ _ _ _ _
               (set_y (Math_min (Vec3.y p) (Vec3.y p))
                  (set_x (Math_min (Vec3.x p) (Vec3.x p)) p)))
      by (unfold seen_from; by rewrite decide_True).
    done.
  - unfold seen_from at 1. rewrite decide_False by done. simpl.
    destruct (IMeshStruct.minPosition sa) as [p|]; [|done].
    destruct (IMeshStruct.minPosition sb) as [q|] eqn:Eq; [|done].
    rewrite !(merge_component_step _ _ _ _ _ _ q)
      by (unfold seen_from; by rewrite decide_False).
    done.
Qed.

End MergeInPlace.

Lemma validateMergingMesh_structs_lengths (sa sb : IMeshStruct.t) :
  Mesh.validateMergingMesh_structs sa sb = true ->
  length (IMeshStruct.vertexBundles sa) = length (IMeshStruct.vertexBundles sb)
  /\ length (IMeshStruct.primitives sa) = length (IMeshStruct.primitives sb).
Proof.
  unfold Mesh.validateMergingMesh_structs.
  destruct (Nat.eqb_spec (length (IMeshStruct.vertexBundles sa))
                         (length (IMeshStruct.vertexBundles sb))); [|done].
  simpl. destruct (Mesh.each_pair Mesh.validate_bundle _ _); [|done]. simpl.
  by destruct (Nat.eqb_spec (length (IMeshStruct.primitives sa))
                            (length (IMeshStruct.primitives sb))).
Qed.

(** What [merged_struct] holds at each position, for lists of the same
    lengths. *)
Lemma merged_struct_vertexBundle (sa sb : IMeshStruct.t) (i : nat)
    (x d : IVertexBundle.t) :
  IMeshStruct.vertexBundles sa !! i = Some x ->
  IMeshStruct.vertexBundles sb !! i = Some d ->
  IMeshStruct.vertexBundles (merged_struct sa sb) !! i = Some (merged_bundle x d).
Proof. intros Hx Hd. simpl. by rewrite lookup_zip_with, Hx, Hd. Qed.

Lemma merged_struct_primitive (sa sb : IMeshStruct.t) (i : nat) (x d : IPrimitive.t) :
  IMeshStruct.primitives sa !! i = Some x ->
  IMeshStruct.primitives sb !! i = Some d ->
  IMeshStruct.primitives (merged_struct sa sb) !! i = Some (merged_primitive x d).
Proof. intros Hx Hd. simpl. by rewrite lookup_zip_with, Hx, Hd. Qed.

(** C6: for two meshes whose structs are compatible, [merge(a, b)]
    (with or without validation) returns true and has rewritten [a]'s
    struct in place into [merged_struct]: every vertex bundle of [a] has
    gained the [data.length] and [verticesCount] of [b]'s bundle at the
    same position, every primitive of [a] that carries indices, facing
    one of [b] that does, has gained its [indices.range.length], and
    [maxPosition] / [minPosition] are the component-wise max / min where
    both structs have them.  Nothing else in the world changes, and no
    bundle or primitive is added or dropped. *)
Theorem merge_compatible (a b : Mesh.t) (validate : option bool) (w : World.t)
    (sa sb : IMeshStruct.t) :
  World.structs w !! Mesh._struct a = Some sa ->
  World.structs w !! Mesh._struct b = Some sb ->
  Mesh.validateMergingMesh_structs sa sb = true ->
  Mesh.merge a b validate w
  = (Normal true, with_struct (Mesh._struct a) (merged_struct sa sb) w)
  /\ length (IMeshStruct.vertexBundles (merged_struct sa sb))
     = length (IMeshStruct.vertexBundles sa)
  /\ length (IMeshStruct.primitives (merged_struct sa sb))
     = length (IMeshStruct.primitives sa).
Proof.
  intros Ha Hb Hv.
  destruct (validateMergingMesh_structs_lengths sa sb Hv) as [HB HP].
  split; [|simpl; rewrite !length_zip_with; lia].
  unfold Mesh.merge. unfold bind at 1.
  assert (match validate with
          | Some true => Mesh.validateMergingMesh a b
          | _ => ret true
          end w = (Normal true, w)) as ->.
  { destruct validate as [[|]|]; try done.
    by rewrite (validateMergingMesh_eval a b w sa sb Ha Hb), Hv. }
  change (negb true) with false. cbv iota.
  remember (with_struct (Mesh._struct a) (merged_struct sa sb) w) as merged eqn:Hm.
  rewrite <- (with_struct_initial a b w sa sb Ha Hb). subst merged.
  unfold bind at 1. rewrite read_this.
  replace (with_struct (Mesh._struct a) sa w)
    with (with_struct (Mesh._struct a) (bundles_merged_upto 0 sa sb) w)
    by (by destruct sa).
  unfold bind at 1.
  rewrite (merge_vertexBundles_loop a b w sa sb Ha Hb) by (done || lia).
  replace (bundles_merged_upto (0 + length (IMeshStruct.vertexBundles sa)) sa sb)
    with (primitives_merged_upto 0 sa sb).
  2:{ unfold bundles_merged_upto, primitives_merged_upto; simpl.
      rewrite drop_all, app_nil_r, take_ge by done.
      rewrite HB at 1. by rewrite take_ge by done. }
  unfold bind at 1. rewrite read_this.
  replace (length (IMeshStruct.primitives (primitives_merged_upto 0 sa sb)))
    with (length (IMeshStruct.primitives sa)) by done.
  unfold bind at 1.
  rewrite (merge_primitives_loop a b w sa sb Ha Hb) by (done || lia).
  unfold primitives_merged_upto. simpl.
  rewrite drop_all, app_nil_r, take_ge by done.
  rewrite HP at 1. rewrite take_ge by done.
  unfold bind at 1.
  rewrite (merge_maxPosition_eval a b w sa sb Ha Hb).
  unfold bind at 1.
  rewrite (merge_minPosition_eval a b w sa sb Ha Hb).
  done.
Qed.

(** ** Materialisation releases nothing *)

Lemma device_extended_refl (w : World.t) : device_extended w w [].
Proof. split; [done|]. by rewrite app_nil_r. Qed.

Lemma device_extended_trans (w1 w2 w3 : World.t) (e1 e2 : list GFXCall) :
  device_extended w1 w2 e1 -> device_extended w2 w3 e2 ->
  device_extended w1 w3 (e1 ++ e2).
Proof.
  intros [A1 C1] [A2 C2]. split; [congruence|].
  rewrite C2, C1. by rewrite app_assoc.
Qed.

Lemma device_extended_add_calls (w : World.t) (evs : list GFXCall) :
  device_extended w (add_calls evs w) evs.
Proof. done. Qed.

Lemma device_extended_never_fails (w w' : World.t) (evs : list GFXCall) :
  device_extended w w' evs -> device_never_fails w -> device_never_fails w'.
Proof. intros [Hacc _] Hw calls info. rewrite Hacc. apply Hw. Qed.

Lemma no_release_ret {A : Type} (x : A) : no_release (ret x).
Proof. intros w. exists []. split; [apply device_extended_refl|done]. Qed.

Lemma no_release_throw {A : Type} (e : JSError) : no_release (@throw World.t A e).
Proof. intros w. exists []. split; [apply device_extended_refl|done]. Qed.

Lemma no_release_lift {A : Type} (c : Completion A) : no_release (lift c).
Proof. intros w. exists []. split; [apply device_extended_refl|done]. Qed.

Lemma no_release_bind {A B : Type} (m : M World.t A) (k : A -> M World.t B) :
  no_release m -> (forall x, no_release (k x)) -> no_release (bind m k).
Proof.
  intros Hm Hk w. unfold bind.
  destruct (Hm w) as (e1 & H1 & D1).
  destruct (m w) as [[x|e] w1]; simpl in *.
  - destruct (Hk x w1) as (e2 & H2 & D2).
    exists (e1 ++ e2). split; [by eapply device_extended_trans|].
    by rewrite destroyed_buffers_app, D1, D2.
  - by exists e1.
Qed.

Lemma no_release_createBuffer (info : IGFXBufferInfo.t) : no_release (createBuffer info).
Proof.
  intros w. unfold createBuffer.
  destruct (GFXDevice.accepts _ _ _); simpl.
  - eexists [_]. split; [apply device_extended_add_calls|done].
  - exists []. split; [apply device_extended_refl|done].
Qed.

Lemma no_release_update (b : GFXBuffer) (data : TypedArray.t) :
  no_release (GFXBuffer_update b data).
Proof.
  intros w. eexists [_]. split; [apply device_extended_add_calls|done].
Qed.

Lemma no_release_read_struct (l : nat) : no_release (read_struct l).
Proof.
  intros w. exists []. unfold read_struct.
  destruct (World.structs w !! l); (split; [apply device_extended_refl|done]).
Qed.

Lemma no_release_modify_struct (l : nat) (f : IMeshStruct.t -> IMeshStruct.t) :
  no_release (modify_struct l f).
Proof.
  intros w. exists []. unfold modify_struct.
  destruct (World.structs w !! l); (split; [|done]).
  - split; [done|]. unfold device_calls; simpl. by rewrite app_nil_r.
  - apply device_extended_refl.
Qed.

Create HintDb no_release.
#[local] Hint Resolve no_release_ret no_release_throw no_release_lift
  no_release_createBuffer no_release_update no_release_read_struct
  no_release_modify_struct : no_release.

Ltac no_release_step :=
  match goal with
  | |- no_release (bind _ _) => apply no_release_bind; [|intros ?]
  | |- no_release (match ?x with _ => _ end) => destruct x
  | |- no_release _ => solve [auto with no_release]
  end.

Lemma no_release_createVertexBuffers_map (data : ArrayBuffer)
    (bundles : list IVertexBundle.t) :
  no_release (Mesh._createVertexBuffers_map data bundles).
Proof.
  induction bundles as [|vb rest IH]; simpl; repeat no_release_step.
Qed.

Lemma no_release_create_indexBuffer (buffer : ArrayBuffer) (indices : IPrimitiveIndices.t) :
  no_release (Mesh.create_indexBuffer buffer indices).
Proof. unfold Mesh.create_indexBuffer. repeat no_release_step. Qed.

Lemma no_release_materialize_primitive (this : Mesh.t) (buffer : ArrayBuffer)
    (vertexBuffers : list GFXBuffer) (i : nat) (prim : IPrimitive.t) :
  no_release (Mesh.materialize_primitive this buffer vertexBuffers i prim).
Proof.
  pose proof no_release_create_indexBuffer.
  unfold Mesh.materialize_primitive, Mesh.prepare_indices,
    Mesh.first_bundle_attributes, Mesh.attach_geometricInfo.
  repeat no_release_step.
Qed.

Lemma no_release_materialize_primitives (this : Mesh.t) (buffer : ArrayBuffer)
    (vertexBuffers : list GFXBuffer) (prims : list IPrimitive.t) (i : nat)
    (indexBuffers : list GFXBuffer) (submeshes : list IRenderingSubmesh.t) :
  no_release (Mesh.materialize_primitives this buffer vertexBuffers prims i
                indexBuffers submeshes).
Proof.
  revert i indexBuffers submeshes.
  induction prims as [|prim rest IH]; intros i ibs subs; simpl.
  - no_release_step.
  - destruct (length (IPrimitive.vertexBundelIndices prim) =? 0)%nat; [apply IH|].
    apply no_release_bind; [apply no_release_materialize_primitive|].
    intros made. apply IH.
Qed.

Lemma no_release_materialize (this : Mesh.t) (buffer : ArrayBuffer) :
  no_release (materialize this buffer).
Proof.
  unfold materialize, Mesh._createVertexBuffers.
  apply no_release_bind.
  { apply no_release_bind; [no_release_step|].
    intros s. apply no_release_createVertexBuffers_map. }
  intros vbs. apply no_release_bind; [no_release_step|].
  intros s. apply no_release_bind; [apply no_release_materialize_primitives|].
  intros made. no_release_step.
Qed.

(** ** Deferred initialisation, case by case *)

Lemma _deferredInit_initialized (m : Mesh.t) (w : World.t) :
  Mesh._initialized m = true ->
  Mesh._deferredInit (m, w) = (Normal tt, (m, w)).
Proof.
  intros Hi. destruct m as [l d i r]; simpl in *; subst.
  done.
Qed.

Lemma _deferredInit_without_data (m : Mesh.t) (w : World.t) :
  Mesh._initialized m = false -> Mesh._data m = None ->
  Mesh._deferredInit (m, w) = (Normal tt, (flagged m, w)).
Proof.
  intros Hi Hd. destruct m as [l d i r]; simpl in *; subst.
  done.
Qed.

Lemma _deferredInit_pending (m : Mesh.t) (w : World.t) (data : TypedArray.t) :
  pending m data ->
  Mesh._deferredInit (m, w)
  = match materialize (flagged m) (TypedArray.buffer data) w with
    | (Normal rm, w') =>
        (Normal tt, (Mesh.mk (Mesh._struct m) (Mesh._data m) true (Some rm), w'))
    | (Throw e, w') => (Throw e, (flagged m, w'))
    end.
Proof.
  intros [Hi Hd]. destruct m as [l d i r]; simpl in *; subst.
  unfold Mesh._deferredInit, materialize, flagged, bind, Mesh.get_this, Mesh.set_this,
    Mesh.in_world, ret; simpl.
  destruct (Mesh._createVertexBuffers _ _ w) as [[vbs|e] w1]; simpl; [|done].
  destruct (read_struct _ w1) as [[s|e] w2]; simpl; [|done].
  by destruct (Mesh.materialize_primitives _ _ _ _ _ _ _ w2) as [[made|e] w3].
Qed.

(** Whatever its outcome, deferred initialisation releases no buffer. *)
Lemma _deferredInit_no_release (m m' : Mesh.t) (w w' : World.t) (c : Completion unit) :
  Mesh._deferredInit (m, w) = (c, (m', w')) ->
  exists evs, device_extended w w' evs /\ destroyed_buffers evs = [].
Proof.
  intros H.
  destruct (Mesh._initialized m) eqn:Hi.
  { rewrite _deferredInit_initialized in H by done.
    inversion H; subst. exists []. split; [apply device_extended_refl|done]. }
  destruct (Mesh._data m) as [data|] eqn:Hd.
  2:{ rewrite _deferredInit_without_data in H by done.
      inversion H; subst. exists []. split; [apply device_extended_refl|done]. }
  rewrite (_deferredInit_pending m w data) in H by done.
  destruct (no_release_materialize (flagged m) (TypedArray.buffer data) w)
    as (evs & He & Hdes).
  exists evs.
  destruct (materialize _ _ w) as [[rm|e] w1]; inversion H; by subst.
Qed.

(** ** Typed-array views over ranges *)

Lemma new_TypedArray_error (ctor : TypedArrayCtor) (buffer : ArrayBuffer)
    (off len : Z) (e : JSError) :
  new_TypedArray ctor buffer off len = Throw e -> e = RangeError.
Proof.
  unfold new_TypedArray.
  repeat match goal with |- context [if ?c then _ else _] => destruct c end;
    congruence.
Qed.

Lemma new_Uint8Array_in_bounds (buffer : ArrayBuffer) (r : IBufferRange.t) :
  range_in_bounds buffer r = true ->
  new_TypedArray Uint8Array buffer (IBufferRange.offset r) (IBufferRange.length r)
  = Normal (TypedArray.mk Uint8Array buffer (IBufferRange.offset r) (IBufferRange.length r)).
Proof.
  unfold range_in_bounds, new_TypedArray. simpl BYTES_PER_ELEMENT.
  intros H. apply andb_prop in H as [H H3]. apply andb_prop in H as [H1 H2].
  rewrite Z.mod_1_r, Z.mul_1_r. simpl.
  destruct (Z.ltb_spec (IBufferRange.offset r) 0); [lia|].
  destruct (Z.ltb_spec (IBufferRange.length r) 0); [lia|].
  destruct (Z.ltb_spec (byteLength buffer)
              (IBufferRange.offset r + IBufferRange.length r)); [lia|done].
Qed.

Lemma new_Uint8Array_exceeds (buffer : ArrayBuffer) (r : IBufferRange.t) :
  range_exceeds buffer r ->
  new_TypedArray Uint8Array buffer (IBufferRange.offset r) (IBufferRange.length r)
  = Throw RangeError.
Proof.
  unfold range_exceeds, new_TypedArray. simpl BYTES_PER_ELEMENT. intros H.
  rewrite Z.mul_1_r.
  destruct (_ <? 0)%Z; [done|]. destruct (negb _); [done|].
  destruct (_ <? 0)%Z; [done|].
  destruct (Z.ltb_spec (byteLength buffer)
              (IBufferRange.offset r + IBufferRange.length r)); [done|lia].
Qed.

Lemma BYTES_PER_ELEMENT_pos (ctor : TypedArrayCtor) : (0 < BYTES_PER_ELEMENT ctor)%Z.
Proof. by destruct ctor. Qed.

Lemma new_TypedArray_in_bounds (ctor : TypedArrayCtor) (buffer : ArrayBuffer)
    (r : IBufferRange.t) :
  range_in_bounds buffer r = true ->
  range_aligned (BYTES_PER_ELEMENT ctor) r = true ->
  exists view,
    new_TypedArray ctor buffer (IBufferRange.offset r)
      (truncated_quotient (IBufferRange.length r) (BYTES_PER_ELEMENT ctor))
    = Normal view.
Proof.
  unfold range_in_bounds, range_aligned, new_TypedArray, truncated_quotient.
  intros H Hal. apply andb_prop in H as [H H3]. apply andb_prop in H as [H1 H2].
  pose proof (BYTES_PER_ELEMENT_pos ctor) as Hpos.
  rewrite Hal. simpl.
  destruct (Z.ltb_spec (IBufferRange.offset r) 0); [lia|].
  pose proof (Z.quot_pos (IBufferRange.length r) (BYTES_PER_ELEMENT ctor)) as Hq.
  pose proof (Z.mul_quot_le (IBufferRange.length r) (BYTES_PER_ELEMENT ctor)) as Hm.
  destruct (Z.ltb_spec (IBufferRange.length r ÷ BYTES_PER_ELEMENT ctor) 0); [lia|].
  destruct (Z.ltb_spec (byteLength buffer)
              (IBufferRange.offset r
               + IBufferRange.length r ÷ BYTES_PER_ELEMENT ctor * BYTES_PER_ELEMENT ctor));
    [lia|by eexists].
Qed.

Lemma BYTES_PER_ELEMENT_getIndexUnitCtor (indexUnit : Z) :
  BYTES_PER_ELEMENT (getIndexUnitCtor indexUnit) = getIndexUnitStride indexUnit.
Proof.
  unfold getIndexUnitCtor, getIndexUnitStride.
  by repeat destruct (_ =? _)%Z.
Qed.

Lemma element_at_in_range {A : Type} (arr : list A) (i : Z) :
  (0 <= i < Z.of_nat (length arr))%Z -> is_Some (element_at arr i).
Proof.
  intros H. unfold element_at.
  destruct (Z.ltb_spec i 0); [lia|].
  apply lookup_lt_is_Some. lia.
Qed.

(** ** Allocation on a device that never fails *)

Lemma createBuffer_never_fails (info : IGFXBufferInfo.t) (w : World.t) :
  device_never_fails w ->
  createBuffer info w
  = (Normal (length (device_calls w)),
     add_calls [createBuffer_call (length (device_calls w)) info] w).
Proof. intros H. unfold createBuffer. by rewrite H. Qed.

Lemma add_calls_never_fails (evs : list GFXCall) (w : World.t) :
  device_never_fails w -> device_never_fails (add_calls evs w).
Proof. intros H calls info. apply H. Qed.

(** With every bundle in bounds, one vertex buffer per bundle is
    created, in order, and nothing else is allocated or released. *)
Lemma createVertexBuffers_map_valid (data : ArrayBuffer)
    (bundles : list IVertexBundle.t) (w : World.t) :
  forallb (valid_bundle data) bundles = true ->
  device_never_fails w ->
  exists vbs evs,
    Mesh._createVertexBuffers_map data bundles w = (Normal vbs, add_calls evs w)
    /\ created_buffers evs = vbs
    /\ destroyed_buffers evs = []
    /\ length vbs = length bundles.
Proof.
  revert w. induction bundles as [|vb rest IH]; intros w Hv Hdev; simpl in *.
  - exists [], []. by rewrite add_calls_nil.
  - apply andb_prop in Hv as [Hvb Hrest].
    unfold bind at 1. rewrite createBuffer_never_fails by done.
    unfold bind at 1, lift at 1.
    rewrite (new_Uint8Array_in_bounds data _ Hvb).
    unfold bind at 1, GFXBuffer_update at 1.
    rewrite log_call_add_calls, add_calls_app.
    unfold bind at 1.
    match goal with
    | |- context [Mesh._createVertexBuffers_map data rest ?w1] =>
        destruct (IH w1 Hrest) as (vbs & evs & E & Hc & Hd & Hl);
          [by apply add_calls_never_fails|]
    end.
    rewrite E, add_calls_app. unfold ret.
    eexists _, _. split; [done|].
    rewrite created_buffers_app, destroyed_buffers_app, Hc, Hd. simpl.
    by rewrite Hl.
Qed.

(** With a bundle that ends past the buffer, the creation of the vertex
    buffers throws RangeError after at least one allocation. *)
Lemma createVertexBuffers_map_exceeds (data : ArrayBuffer)
    (bundles : list IVertexBundle.t) (w : World.t) :
  (exists bad, bad ∈ bundles /\ range_exceeds data (IVertexBundle.data bad)) ->
  device_never_fails w ->
  exists evs,
    Mesh._createVertexBuffers_map data bundles w = (Throw RangeError, add_calls evs w)
    /\ 1 <= length (created_buffers evs) <= length bundles
    /\ destroyed_buffers evs = [].
Proof.
  revert w. induction bundles as [|vb rest IH]; intros w (bad & Hin & Hbad) Hdev.
  - by apply elem_of_nil in Hin.
  - simpl. unfold bind at 1. rewrite createBuffer_never_fails by done.
    unfold bind at 1, lift at 1.
    destruct (new_TypedArray Uint8Array data _ _) as [view|e] eqn:Eview.
    + unfold bind at 1, GFXBuffer_update at 1.
      rewrite log_call_add_calls, add_calls_app.
      apply elem_of_cons in Hin as [->|Hin].
      { by rewrite (new_Uint8Array_exceeds data _ Hbad) in Eview. }
      unfold bind at 1.
      match goal with
      | |- context [Mesh._createVertexBuffers_map data rest ?w1] =>
          destruct (IH w1) as (evs & E & Hc & Hd);
            [by exists bad|by apply add_calls_never_fails|]
      end.
      rewrite E, add_calls_app.
      eexists. split; [done|].
      rewrite created_buffers_app, destroyed_buffers_app, Hd. simpl. split; [lia|done].
    + apply new_TypedArray_error in Eview as ->.
      eexists. split; [done|]. simpl. split; [lia|done].
Qed.

(** ** Materialising a well-formed struct *)

Lemma read_struct_existing (l : nat) (w : World.t) (s : IMeshStruct.t) :
  World.structs w !! l = Some s -> read_struct l w = (Normal s, w).
Proof. intros H. unfold read_struct. by rewrite H. Qed.

Lemma modify_struct_existing (l : nat) (f : IMeshStruct.t -> IMeshStruct.t)
    (w : World.t) (s : IMeshStruct.t) :
  World.structs w !! l = Some s ->
  modify_struct l f w = (Normal tt, with_struct l (f s) w).
Proof. intros H. unfold modify_struct. by rewrite H. Qed.

Lemma structs_with_struct (l : nat) (X : IMeshStruct.t) (w : World.t) :
  World.structs (with_struct l X w) !! l = Some X.
Proof. unfold with_struct; simpl. apply lookup_insert_eq. Qed.

Lemma with_struct_twice (l : nat) (X Y : IMeshStruct.t) (w : World.t) :
  with_struct l X (with_struct l Y w) = with_struct l X w.
Proof. unfold with_struct; simpl. by rewrite insert_insert_eq. Qed.

Lemma with_struct_same (l : nat) (s : IMeshStruct.t) (w : World.t) :
  World.structs w !! l = Some s -> with_struct l s w = w.
Proof. intros H. unfold with_struct. rewrite insert_id by done. by destruct w. Qed.

Lemma device_extended_with_struct (l : nat) (X : IMeshStruct.t) (w0 w : World.t)
    (evs : list GFXCall) :
  device_extended w0 w evs -> device_extended w0 (with_struct l X w) evs.
Proof. by intros [? ?]. Qed.

Lemma prepare_indices_valid (buffer : ArrayBuffer) (prim : IPrimitive.t) (w : World.t) :
  match IPrimitive.indices prim with
  | None => true
  | Some indices =>
      range_in_bounds buffer (IPrimitiveIndices.range indices)
      && range_aligned (getIndexUnitStride (IPrimitiveIndices.indexUnit indices))
                       (IPrimitiveIndices.range indices)
  end = true ->
  device_never_fails w ->
  exists ib view evs,
    Mesh.prepare_indices buffer prim w = (Normal (ib, view), add_calls evs w)
    /\ created_buffers evs = buffer_list ib
    /\ destroyed_buffers evs = []
    /\ (is_Some ib <-> is_Some (IPrimitive.indices prim)).
Proof.
  intros Hv Hdev. unfold Mesh.prepare_indices.
  destruct (IPrimitive.indices prim) as [indices|].
  - apply andb_prop in Hv as [Hin Hal].
    rewrite <- BYTES_PER_ELEMENT_getIndexUnitCtor in Hal.
    destruct (new_TypedArray_in_bounds _ buffer _ Hin Hal) as [view Hview].
    rewrite BYTES_PER_ELEMENT_getIndexUnitCtor in Hview.
    unfold Mesh.create_indexBuffer, bind.
    rewrite createBuffer_never_fails by done.
    unfold lift. rewrite Hview.
    unfold GFXBuffer_update, ret. rewrite log_call_add_calls, add_calls_app. simpl.
    eexists _, _, _. split; [done|]. repeat split; by eexists.
  - exists None, None, []. rewrite add_calls_nil. repeat split; by intros [? ?].
Qed.

Lemma first_bundle_attributes_valid (this : Mesh.t) (prim : IPrimitive.t)
    (w : World.t) (s : IMeshStruct.t) (idx : Z) :
  World.structs w !! Mesh._struct this = Some s ->
  head (IPrimitive.vertexBundelIndices prim) = Some idx ->
  (0 <= idx < Z.of_nat (length (IMeshStruct.vertexBundles s)))%Z ->
  exists bundle,
    Mesh.first_bundle_attributes this prim w
    = (Normal (IVertexBundle.attributes bundle), w)
    /\ element_at (IMeshStruct.vertexBundles s) idx = Some bundle.
Proof.
  intros Hs Hhead Hidx. unfold Mesh.first_bundle_attributes.
  destruct (IPrimitive.vertexBundelIndices prim) as [|i tl]; [done|].
  simpl in Hhead. assert (i = idx) as -> by congruence.
  destruct (element_at_in_range (IMeshStruct.vertexBundles s) idx Hidx) as [bundle Hb].
  exists bundle. unfold bind. rewrite (read_struct_existing _ _ _ Hs), Hb. done.
Qed.

Lemma attach_geometricInfo_valid (this : Mesh.t) (buffer : ArrayBuffer) (i : nat)
    (prim : IPrimitive.t) (ib : option TypedArray.t) (w : World.t) (s : IMeshStruct.t) :
  World.structs w !! Mesh._struct this = Some s ->
  match IPrimitive.geometricInfo prim with
  | None => true
  | Some g =>
      range_in_bounds buffer (IPrimitiveGeometricInfo.range g)
      && range_aligned 4 (IPrimitiveGeometricInfo.range g)
  end = true ->
  exists g' s',
    Mesh.attach_geometricInfo this buffer i prim ib w
    = (Normal g', with_struct (Mesh._struct this) s' w)
    /\ IMeshStruct.vertexBundles s' = IMeshStruct.vertexBundles s
    /\ (is_Some g' <-> is_Some (IPrimitive.geometricInfo prim)).
Proof.
  intros Hs Hv. unfold Mesh.attach_geometricInfo.
  destruct (IPrimitive.geometricInfo prim) as [g|].
  - apply andb_prop in Hv as [Hin Hal].
    destruct (new_TypedArray_in_bounds Float32Array buffer _ Hin Hal) as [view Hview].
    simpl BYTES_PER_ELEMENT in Hview.
    unfold bind. rewrite (modify_struct_existing _ _ _ _ Hs).
    unfold lift. rewrite Hview.
    rewrite (modify_struct_existing _ _ _ _ (structs_with_struct _ _ _)).
    rewrite with_struct_twice. unfold ret.
    eexists _, _. split; [done|]. split; [done|]. split; by eexists.
  - exists None, s. rewrite (with_struct_same _ _ _ Hs).
    repeat split; by intros [? ?].
Qed.

Lemma valid_primitive_parts (buffer : ArrayBuffer) (n : nat) (prim : IPrimitive.t) :
  valid_primitive buffer n prim = true ->
  names_a_bundle prim = true ->
  exists idx,
    head (IPrimitive.vertexBundelIndices prim) = Some idx
    /\ (0 <= idx < Z.of_nat n)%Z
    /\ match IPrimitive.indices prim with
       | None => true
       | Some indices =>
           range_in_bounds buffer (IPrimitiveIndices.range indices)
           && range_aligned (getIndexUnitStride (IPrimitiveIndices.indexUnit indices))
                            (IPrimitiveIndices.range indices)
       end = true
    /\ match IPrimitive.geometricInfo prim with
       | None => true
       | Some g =>
           range_in_bounds buffer (IPrimitiveGeometricInfo.range g)
           && range_aligned 4 (IPrimitiveGeometricInfo.range g)
       end = true.
Proof.
  unfold valid_primitive, names_a_bundle.
  destruct (IPrimitive.vertexBundelIndices prim) as [|idx tl]; [done|].
  intros Hv _. exists idx.
  apply andb_prop in Hv as [Hv Hgeo]. apply andb_prop in Hv as [Hv Hind].
  apply andb_prop in Hv as [H0 H1].
  apply Z.leb_le in H0. apply Z.ltb_lt in H1. done.
Qed.

(** The body of the loop, on a primitive that is well formed and names a
    bundle. *)
Lemma materialize_primitive_valid (this : Mesh.t) (buffer : ArrayBuffer)
    (vbs : list GFXBuffer) (i : nat) (prim : IPrimitive.t) (w : World.t)
    (s : IMeshStruct.t) :
  World.structs w !! Mesh._struct this = Some s ->
  valid_primitive buffer (length (IMeshStruct.vertexBundles s)) prim = true ->
  names_a_bundle prim = true ->
  device_never_fails w ->
  exists sub w' evs s',
    Mesh.materialize_primitive this buffer vbs i prim w
    = (Normal (IRenderingSubmesh.indexBuffer sub, sub), w')
    /\ device_extended w w' evs
    /\ created_buffers evs = buffer_list (IRenderingSubmesh.indexBuffer sub)
    /\ destroyed_buffers evs = []
    /\ submesh_of vbs (IMeshStruct.vertexBundles s) prim sub
    /\ World.structs w' !! Mesh._struct this = Some s'
    /\ IMeshStruct.vertexBundles s' = IMeshStruct.vertexBundles s.
Proof.
  intros Hs Hv Hn Hdev.
  destruct (valid_primitive_parts _ _ _ Hv Hn) as (idx & Hhead & Hidx & Hind & Hgeo).
  destruct (prepare_indices_valid buffer prim w Hind Hdev)
    as (ib & view & evs & E1 & Hc & Hd & Hib).
  destruct (first_bundle_attributes_valid this prim (add_calls evs w) s idx Hs Hhead Hidx)
    as (bundle & E2 & Hbundle).
  destruct (attach_geometricInfo_valid this buffer i prim view (add_calls evs w) s Hs Hgeo)
    as (g' & s' & E3 & Hbundles & Hg).
  unfold Mesh.materialize_primitive, bind.
  rewrite E1. simpl. rewrite E2, E3. unfold ret.
  eexists (IRenderingSubmesh.mk _ ib _ _ _), _, evs, s'. split; [done|]. simpl.
  split; [by apply device_extended_with_struct, device_extended_add_calls|].
  split; [done|]. split; [done|].
  split; [|split; [apply structs_with_struct|done]].
  unfold submesh_of; simpl. repeat split; try tauto.
  by exists idx, bundle.
Qed.

Lemma push_indexBuffer_app (ibs : list GFXBuffer) (b : option GFXBuffer) :
  Mesh.push_indexBuffer ibs b = ibs ++ buffer_list b.
Proof. destruct b; simpl; [done|by rewrite app_nil_r]. Qed.

(** The loop over primitives, on well-formed primitives. *)
Lemma materialize_primitives_valid (this : Mesh.t) (buffer : ArrayBuffer)
    (vbs : list GFXBuffer) (bundles : list IVertexBundle.t) (prims : list IPrimitive.t) :
  forallb (valid_primitive buffer (length bundles)) prims = true ->
  forall (i : nat) (ibs : list GFXBuffer) (subs : list IRenderingSubmesh.t)
         (w : World.t) (s : IMeshStruct.t),
    World.structs w !! Mesh._struct this = Some s ->
    IMeshStruct.vertexBundles s = bundles ->
    device_never_fails w ->
    exists ibs' subs' w' evs s',
      Mesh.materialize_primitives this buffer vbs prims i ibs subs w
      = (Normal (ibs ++ ibs', subs ++ subs'), w')
      /\ device_extended w w' evs
      /\ created_buffers evs = ibs'
      /\ destroyed_buffers evs = []
      /\ length ibs'
         = length (List.filter (fun p => names_a_bundle p && carries_indices p) prims)
      /\ Forall2 (submesh_of vbs bundles) (List.filter names_a_bundle prims) subs'
      /\ World.structs w' !! Mesh._struct this = Some s'
      /\ IMeshStruct.vertexBundles s' = bundles.
Proof.
  induction prims as [|prim rest IH]; intros Hv i ibs subs w s Hs Hb Hdev.
  - exists [], [], w, [], s. simpl. rewrite !app_nil_r.
    repeat split; try done. apply device_extended_refl.
  - simpl in Hv. apply andb_prop in Hv as [Hprim Hrest].
    simpl.
    destruct (names_a_bundle prim) eqn:Hn; pose proof Hn as Hlen;
      unfold names_a_bundle in Hlen;
      [apply negb_true_iff in Hlen|apply negb_false_iff in Hlen];
      rewrite Hlen; simpl.
    2:{ apply (IH Hrest (S i) ibs subs w s Hs Hb Hdev). }
    rewrite <- Hb in Hprim.
    destruct (materialize_primitive_valid this buffer vbs i prim w s Hs Hprim)
      as (sub & w1 & e1 & s1 & E & Hext & Hc & Hd & Hsub & Hs1 & Hb1);
      [done|done|].
    unfold bind. rewrite E. simpl. rewrite push_indexBuffer_app.
    destruct (IH Hrest (S i) (ibs ++ buffer_list (IRenderingSubmesh.indexBuffer sub))
                (subs ++ [sub]) w1 s1 Hs1)
      as (ibs' & subs' & w' & e2 & s' & E' & Hext' & Hc' & Hd' & Hl' & Hsubs' & Hs' & Hb');
      [congruence|by eapply device_extended_never_fails|].
    rewrite E', <- !app_assoc.
    eexists _, _, w', (e1 ++ e2), s'. split; [done|].
    split; [by eapply device_extended_trans|].
    split; [by rewrite created_buffers_app, Hc, Hc'|].
    split; [by rewrite destroyed_buffers_app, Hd, Hd'|].
    split; [|split; [|done]].
    + rewrite length_app, Hl'.
      destruct Hsub as (_ & _ & Hib & _).
      unfold carries_indices.
      destruct (IRenderingSubmesh.indexBuffer sub) as [b|],
               (IPrimitive.indices prim) as [ind|]; simpl; try done.
      * destruct Hib as [Hib _]. by destruct Hib as [? ?].
      * destruct Hib as [_ Hib]. by destruct Hib as [? ?].
    + rewrite <- Hb. rewrite <- Hb in Hsubs'. by constructor.
Qed.

(** Materialisation of a well-formed struct on a device that never
    fails: the rendering mesh, and what the device was asked. *)
Lemma materialize_valid (this : Mesh.t) (buffer : ArrayBuffer) (w : World.t)
    (s : IMeshStruct.t) :
  World.structs w !! Mesh._struct this = Some s ->
  valid_struct buffer s = true ->
  device_never_fails w ->
  exists rm w' evs,
    materialize this buffer w = (Normal rm, w')
    /\ device_extended w w' evs
    /\ created_buffers evs
       = RenderingMesh._vertexBuffers rm ++ RenderingMesh._indexBuffers rm
    /\ destroyed_buffers evs = []
    /\ length (RenderingMesh._vertexBuffers rm) = length (IMeshStruct.vertexBundles s)
    /\ length (RenderingMesh._indexBuffers rm)
       = length (List.filter (fun p => names_a_bundle p && carries_indices p)
                             (IMeshStruct.primitives s))
    /\ Forall2 (submesh_of (RenderingMesh._vertexBuffers rm) (IMeshStruct.vertexBundles s))
               (List.filter names_a_bundle (IMeshStruct.primitives s))
               (RenderingMesh._subMeshes rm).
Proof.
  intros Hs Hv Hdev. unfold valid_struct in Hv.
  apply andb_prop in Hv as [Hbundles Hprims].
  destruct (createVertexBuffers_map_valid buffer _ w Hbundles Hdev)
    as (vbs & e1 & E1 & Hc1 & Hd1 & Hl1).
  destruct (materialize_primitives_valid this buffer vbs _ _ Hprims 0 [] []
              (add_calls e1 w) s Hs eq_refl (add_calls_never_fails e1 w Hdev))
    as (ibs & subs & w' & e2 & s' & E2 & Hext & Hc2 & Hd2 & Hl2 & Hsubs & _).
  unfold materialize, Mesh._createVertexBuffers, bind.
  rewrite (read_struct_existing _ _ _ Hs), E1.
  rewrite (read_struct_existing _ (add_calls e1 w) _ Hs), E2. unfold ret. simpl.
  eexists _, w', (e1 ++ e2). split; [done|]. simpl.
  split; [eapply device_extended_trans; [apply device_extended_add_calls|done]|].
  split; [by rewrite created_buffers_app, Hc1, Hc2|].
  split; [by rewrite destroyed_buffers_app, Hd1, Hd2|].
  done.
Qed.

(** The getter [renderingMesh] on a pending mesh whose struct is well
    formed, on a device that never fails. *)
Lemma renderingMesh_valid (m : Mesh.t) (w : World.t) (data : TypedArray.t)
    (s : IMeshStruct.t) :
  pending m data ->
  World.structs w !! Mesh._struct m = Some s ->
  valid_struct (TypedArray.buffer data) s = true ->
  device_never_fails w ->
  exists rm w' evs,
    Mesh.renderingMesh (m, w)
    = (Normal (Some rm), (Mesh.mk (Mesh._struct m) (Mesh._data m) true (Some rm), w'))
    /\ device_calls w' = device_calls w ++ evs
    /\ created_buffers evs
       = RenderingMesh._vertexBuffers rm ++ RenderingMesh._indexBuffers rm
    /\ destroyed_buffers evs = []
    /\ length (RenderingMesh._vertexBuffers rm) = length (IMeshStruct.vertexBundles s)
    /\ length (RenderingMesh._indexBuffers rm)
       = length (List.filter (fun p => names_a_bundle p && carries_indices p)
                             (IMeshStruct.primitives s))
    /\ Forall2 (submesh_of (RenderingMesh._vertexBuffers rm) (IMeshStruct.vertexBundles s))
               (List.filter names_a_bundle (IMeshStruct.primitives s))
               (RenderingMesh._subMeshes rm).
Proof.
  intros Hp Hs Hv Hdev.
  destruct (materialize_valid (flagged m) (TypedArray.buffer data) w s Hs Hv Hdev)
    as (rm & w' & evs & E & [_ Hext] & Hrest).
  exists rm, w', evs. split; [|by split].
  unfold Mesh.renderingMesh, bind.
  rewrite (_deferredInit_pending m w data Hp), E. done.
Qed.

(** ** Any materialisation that completes *)

Lemma bind_normal {S A B : Type} (m : M S A) (k : A -> M S B) (s s' : S) (b : B) :
  bind m k s = (Normal b, s') ->
  exists a s1, m s = (Normal a, s1) /\ k a s1 = (Normal b, s').
Proof.
  unfold bind. destruct (m s) as [[a|e] s1]; [|done].
  intros H. by exists a, s1.
Qed.

Lemma createBuffer_normal (info : IGFXBufferInfo.t) (w w' : World.t) (b : GFXBuffer) :
  createBuffer info w = (Normal b, w') ->
  w' = add_calls [createBuffer_call b info] w.
Proof.
  unfold createBuffer. destruct (GFXDevice.accepts _ _ _); [|done].
  intros H. by inversion H.
Qed.

Lemma lift_normal {A : Type} (c : Completion A) (w w' : World.t) (a : A) :
  lift c w = (Normal a, w') -> w' = w.
Proof. unfold lift. intros H. by inversion H. Qed.

Lemma read_struct_normal (l : nat) (w w' : World.t) (s : IMeshStruct.t) :
  read_struct l w = (Normal s, w') -> w' = w /\ World.structs w !! l = Some s.
Proof.
  unfold read_struct. destruct (World.structs w !! l); [|done].
  intros H. by inversion H.
Qed.

Lemma modify_struct_normal (l : nat) (f : IMeshStruct.t -> IMeshStruct.t)
    (w w' : World.t) (u : unit) :
  modify_struct l f w = (Normal u, w') -> device_extended w w' [].
Proof.
  unfold modify_struct. destruct (World.structs w !! l); [|done].
  intros H. inversion H. split; [done|].
  unfold device_calls; simpl. by rewrite app_nil_r.
Qed.

(** When the creation of the vertex buffers completes, it has allocated
    one buffer per bundle and nothing else. *)
Lemma createVertexBuffers_map_normal (data : ArrayBuffer)
    (bundles : list IVertexBundle.t) (w w' : World.t) (vbs : list GFXBuffer) :
  Mesh._createVertexBuffers_map data bundles w = (Normal vbs, w') ->
  exists evs,
    w' = add_calls evs w
    /\ created_buffers evs = vbs
    /\ length vbs = length bundles.
Proof.
  revert w w' vbs. induction bundles as [|vb rest IH]; intros w w' vbs H; simpl in H.
  - inversion H. exists []. by rewrite add_calls_nil.
  - apply bind_normal in H as (b & w1 & H1 & H).
    apply createBuffer_normal in H1 as ->.
    apply bind_normal in H as (view & w2 & H2 & H).
    apply lift_normal in H2 as ->.
    apply bind_normal in H as (u & w3 & H3 & H).
    unfold GFXBuffer_update in H3. inversion H3; subst w3; clear H3.
    apply bind_normal in H as (tl & w4 & H4 & H).
    apply IH in H4 as (evs & -> & Hc & Hl).
    inversion H; subst. rewrite log_call_add_calls, !add_calls_app.
    eexists. split; [done|].
    rewrite !created_buffers_app. simpl. by rewrite Hl.
Qed.

Lemma prepare_indices_normal (buffer : ArrayBuffer) (prim : IPrimitive.t)
    (w w' : World.t) (ib : option GFXBuffer) (view : option TypedArray.t) :
  Mesh.prepare_indices buffer prim w = (Normal (ib, view), w') ->
  exists evs,
    device_extended w w' evs
    /\ created_buffers evs = buffer_list ib
    /\ (is_Some ib <-> is_Some (IPrimitive.indices prim)).
Proof.
  unfold Mesh.prepare_indices.
  destruct (IPrimitive.indices prim) as [indices|].
  - intros H. apply bind_normal in H as ([b v] & w1 & H1 & H).
    inversion H; subst; clear H.
    unfold Mesh.create_indexBuffer in H1.
    apply bind_normal in H1 as (b' & w2 & H2 & H1).
    apply createBuffer_normal in H2 as ->.
    apply bind_normal in H1 as (v' & w3 & H3 & H1).
    apply lift_normal in H3 as ->.
    apply bind_normal in H1 as (u & w4 & H4 & H1).
    unfold GFXBuffer_update in H4. inversion H4; subst w4; clear H4.
    inversion H1; subst. rewrite log_call_add_calls, add_calls_app.
    eexists. split; [apply device_extended_add_calls|].
    split; [done|]. split; by eexists.
  - intros H. inversion H; subst. exists [].
    split; [apply device_extended_refl|]. split; [done|].
    split; by intros [? ?].
Qed.

Lemma first_bundle_attributes_normal (this : Mesh.t) (prim : IPrimitive.t)
    (w w' : World.t) (attributes : list IGFXAttribute.t) :
  Mesh.first_bundle_attributes this prim w = (Normal attributes, w') -> w' = w.
Proof.
  unfold Mesh.first_bundle_attributes.
  destruct (IPrimitive.vertexBundelIndices prim) as [|idx tl].
  - intros H. by inversion H.
  - intros H. apply bind_normal in H as (s & w1 & H1 & H).
    apply read_struct_normal in H1 as [-> _].
    destruct (element_at _ idx); [|done]. by inversion H.
Qed.

Lemma attach_geometricInfo_normal (this : Mesh.t) (buffer : ArrayBuffer) (i : nat)
    (prim : IPrimitive.t) (ib : option TypedArray.t) (w w' : World.t)
    (g : option IPrimitiveGeometricInfo.t) :
  Mesh.attach_geometricInfo this buffer i prim ib w = (Normal g, w') ->
  device_extended w w' [].
Proof.
  unfold Mesh.attach_geometricInfo.
  destruct (IPrimitive.geometricInfo prim) as [g0|].
  - intros H. apply bind_normal in H as (u1 & w1 & H1 & H).
    apply modify_struct_normal in H1.
    apply bind_normal in H as (view & w2 & H2 & H).
    apply lift_normal in H2 as ->.
    apply bind_normal in H as (u2 & w3 & H3 & H).
    apply modify_struct_normal in H3.
    inversion H; subst.
    apply (device_extended_trans _ _ _ [] [] H1 H3).
  - intros H. inversion H; subst. apply device_extended_refl.
Qed.

Lemma materialize_primitive_normal (this : Mesh.t) (buffer : ArrayBuffer)
    (vbs : list GFXBuffer) (i : nat) (prim : IPrimitive.t) (w w' : World.t)
    (ib : option GFXBuffer) (sub : IRenderingSubmesh.t) :
  Mesh.materialize_primitive this buffer vbs i prim w = (Normal (ib, sub), w') ->
  exists evs,
    device_extended w w' evs
    /\ created_buffers evs = buffer_list ib
    /\ (is_Some ib <-> is_Some (IPrimitive.indices prim)).
Proof.
  unfold Mesh.materialize_primitive. intros H.
  apply bind_normal in H as ([ib0 view] & w1 & H1 & H).
  apply prepare_indices_normal in H1 as (evs & Hext & Hc & Hib).
  apply bind_normal in H as (attributes & w2 & H2 & H).
  apply first_bundle_attributes_normal in H2 as ->.
  apply bind_normal in H as (g & w3 & H3 & H).
  apply attach_geometricInfo_normal in H3.
  inversion H; subst. simpl in *. exists evs.
  split; [|done].
  pose proof (device_extended_trans _ _ _ _ _ Hext H3) as Ht.
  by rewrite app_nil_r in Ht.
Qed.

(** When the loop over primitives completes, it has allocated one
    index buffer for each primitive that names a bundle and carries
    indices, and pushed one submesh for each primitive that names a
    bundle. *)
Lemma materialize_primitives_normal (this : Mesh.t) (buffer : ArrayBuffer)
    (vbs : list GFXBuffer) (prims : list IPrimitive.t) :
  forall (i : nat) (ibs ibs' : list GFXBuffer) (subs subs' : list IRenderingSubmesh.t)
         (w w' : World.t),
    Mesh.materialize_primitives this buffer vbs prims i ibs subs w
    = (Normal (ibs', subs'), w') ->
    exists evs,
      device_extended w w' evs
      /\ ibs' = ibs ++ created_buffers evs
      /\ length (created_buffers evs)
         = length (List.filter (fun p => names_a_bundle p && carries_indices p) prims)
      /\ length subs' = length subs + length (List.filter names_a_bundle prims).
Proof.
  induction prims as [|prim rest IH]; intros i ibs ibs' subs subs' w w' H; simpl in H.
  - inversion H; subst. exists []. simpl. rewrite app_nil_r.
    split; [apply device_extended_refl|]. repeat split; lia.
  - simpl.
    destruct (names_a_bundle prim) eqn:Hn; pose proof Hn as Hlen;
      unfold names_a_bundle in Hlen;
      [apply negb_true_iff in Hlen|apply negb_false_iff in Hlen];
      rewrite Hlen in H; simpl.
    2:{ by apply IH in H. }
    apply bind_normal in H as ([ib sub] & w1 & H1 & H).
    apply materialize_primitive_normal in H1 as (e1 & Hext1 & Hc1 & Hib).
    apply IH in H as (e2 & Hext2 & -> & Hl2 & Hs2). simpl.
    exists (e1 ++ e2). split; [by eapply device_extended_trans|].
    rewrite created_buffers_app, Hc1, push_indexBuffer_app, <- app_assoc.
    split; [done|]. rewrite !length_app in *. simpl in *.
    split; [|lia]. rewrite Hl2. unfold carries_indices.
    destruct ib as [b|], (IPrimitive.indices prim) as [ind|]; simpl; try done.
    + destruct Hib as [Hib _]. by destruct Hib as [? ?].
    + destruct Hib as [_ Hib]. by destruct Hib as [? ?].
Qed.

Lemma materialize_normal (this : Mesh.t) (buffer : ArrayBuffer) (w w' : World.t)
    (s : IMeshStruct.t) (rm : RenderingMesh.t) :
  World.structs w !! Mesh._struct this = Some s ->
  materialize this buffer w = (Normal rm, w') ->
  exists evs,
    device_extended w w' evs
    /\ created_buffers evs
       = RenderingMesh._vertexBuffers rm ++ RenderingMesh._indexBuffers rm
    /\ length (RenderingMesh._vertexBuffers rm) = length (IMeshStruct.vertexBundles s)
    /\ length (RenderingMesh._indexBuffers rm)
       = length (List.filter (fun p => names_a_bundle p && carries_indices p)
                             (IMeshStruct.primitives s))
    /\ length (RenderingMesh._subMeshes rm)
       = length (List.filter names_a_bundle (IMeshStruct.primitives s)).
Proof.
  intros Hs H. unfold materialize, Mesh._createVertexBuffers in H.
  apply bind_normal in H as (vbs & w1 & H1 & H).
  apply bind_normal in H1 as (s1 & w0 & H0 & H1).
  apply read_struct_normal in H0 as [-> Hs1].
  assert (s1 = s) as -> by congruence.
  apply createVertexBuffers_map_normal in H1 as (e1 & -> & Hc1 & Hl1).
  apply bind_normal in H as (s2 & w2 & H2 & H).
  apply read_struct_normal in H2 as [-> Hs2].
  assert (s2 = s) as -> by (rewrite structs_add_calls in Hs2; congruence).
  apply bind_normal in H as ([ibs subs] & w3 & H3 & H).
  apply materialize_primitives_normal in H3 as (e2 & Hext & Hibs & Hl2 & Hsubs).
  inversion H; subst; simpl in *.
  exists (e1 ++ e2).
  split; [eapply device_extended_trans; [apply device_extended_add_calls|done]|].
  by rewrite created_buffers_app.
Qed.

(** C1 (amended): for every struct and buffer, a materialisation that
    completes has allocated exactly the vertex buffers followed by the
    index buffers of the rendering mesh and released none; there is one
    vertex buffer per vertex bundle, and one index buffer per primitive
    that both names a vertex bundle and carries indices.  It completes
    for every well-formed struct on a device that never fails. *)
Theorem materialized_buffer_counts (m : Mesh.t) (w : World.t) (data : TypedArray.t)
    (s : IMeshStruct.t) :
  pending m data ->
  World.structs w !! Mesh._struct m = Some s ->
  (forall rm m' w',
     Mesh.renderingMesh (m, w) = (Normal (Some rm), (m', w')) ->
     exists evs,
       device_calls w' = device_calls w ++ evs
       /\ created_buffers evs
          = RenderingMesh._vertexBuffers rm ++ RenderingMesh._indexBuffers rm
       /\ destroyed_buffers evs = []
       /\ length (RenderingMesh._vertexBuffers rm) = length (IMeshStruct.vertexBundles s)
       /\ length (RenderingMesh._indexBuffers rm)
          = length (List.filter (fun p => names_a_bundle p && carries_indices p)
                                (IMeshStruct.primitives s)))
  /\ (valid_struct (TypedArray.buffer data) s = true ->
      device_never_fails w ->
      exists rm st, Mesh.renderingMesh (m, w) = (Normal (Some rm), st)).
Proof.
  intros Hp Hs. split.
  - intros rm m' w' H.
    unfold Mesh.renderingMesh in H.
    apply bind_normal in H as (u & [m1 w1] & H1 & H).
    unfold bind, Mesh.get_this, ret in H; simpl in H.
    inversion H; subst; clear H.
    destruct (_deferredInit_no_release _ _ _ _ _ H1) as (evs0 & [_ He0] & Hd0).
    rewrite (_deferredInit_pending m w data Hp) in H1.
    destruct (materialize (flagged m) (TypedArray.buffer data) w)
      as [[rm0|e] w0] eqn:E; inversion H1; subst; clear H1.
    simpl in *. assert (rm0 = rm) as -> by congruence.
    destruct (materialize_normal (flagged m) _ w w' s rm Hs E)
      as (evs & [_ He] & Hc & Hl1 & Hl2 & _).
    exists evs. repeat split; try done.
    rewrite He in He0. apply app_inv_head in He0. by subst.
  - intros Hv Hdev.
    destruct (renderingMesh_valid m w data s Hp Hs Hv Hdev) as (rm & w' & evs & E & _).
    by eexists rm, _.
Qed.

(** C7: materialising a well-formed struct on a device that never fails
    returns a rendering mesh whose submeshes are, in order, those of the
    primitives that name at least one vertex bundle; a primitive that
    names none is passed over without error. *)
Theorem materialized_submeshes (m : Mesh.t) (w : World.t) (data : TypedArray.t)
    (s : IMeshStruct.t) :
  pending m data ->
  World.structs w !! Mesh._struct m = Some s ->
  valid_struct (TypedArray.buffer data) s = true ->
  device_never_fails w ->
  exists rm m' w',
    Mesh.renderingMesh (m, w) = (Normal (Some rm), (m', w'))
    /\ Mesh._renderingMesh m' = Some rm
    /\ Forall2 (submesh_of (RenderingMesh._vertexBuffers rm) (IMeshStruct.vertexBundles s))
               (List.filter names_a_bundle (IMeshStruct.primitives s))
               (RenderingMesh.subMeshes rm).
Proof.
  intros Hp Hs Hv Hdev.
  destruct (renderingMesh_valid m w data s Hp Hs Hv Hdev)
    as (rm & w' & evs & E & _ & _ & _ & _ & _ & H).
  by eexists rm, _, w'.
Qed.

(** C2 (amended): when a vertex bundle of the struct ends past the end
    of the buffer, on a device that never fails, [renderingMesh] throws
    RangeError; no rendering mesh is stored and the flag stays set; by
    then at least one vertex buffer has been allocated (at most one per
    bundle), and none has been released. *)
Theorem out_of_bounds_bundle_throws (m : Mesh.t) (w : World.t) (data : TypedArray.t)
    (s : IMeshStruct.t) (bad : IVertexBundle.t) :
  pending m data ->
  World.structs w !! Mesh._struct m = Some s ->
  bad ∈ IMeshStruct.vertexBundles s ->
  range_exceeds (TypedArray.buffer data) (IVertexBundle.data bad) ->
  device_never_fails w ->
  exists m' w' evs,
    Mesh.renderingMesh (m, w) = (Throw RangeError, (m', w'))
    /\ Mesh._renderingMesh m' = Mesh._renderingMesh m
    /\ Mesh._initialized m' = true
    /\ World.structs w' = World.structs w
    /\ device_calls w' = device_calls w ++ evs
    /\ 1 <= length (created_buffers evs) <= length (IMeshStruct.vertexBundles s)
    /\ destroyed_buffers evs = [].
Proof.
  intros Hp Hs Hin Hbad Hdev.
  destruct (createVertexBuffers_map_exceeds (TypedArray.buffer data)
              (IMeshStruct.vertexBundles s) w) as (evs & E & Hc & Hd);
    [by exists bad|done|].
  exists (flagged m), (add_calls evs w), evs.
  split; [|done].
  unfold Mesh.renderingMesh, bind.
  rewrite (_deferredInit_pending m w data Hp).
  unfold materialize, Mesh._createVertexBuffers, bind.
  rewrite (read_struct_existing (Mesh._struct (flagged m)) _ _ Hs), E. done.
Qed.

(** ** Assignment and the flag *)

Lemma assign_without_renderingMesh (m : Mesh.t) (w : World.t) (struct : nat)
    (data : TypedArray.t) :
  Mesh._renderingMesh m = None ->
  Mesh.assign struct data (m, w)
  = (Normal tt, (Mesh.mk struct (Some data) (Mesh._initialized m) None, w)).
Proof.
  intros Hrm. destruct m as [l d i r]; simpl in *; subst. done.
Qed.

Lemma assign_with_renderingMesh (m : Mesh.t) (w : World.t) (struct : nat)
    (data : TypedArray.t) (rm : RenderingMesh.t) :
  Mesh._renderingMesh m = Some rm ->
  Mesh.assign struct data (m, w)
  = (Normal tt,
     (Mesh.mk struct (Some data) false None,
      add_calls (map destroy_call (RenderingMesh._vertexBuffers rm)
                 ++ map destroy_call (RenderingMesh._indexBuffers rm)) w)).
Proof.
  intros Hrm. destruct m as [l d i r]; simpl in *; subst.
  unfold Mesh.assign, Mesh._tryDestroyRenderingMesh, bind, Mesh.get_this,
    Mesh.set_this, Mesh.in_world; simpl.
  by rewrite RenderingMesh_destroy_eval.
Qed.

(** A mesh whose flag is set and that holds no rendering mesh keeps its
    flag through [assign], and [renderingMesh] then returns [null]
    without a call to the device. *)
Lemma assign_then_renderingMesh_stale (m : Mesh.t) (w : World.t) (struct : nat)
    (data : TypedArray.t) :
  Mesh._initialized m = true ->
  Mesh._renderingMesh m = None ->
  (let! _ := Mesh.assign struct data in Mesh.renderingMesh) (m, w)
  = (Normal None, (Mesh.mk struct (Some data) true None, w)).
Proof.
  intros Hi Hrm. unfold bind at 1.
  rewrite assign_without_renderingMesh by done. rewrite Hi.
  unfold Mesh.renderingMesh, bind.
  by rewrite _deferredInit_initialized.
Qed.

(** C3 (the code departs from it): a new mesh whose [renderingMesh] is
    read before any data is assigned gets its flag set; [assign] with the
    sample struct and data then leaves the flag set, and the next read of
    [renderingMesh] returns [null] and asks nothing of the device.  The
    same [assign] on the new mesh before any read is followed by a
    materialisation. *)
Theorem assign_after_early_access_never_materializes :
  exists m1 m2,
    Mesh.renderingMesh (fresh_mesh, fresh_world) = (Normal None, (m1, fresh_world))
    /\ Mesh._initialized m1 = true
    /\ Mesh.assign 0 sample_data (m1, fresh_world) = (Normal tt, (m2, fresh_world))
    /\ Mesh._struct m2 = 0 /\ Mesh._data m2 = Some sample_data
    /\ Mesh._initialized m2 = true
    /\ Mesh.renderingMesh (m2, fresh_world) = (Normal None, (m2, fresh_world))
    /\ exists rm st,
         (let! _ := Mesh.assign 0 sample_data in Mesh.renderingMesh)
           (fresh_mesh, fresh_world)
         = (Normal (Some rm), st).
Proof.
  eexists _, _.
  split; [vm_compute; reflexivity|].
  split; [reflexivity|].
  split; [vm_compute; reflexivity|].
  split; [reflexivity|]. split; [reflexivity|]. split; [reflexivity|].
  split; [vm_compute; reflexivity|].
  eexists _, _. vm_compute. reflexivity.
Qed.

(** ** [Math.max] and [Math.min] on numbers that are not NaN *)

Lemma Math_max_Num (x y : Q) :
  exists r, Math_max (Num x) (Num y) = Num r
            /\ (x <= r)%Q /\ (y <= r)%Q /\ (r = x \/ r = y).
Proof.
  unfold Math_max. destruct (x ?= y)%Q eqn:E.
  - exists x. apply Qeq_alt in E. repeat split; auto.
    + apply Qle_refl.
    + rewrite E. apply Qle_refl.
  - exists y. apply Qlt_alt in E. repeat split; auto.
    + by apply Qlt_le_weak.
    + apply Qle_refl.
  - exists x. apply Qgt_alt in E. repeat split; auto.
    + apply Qle_refl.
    + by apply Qlt_le_weak.
Qed.

Lemma Math_min_Num (x y : Q) :
  exists r, Math_min (Num x) (Num y) = Num r
            /\ (r <= x)%Q /\ (r <= y)%Q /\ (r = x \/ r = y).
Proof.
  unfold Math_min. destruct (y ?= x)%Q eqn:E.
  - exists x. apply Qeq_alt in E. repeat split; auto.
    + apply Qle_refl.
    + rewrite E. apply Qle_refl.
  - exists y. apply Qlt_alt in E. repeat split; auto.
    + by apply Qlt_le_weak.
    + apply Qle_refl.
  - exists x. apply Qgt_alt in E. repeat split; auto.
    + apply Qle_refl.
    + by apply Qlt_le_weak.
Qed.

(** ** The properties on the sample worlds *)

(** The specification's merge example: 100 bytes and 10 vertices merged
    with 50 bytes and 5 vertices give 150 bytes and 15 vertices; the
    maxima (1,2,3) and (4,0,5) give (4,2,5). *)
Example merge_example :
  exists w',
    Mesh.merge (pending_mesh 5) (pending_mesh 6) (Some true) sample_world = (Normal true, w')
    /\ (IMeshStruct.vertexBundles <$> World.structs w' !! 5)
       = Some [IVertexBundle.mk (IBufferRange.mk 0 150) 15
                 [IGFXAttribute.mk "a_position" 21]]
    /\ (IMeshStruct.maxPosition <$> World.structs w' !! 5)
       = Some (Some (Vec3.mk (Num 4) (Num 2) (Num 5)))
    /\ World.structs w' !! 6 = Some merge_source_struct.
Proof. eexists. split; [vm_compute; reflexivity|]. by vm_compute. Qed.

Lemma materialized_buffer_counts_witness :
  pending (pending_mesh 0) sample_data
  /\ World.structs sample_world !! Mesh._struct (pending_mesh 0) = Some sample_struct
  /\ (forall rm m' w',
        Mesh.renderingMesh (pending_mesh 0, sample_world) = (Normal (Some rm), (m', w')) ->
        exists evs,
          device_calls w' = device_calls sample_world ++ evs
          /\ created_buffers evs
             = RenderingMesh._vertexBuffers rm ++ RenderingMesh._indexBuffers rm
          /\ destroyed_buffers evs = []
          /\ length (RenderingMesh._vertexBuffers rm)
             = length (IMeshStruct.vertexBundles sample_struct)
          /\ length (RenderingMesh._indexBuffers rm)
             = length (List.filter (fun p => names_a_bundle p && carries_indices p)
                                   (IMeshStruct.primitives sample_struct)))
  /\ (valid_struct (TypedArray.buffer sample_data) sample_struct = true ->
      device_never_fails sample_world ->
      exists rm st,
        Mesh.renderingMesh (pending_mesh 0, sample_world) = (Normal (Some rm), st)).
Proof.
  split; [split; reflexivity|]. split; [reflexivity|].
  apply (materialized_buffer_counts (pending_mesh 0) sample_world sample_data sample_struct).
  - split; reflexivity.
  - reflexivity.
Defined.

(** C1 as stated fails: the sample struct has two primitives that carry
    indices, one of which names no vertex bundle, and its rendering mesh
    has one index buffer. *)
Lemma index_buffer_count_counterexample :
  exists rm st,
    Mesh.renderingMesh (pending_mesh 0, sample_world) = (Normal (Some rm), st)
    /\ length (List.filter carries_indices (IMeshStruct.primitives sample_struct)) = 2
    /\ length (RenderingMesh._indexBuffers rm) = 1
    /\ length (RenderingMesh._indexBuffers rm)
       <> length (List.filter carries_indices (IMeshStruct.primitives sample_struct)).
Proof.
  eexists _, _. split; [vm_compute; reflexivity|].
  split; [reflexivity|]. split; [reflexivity|]. simpl. lia.
Qed.

Lemma out_of_bounds_bundle_throws_witness :
  pending (pending_mesh 1) sample_data
  /\ World.structs sample_world !! Mesh._struct (pending_mesh 1) = Some oversized_struct
  /\ IVertexBundle.mk (IBufferRange.mk 0 32) 2 [] ∈ IMeshStruct.vertexBundles oversized_struct
  /\ range_exceeds (TypedArray.buffer sample_data) (IBufferRange.mk 0 32)
  /\ device_never_fails sample_world
  /\ exists m' w' evs,
       Mesh.renderingMesh (pending_mesh 1, sample_world) = (Throw RangeError, (m', w'))
       /\ Mesh._renderingMesh m' = Mesh._renderingMesh (pending_mesh 1)
       /\ Mesh._initialized m' = true
       /\ World.structs w' = World.structs sample_world
       /\ device_calls w' = device_calls sample_world ++ evs
       /\ 1 <= length (created_buffers evs)
          <= length (IMeshStruct.vertexBundles oversized_struct)
       /\ destroyed_buffers evs = [].
Proof.
  split; [split; reflexivity|]. split; [reflexivity|].
  split; [apply list_elem_of_here|]. split; [reflexivity|].
  split; [intros calls info; reflexivity|].
  apply (out_of_bounds_bundle_throws (pending_mesh 1) sample_world sample_data
           oversized_struct (IVertexBundle.mk (IBufferRange.mk 0 32) 2 [])).
  - split; reflexivity.
  - reflexivity.
  - apply list_elem_of_here.
  - reflexivity.
  - intros calls info; reflexivity.
Defined.

(** C2 as stated fails: with a bundle of 32 bytes over a buffer of 16,
    the error is raised after a buffer was allocated; and a bundle in
    bounds with a zero [verticesCount] and 12 bytes raises no error. *)
Lemma layout_error_counterexample :
  (exists m' w',
     Mesh.renderingMesh (pending_mesh 1, sample_world) = (Throw RangeError, (m', w'))
     /\ created_buffers (device_calls sample_world) = []
     /\ created_buffers (device_calls w') = [0])
  /\ (exists rm st,
        Mesh.renderingMesh (pending_mesh 2, sample_world) = (Normal (Some rm), st)).
Proof.
  split.
  - eexists _, _. split; [vm_compute; reflexivity|]. split; reflexivity.
  - eexists _, _. vm_compute; reflexivity.
Qed.

Lemma bind_unfold {S A B : Type} (m : M S A) (k : A -> M S B) (s : S) :
  bind m k s = match m s with
               | (Normal a, s') => k a s'
               | (Throw e, s') => (Throw e, s')
               end.
Proof. reflexivity. Qed.

Lemma materialize_primitives_app (this : Mesh.t) (buffer : ArrayBuffer)
    (vbs : list GFXBuffer) (pre rest : list IPrimitive.t) :
  forall (i : nat) (ibs : list GFXBuffer) (subs : list IRenderingSubmesh.t) (w : World.t),
    Mesh.materialize_primitives this buffer vbs (pre ++ rest) i ibs subs w
    = match Mesh.materialize_primitives this buffer vbs pre i ibs subs w with
      | (Normal made, w1) =>
          Mesh.materialize_primitives this buffer vbs rest (i + length pre)
            (fst made) (snd made) w1
      | (Throw e, w1) => (Throw e, w1)
      end.
Proof.
  induction pre as [|prim pre IH]; intros i ibs subs w; simpl.
  - by rewrite Nat.add_0_r.
  - replace (i + S (length pre)) with (S i + length pre) by lia.
    destruct (length (IPrimitive.vertexBundelIndices prim) =? 0)%nat; [apply IH|].
    unfold bind.
    destruct (Mesh.materialize_primitive this buffer vbs i prim w) as [[made|e] w1];
      [apply IH|done].
Qed.

Lemma createVertexBuffers_map_app (data : ArrayBuffer) (pre rest : list IVertexBundle.t) :
  forall w : World.t,
    Mesh._createVertexBuffers_map data (pre ++ rest) w
    = match Mesh._createVertexBuffers_map data pre w with
      | (Normal vbs, w1) =>
          match Mesh._createVertexBuffers_map data rest w1 with
          | (Normal vbs', w2) => (Normal (vbs ++ vbs'), w2)
          | (Throw e, w2) => (Throw e, w2)
          end
      | (Throw e, w1) => (Throw e, w1)
      end.
Proof.
  induction pre as [|vb pre IH]; intros w; simpl.
  - unfold ret. by destruct (Mesh._createVertexBuffers_map data rest w) as [[vbs'|e] w2].
  - rewrite !bind_unfold.
    destruct (createBuffer _ w) as [[b|e] w1]; [|done].
    rewrite !bind_unfold.
    destruct (lift _ w1) as [[view|e] w1']; [|done].
    rewrite !bind_unfold.
    destruct (GFXBuffer_update b view w1') as [[[]|e] w1'']; [|done].
    rewrite !bind_unfold, IH.
    destruct (Mesh._createVertexBuffers_map data pre w1'') as [[vbs|e] w2]; [|done].
    unfold ret.
    by destruct (Mesh._createVertexBuffers_map data rest w2) as [[vbs'|e] w3].
Qed.

Lemma createBuffer_refused (info : IGFXBufferInfo.t) (w : World.t) :
  refuses w info -> createBuffer info w = (Throw DeviceError, w).
Proof. intros H. unfold refuses in H. unfold createBuffer. by rewrite H. Qed.

(** A refused allocation stops the materialisation with the device's
    error, in the world the pass has reached, with the buffers allocated
    so far on the device's log. *)
Lemma materialize_refused (this : Mesh.t) (buffer : ArrayBuffer) (s : IMeshStruct.t)
    (w w' : World.t) (created : list GFXBuffer) :
  World.structs w !! Mesh._struct this = Some s ->
  allocation_refused this buffer s w created w' ->
  materialize this buffer w = (Throw DeviceError, w')
  /\ exists evs, device_calls w' = device_calls w ++ evs /\ created_buffers evs = created.
Proof.
  intros Hs H. unfold materialize, Mesh._createVertexBuffers.
  rewrite !bind_unfold, (read_struct_existing _ _ _ Hs).
  destruct H as [pre rest vb vbs w1 Hb Hpre Href
                |pre rest prim indices vbs w1 [ibs subs] w2 Hp Hvbs Hpre Hn Hi Href].
  - destruct (createVertexBuffers_map_normal _ _ _ _ _ Hpre) as (evs & -> & Hc & _).
    split; [|by exists evs].
    pose proof (createBuffer_refused _ _ Href) as Hr. unfold vertexBuffer_info in Hr.
    rewrite Hb, createVertexBuffers_map_app, Hpre. simpl.
    rewrite bind_unfold. by rewrite Hr.
  - destruct (createVertexBuffers_map_normal _ _ _ _ _ Hvbs) as (e1 & -> & Hc1 & _).
    destruct (materialize_primitives_normal _ _ _ _ _ _ _ _ _ _ _ Hpre)
      as (e2 & [_ Hcalls] & Hibs & _).
    split.
    2:{ exists (e1 ++ e2). split.
        - rewrite Hcalls. change (device_calls (add_calls e1 w)) with (device_calls w ++ e1).
          by rewrite app_assoc.
        - rewrite created_buffers_app, Hc1. simpl. by rewrite Hibs. }
    rewrite Hvbs, bind_unfold.
    rewrite (read_struct_existing _ (add_calls e1 w) _ Hs).
    rewrite bind_unfold, Hp, materialize_primitives_app, Hpre. simpl.
    unfold names_a_bundle in Hn. apply negb_true_iff in Hn. rewrite Hn.
    unfold Mesh.materialize_primitive, Mesh.prepare_indices. rewrite Hi.
    pose proof (createBuffer_refused _ _ Href) as Hr. unfold indexBuffer_info in Hr.
    unfold Mesh.create_indexBuffer. rewrite !bind_unfold. by rewrite Hr.
Qed.

(** Conversely, the device's error comes out of a materialisation only
    where the device has refused an allocation. *)

Lemma never_DeviceError_ret {A : Type} (x : A) : never_DeviceError (ret x).
Proof. by intros w e w' H. Qed.

Lemma never_DeviceError_throw {A : Type} (e : JSError) :
  e <> DeviceError -> never_DeviceError (@throw World.t A e).
Proof. intros He w e' w' H. unfold throw in H. congruence. Qed.

Lemma never_DeviceError_new_TypedArray (ctor : TypedArrayCtor) (buffer : ArrayBuffer)
    (off len : Z) :
  never_DeviceError (lift (new_TypedArray ctor buffer off len)).
Proof.
  intros w e w' H. unfold lift in H. inversion H as [[Hc Hw]].
  by rewrite (new_TypedArray_error _ _ _ _ _ Hc).
Qed.

Lemma never_DeviceError_update (b : GFXBuffer) (data : TypedArray.t) :
  never_DeviceError (GFXBuffer_update b data).
Proof. by intros w e w' H. Qed.

Lemma never_DeviceError_read_struct (l : nat) : never_DeviceError (read_struct l).
Proof.
  intros w e w' H. unfold read_struct in H.
  destruct (World.structs w !! l); [done|]. congruence.
Qed.

Lemma never_DeviceError_modify_struct (l : nat) (f : IMeshStruct.t -> IMeshStruct.t) :
  never_DeviceError (modify_struct l f).
Proof.
  intros w e w' H. unfold modify_struct in H.
  destruct (World.structs w !! l); [done|]. congruence.
Qed.

Lemma never_DeviceError_bind {A B : Type} (m : M World.t A) (k : A -> M World.t B) :
  never_DeviceError m -> (forall x, never_DeviceError (k x)) -> never_DeviceError (bind m k).
Proof.
  intros Hm Hk w e w' H. rewrite bind_unfold in H.
  destruct (m w) as [[x|e0] w1] eqn:E.
  - by apply (Hk x w1 e w').
  - inversion H; subst. by apply (Hm w e w').
Qed.

Create HintDb never_DeviceError.
#[local] Hint Resolve never_DeviceError_ret never_DeviceError_new_TypedArray
  never_DeviceError_update never_DeviceError_read_struct never_DeviceError_modify_struct
  : never_DeviceError.

Ltac never_DeviceError_step :=
  match goal with
  | |- never_DeviceError (bind _ _) => apply never_DeviceError_bind; [|intros ?]
  | |- never_DeviceError (throw TypeError) => by apply never_DeviceError_throw
  | |- never_DeviceError (match ?x with _ => _ end) => destruct x
  | |- never_DeviceError _ => solve [auto with never_DeviceError]
  end.

Lemma never_DeviceError_first_bundle_attributes (this : Mesh.t) (prim : IPrimitive.t) :
  never_DeviceError (Mesh.first_bundle_attributes this prim).
Proof. unfold Mesh.first_bundle_attributes. repeat never_DeviceError_step. Qed.

Lemma never_DeviceError_attach_geometricInfo (this : Mesh.t) (buffer : ArrayBuffer)
    (i : nat) (prim : IPrimitive.t) (ib : option TypedArray.t) :
  never_DeviceError (Mesh.attach_geometricInfo this buffer i prim ib).
Proof. unfold Mesh.attach_geometricInfo. repeat never_DeviceError_step. Qed.

Lemma createBuffer_DeviceError (info : IGFXBufferInfo.t) (w w' : World.t) (e : JSError) :
  createBuffer info w = (Throw e, w') -> e = DeviceError /\ w' = w /\ refuses w info.
Proof.
  unfold createBuffer, refuses.
  destruct (GFXDevice.accepts _ _ _); [done|]. intros H. by inversion H.
Qed.

Lemma createVertexBuffers_map_DeviceError (data : ArrayBuffer)
    (bundles : list IVertexBundle.t) :
  forall w w' : World.t,
    Mesh._createVertexBuffers_map data bundles w = (Throw DeviceError, w') ->
    exists pre vb rest vbs,
      bundles = pre ++ vb :: rest
      /\ Mesh._createVertexBuffers_map data pre w = (Normal vbs, w')
      /\ refuses w' (vertexBuffer_info vb).
Proof.
  induction bundles as [|vb bundles IH]; intros w w' H; [done|].
  simpl in H. rewrite bind_unfold in H.
  destruct (createBuffer _ w) as [[b|e] w1] eqn:E1.
  2:{ destruct (createBuffer_DeviceError _ _ _ _ E1) as (_ & -> & Href).
      inversion H; subst. by exists [], vb, bundles, []. }
  rewrite bind_unfold in H.
  destruct (lift _ w1) as [[view|e] w2] eqn:E2.
  2:{ inversion H; subst. by destruct (never_DeviceError_new_TypedArray _ _ _ _ _ _ _ E2). }
  rewrite bind_unfold in H.
  destruct (GFXBuffer_update b view w2) as [[[]|e] w3] eqn:E3; [|done].
  rewrite bind_unfold in H.
  destruct (Mesh._createVertexBuffers_map data bundles w3) as [[vbs|e] w4] eqn:E4; [done|].
  inversion H; subst.
  destruct (IH w3 w' E4) as (pre & vb' & rest & vbs & -> & Hpre & Href).
  exists (vb :: pre), vb', rest, (b :: vbs). split; [done|]. split; [|done].
  simpl. by rewrite bind_unfold, E1, bind_unfold, E2, bind_unfold, E3, bind_unfold, Hpre.
Qed.

Lemma materialize_primitive_DeviceError (this : Mesh.t) (buffer : ArrayBuffer)
    (vbs : list GFXBuffer) (i : nat) (prim : IPrimitive.t) (w w' : World.t) :
  Mesh.materialize_primitive this buffer vbs i prim w = (Throw DeviceError, w') ->
  w' = w
  /\ exists indices,
       IPrimitive.indices prim = Some indices /\ refuses w (indexBuffer_info indices).
Proof.
  unfold Mesh.materialize_primitive. rewrite bind_unfold.
  destruct (Mesh.prepare_indices buffer prim w) as [[index|e] w1] eqn:E; intros H.
  - exfalso. revert H.
    match goal with
    | |- ?k w1 = _ -> _ =>
        assert (never_DeviceError k) as Hk by repeat
          (first [apply never_DeviceError_first_bundle_attributes
                 |apply never_DeviceError_attach_geometricInfo
                 |never_DeviceError_step]);
        intros H; by apply (Hk _ _ _ H)
    end.
  - inversion H; subst. clear H.
    unfold Mesh.prepare_indices in E.
    destruct (IPrimitive.indices prim) as [indices|]; [|done].
    rewrite bind_unfold in E. unfold Mesh.create_indexBuffer in E.
    rewrite bind_unfold in E.
    destruct (createBuffer _ w) as [[b|e] w1] eqn:E1.
    + exfalso. rewrite bind_unfold in E.
      destruct (lift _ w1) as [[view|e] w2] eqn:E2.
      * by unfold bind, GFXBuffer_update, ret in E.
      * inversion E; subst.
        by destruct (never_DeviceError_new_TypedArray _ _ _ _ _ _ _ E2).
    + destruct (createBuffer_DeviceError _ _ _ _ E1) as (_ & -> & Href).
      inversion E; subst. split; [done|]. by exists indices.
Qed.

Lemma materialize_primitives_DeviceError (this : Mesh.t) (buffer : ArrayBuffer)
    (vbs : list GFXBuffer) (prims : list IPrimitive.t) :
  forall (i : nat) (ibs : list GFXBuffer) (subs : list IRenderingSubmesh.t)
         (w w' : World.t),
    Mesh.materialize_primitives this buffer vbs prims i ibs subs w
    = (Throw DeviceError, w') ->
    exists pre prim rest indices made,
      prims = pre ++ prim :: rest
      /\ Mesh.materialize_primitives this buffer vbs pre i ibs subs w = (Normal made, w')
      /\ names_a_bundle prim = true
      /\ IPrimitive.indices prim = Some indices
      /\ refuses w' (indexBuffer_info indices).
Proof.
  induction prims as [|prim prims IH]; intros i ibs subs w w' H; [done|].
  simpl in H.
  destruct (length (IPrimitive.vertexBundelIndices prim) =? 0)%nat eqn:Hlen.
  - destruct (IH _ _ _ _ _ H) as (pre & p & rest & indices & made & -> & Hpre & Hrest).
    exists (prim :: pre), p, rest, indices, made. split; [done|]. split; [|done].
    simpl. by rewrite Hlen.
  - rewrite bind_unfold in H.
    destruct (Mesh.materialize_primitive this buffer vbs i prim w) as [[made1|e] w1] eqn:E.
    + destruct (IH _ _ _ _ _ H) as (pre & p & rest & indices & made & -> & Hpre & Hrest).
      exists (prim :: pre), p, rest, indices, made. split; [done|]. split; [|done].
      simpl. by rewrite Hlen, bind_unfold, E.
    + inversion H; subst.
      destruct (materialize_primitive_DeviceError _ _ _ _ _ _ _ E)
        as (Hw & indices & Hi & Href). subst.
      exists [], prim, prims, indices, (ibs, subs). split; [done|]. split; [done|].
      split; [|done]. unfold names_a_bundle. by rewrite Hlen.
Qed.

(** The device's error comes out of the read of [renderingMesh] of a
    pending mesh only where the device has refused an allocation. *)
Lemma DeviceError_allocation_refused (m m' : Mesh.t) (w w' : World.t)
    (data : TypedArray.t) (s : IMeshStruct.t) :
  pending m data ->
  World.structs w !! Mesh._struct m = Some s ->
  Mesh.renderingMesh (m, w) = (Throw DeviceError, (m', w')) ->
  exists created,
    allocation_refused (flagged m) (TypedArray.buffer data) s w created w'.
Proof.
  intros Hp Hs H. unfold Mesh.renderingMesh in H.
  rewrite bind_unfold, (_deferredInit_pending m w data Hp) in H.
  destruct (materialize (flagged m) (TypedArray.buffer data) w) as [[rm|e] w1] eqn:E;
    [done|].
  inversion H; subst. clear H.
  unfold materialize, Mesh._createVertexBuffers in E.
  change (Mesh._struct (flagged m)) with (Mesh._struct m) in E.
  rewrite !bind_unfold, (read_struct_existing _ _ _ Hs) in E.
  destruct (Mesh._createVertexBuffers_map _ _ w) as [[vbs|e] w1] eqn:E1.
  2:{ inversion E; subst.
      destruct (createVertexBuffers_map_DeviceError _ _ _ _ E1)
        as (pre & vb & rest & vbs & Hb & Hpre & Href).
      exists vbs. by eapply refused_vertexBuffer. }
  destruct (createVertexBuffers_map_normal _ _ _ _ _ E1) as (e1 & -> & _).
  rewrite bind_unfold, (read_struct_existing _ (add_calls e1 w) _ Hs) in E.
  rewrite bind_unfold in E.
  destruct (Mesh.materialize_primitives _ _ _ _ _ _ _ _) as [[made|e] w2] eqn:E2; [done|].
  inversion E; subst.
  destruct (materialize_primitives_DeviceError _ _ _ _ _ _ _ _ _ E2)
    as (pre & prim & rest & indices & made & Hprims & Hpre & Hn & Hi & Href).
  exists (vbs ++ fst made). by eapply refused_indexBuffer.
Qed.

(** C4 (amended): when the device refuses a buffer allocation during the
    materialisation of a pending mesh, the read of [renderingMesh]
    throws the device's error to its caller; no rendering mesh is
    stored, the flag stays set, and the pass has only added calls to the
    device's log, none of which is a [destroy]: the buffers it had
    created by then are not released. *)
Theorem allocation_failure_propagates (m : Mesh.t) (w w' : World.t) (data : TypedArray.t)
    (s : IMeshStruct.t) (created : list GFXBuffer) :
  pending m data ->
  World.structs w !! Mesh._struct m = Some s ->
  allocation_refused (flagged m) (TypedArray.buffer data) s w created w' ->
  exists m',
    Mesh.renderingMesh (m, w) = (Throw DeviceError, (m', w'))
    /\ Mesh._renderingMesh m' = Mesh._renderingMesh m
    /\ Mesh._initialized m' = true
    /\ exists evs,
         device_calls w' = device_calls w ++ evs
         /\ created_buffers evs = created
         /\ destroyed_buffers evs = [].
Proof.
  intros Hp Hs H.
  destruct (materialize_refused (flagged m) _ s w w' created Hs H)
    as (E & evs & Hcalls & Hcreated).
  assert (Mesh._deferredInit (m, w) = (Throw DeviceError, (flagged m, w'))) as Hd.
  { by rewrite (_deferredInit_pending m w data Hp), E. }
  exists (flagged m). split.
  { unfold Mesh.renderingMesh. by rewrite bind_unfold, Hd. }
  split; [done|]. split; [done|].
  exists evs. split; [done|]. split; [done|].
  destruct (_deferredInit_no_release _ _ _ _ _ Hd) as (evs' & [_ Hcalls'] & Hdes).
  rewrite Hcalls in Hcalls'. by apply app_inv_head in Hcalls' as ->.
Qed.

Lemma allocation_failure_propagates_witness :
  pending (pending_mesh 3) sample_data
  /\ World.structs failing_world !! Mesh._struct (pending_mesh 3) = Some two_bundle_struct
  /\ allocation_refused (flagged (pending_mesh 3)) (TypedArray.buffer sample_data)
       two_bundle_struct failing_world [0] (snd (snd failed_pass))
  /\ exists m',
       Mesh.renderingMesh (pending_mesh 3, failing_world)
       = (Throw DeviceError, (m', snd (snd failed_pass)))
       /\ Mesh._renderingMesh m' = Mesh._renderingMesh (pending_mesh 3)
       /\ Mesh._initialized m' = true
       /\ exists evs,
            device_calls (snd (snd failed_pass)) = device_calls failing_world ++ evs
            /\ created_buffers evs = [0]
            /\ destroyed_buffers evs = [].
Proof.
  assert (allocation_refused (flagged (pending_mesh 3)) (TypedArray.buffer sample_data)
            two_bundle_struct failing_world [0] (snd (snd failed_pass))) as Hrefused.
  { apply (refused_vertexBuffer _ _ _ _
             [IVertexBundle.mk (IBufferRange.mk 0 8) 2 []] []
             (IVertexBundle.mk (IBufferRange.mk 8 8) 2 [])).
    - reflexivity.
    - vm_compute; reflexivity.
    - vm_compute; reflexivity. }
  split; [split; reflexivity|]. split; [reflexivity|]. split; [exact Hrefused|].
  apply (allocation_failure_propagates (pending_mesh 3) failing_world
           (snd (snd failed_pass)) sample_data two_bundle_struct [0]).
  - split; reflexivity.
  - reflexivity.
  - exact Hrefused.
Defined.

(** The same on the sample struct: the vertex buffer is created, the
    primitive without bundle is skipped, and the device refuses the
    index buffer of the next primitive. *)
Example index_allocation_refused :
  allocation_refused (flagged (pending_mesh 0)) (TypedArray.buffer sample_data)
    sample_struct failing_world [0]
    (snd (snd (Mesh.renderingMesh (pending_mesh 0, failing_world))))
  /\ fst (Mesh.renderingMesh (pending_mesh 0, failing_world)) = Throw DeviceError.
Proof.
  split; [|vm_compute; reflexivity].
  apply (refused_indexBuffer _ _ _ _ [unbound_primitive] [] indexed_primitive sample_indices
           [0] (add_calls [createBuffer_call 0 (vertexBuffer_info sample_bundle);
                           update_call 0 (TypedArray.mk Uint8Array sample_buffer 0 12)]
                  failing_world)
           ([], [])).
  - reflexivity.
  - vm_compute; reflexivity.
  - vm_compute; reflexivity.
  - reflexivity.
  - reflexivity.
  - vm_compute; reflexivity.
Qed.

(** C4 as stated fails: on the failing device the second allocation
    raises, and the buffer of the first bundle, allocated in the same
    pass, is not released. *)
Lemma allocation_failure_leak_counterexample :
  exists m' w',
    Mesh.renderingMesh (pending_mesh 3, failing_world) = (Throw DeviceError, (m', w'))
    /\ created_buffers (device_calls w') = [0]
    /\ destroyed_buffers (device_calls w') = [].
Proof.
  eexists _, _. split; [vm_compute; reflexivity|]. split; reflexivity.
Qed.

Lemma merge_rejected_changes_nothing_witness :
  fst (Mesh.validateMergingMesh (pending_mesh 3) (pending_mesh 4) sample_world)
  = Normal false
  /\ Mesh.merge (pending_mesh 3) (pending_mesh 4) (Some true) sample_world
     = (Normal false, sample_world).
Proof.
  split; [reflexivity|].
  apply (merge_rejected_changes_nothing (pending_mesh 3) (pending_mesh 4) sample_world).
  reflexivity.
Defined.

Lemma merge_compatible_witness :
  World.structs sample_world !! Mesh._struct (pending_mesh 5) = Some merge_target_struct
  /\ World.structs sample_world !! Mesh._struct (pending_mesh 6) = Some merge_source_struct
  /\ Mesh.validateMergingMesh_structs merge_target_struct merge_source_struct = true
  /\ Mesh.merge (pending_mesh 5) (pending_mesh 6) (Some true) sample_world
     = (Normal true,
        with_struct (Mesh._struct (pending_mesh 5))
          (merged_struct merge_target_struct merge_source_struct) sample_world)
  /\ length (IMeshStruct.vertexBundles
               (merged_struct merge_target_struct merge_source_struct))
     = length (IMeshStruct.vertexBundles merge_target_struct)
  /\ length (IMeshStruct.primitives
               (merged_struct merge_target_struct merge_source_struct))
     = length (IMeshStruct.primitives merge_target_struct).
Proof.
  split; [reflexivity|]. split; [reflexivity|]. split; [reflexivity|].
  apply (merge_compatible (pending_mesh 5) (pending_mesh 6) (Some true) sample_world
           merge_target_struct merge_source_struct); reflexivity.
Defined.

Lemma materialized_submeshes_witness :
  pending (pending_mesh 0) sample_data
  /\ World.structs sample_world !! Mesh._struct (pending_mesh 0) = Some sample_struct
  /\ valid_struct (TypedArray.buffer sample_data) sample_struct = true
  /\ device_never_fails sample_world
  /\ exists rm m' w',
       Mesh.renderingMesh (pending_mesh 0, sample_world) = (Normal (Some rm), (m', w'))
       /\ Mesh._renderingMesh m' = Some rm
       /\ Forall2 (submesh_of (RenderingMesh._vertexBuffers rm)
                              (IMeshStruct.vertexBundles sample_struct))
                  (List.filter names_a_bundle (IMeshStruct.primitives sample_struct))
                  (RenderingMesh.subMeshes rm).
Proof.
  split; [split; reflexivity|]. split; [reflexivity|]. split; [reflexivity|].
  split; [intros calls info; reflexivity|].
  apply (materialized_submeshes (pending_mesh 0) sample_world sample_data sample_struct).
  - split; reflexivity.
  - reflexivity.
  - reflexivity.
  - intros calls info; reflexivity.
Defined.

Lemma validateMergingMesh_reflexive_witness :
  World.structs sample_world !! Mesh._struct (pending_mesh 0) = Some sample_struct
  /\ Mesh.validateMergingMesh (pending_mesh 0) (pending_mesh 0) sample_world
     = (Normal true, sample_world).
Proof.
  split; [reflexivity|].
  apply (validateMergingMesh_reflexive (pending_mesh 0) sample_world sample_struct).
  reflexivity.
Defined.

(** * Further properties *)

(** ** What validation accepts *)

Lemma each_pair_Forall2 {A : Type} (same : A -> A -> bool) (l k : list A) :
  (length l = length k /\ Mesh.each_pair same l k = true)
  <-> Forall2 (fun x y => same x y = true) l k.
Proof.
  split.
  - intros [Hlen H]. apply Forall2_same_length_lookup. split; [done|].
    intros i x y Hx Hy. by apply (proj1 (each_pair_lookup same l k Hlen) H i).
  - intros H. pose proof (Forall2_length _ _ _ H) as Hlen. split; [done|].
    apply each_pair_lookup; [done|]. intros i x y Hx Hy.
    by apply (Forall2_lookup_lr _ _ _ _ _ _ H Hx Hy).
Qed.

Lemma validate_bundle_spec (a d : IVertexBundle.t) :
  Mesh.validate_bundle a d = true <-> same_attribute_formats a d.
Proof.
  unfold Mesh.validate_bundle, same_attribute_formats.
  destruct (Nat.eqb_spec (length (IVertexBundle.attributes a))
                         (length (IVertexBundle.attributes d))) as [Hlen|Hlen]; simpl.
  - rewrite (each_pair_lookup _ _ _ Hlen). split.
    + intros H. apply list_eq_same_length with (length (IVertexBundle.attributes a));
        rewrite ?length_map; try done.
      intros i x y _. rewrite !list_lookup_fmap.
      destruct (IVertexBundle.attributes a !! i) as [xa|] eqn:Ea; [|done].
      destruct (IVertexBundle.attributes d !! i) as [xd|] eqn:Ed; [|done].
      simpl. intros [= <-] [= <-]. by apply Z.eqb_eq, (H i).
    + intros H i x y Hx Hy. apply Z.eqb_eq.
      assert (map IGFXAttribute.format (IVertexBundle.attributes a) !! i
              = map IGFXAttribute.format (IVertexBundle.attributes d) !! i) as E
        by (by rewrite H).
      rewrite !list_lookup_fmap, Hx, Hy in E. by inversion E.
  - split; [done|]. intros H. destruct Hlen.
    apply (f_equal length) in H. by rewrite !length_map in H.
Qed.

Lemma each_pair_eqb_spec (l k : list Z) :
  (length l = length k /\ Mesh.each_pair Z.eqb l k = true) <-> l = k.
Proof.
  rewrite each_pair_Forall2, list_eq_Forall2.
  split; intros H; (eapply Forall2_impl; [exact H|]); intros x y; apply Z.eqb_eq.
Qed.

Lemma validate_primitive_spec (p q : IPrimitive.t) :
  Mesh.validate_primitive p q = true <-> same_primitive_layout p q.
Proof.
  unfold Mesh.validate_primitive, same_primitive_layout.
  pose proof (each_pair_eqb_spec (IPrimitive.vertexBundelIndices p)
                                 (IPrimitive.vertexBundelIndices q)) as Hvbi.
  destruct (Nat.eqb_spec (length (IPrimitive.vertexBundelIndices p))
                         (length (IPrimitive.vertexBundelIndices q))) as [Hlen|Hlen]; simpl.
  2:{ split; [done|]. intros [H _]. destruct Hlen. by rewrite H. }
  destruct (Mesh.each_pair Z.eqb _ _) eqn:Hpairs; simpl.
  2:{ split; [done|]. intros [H _]. apply Hvbi in H as [_ H]. done. }
  destruct (Z.eqb_spec (IPrimitive.primitiveMode p) (IPrimitive.primitiveMode q))
    as [Hmode|Hmode]; simpl.
  2:{ split; [done|]. by intros (_ & H & _). }
  assert (IPrimitive.vertexBundelIndices p = IPrimitive.vertexBundelIndices q) as Heq
    by (by apply Hvbi).
  destruct (IPrimitive.indices p) as [i|], (IPrimitive.indices q) as [j|];
    try (split; [intros _; repeat split; [done|done|by intros ? ? ? ?]|done]).
  destruct (Z.eqb_spec (IPrimitiveIndices.indexUnit i) (IPrimitiveIndices.indexUnit j))
    as [Hu|Hu]; simpl.
  - split; [|done]. intros _. repeat split; try done.
    intros i' j' [= <-] [= <-]. done.
  - split; [done|]. intros (_ & _ & H). destruct Hu. by apply H.
Qed.

Lemma validateMergingMesh_structs_Forall2 (s d : IMeshStruct.t) :
  Mesh.validateMergingMesh_structs s d = true
  <-> Forall2 same_attribute_formats (IMeshStruct.vertexBundles s)
                                     (IMeshStruct.vertexBundles d)
      /\ Forall2 same_primitive_layout (IMeshStruct.primitives s)
                                       (IMeshStruct.primitives d).
Proof.
  assert (forall l k, Forall2 same_attribute_formats l k
                      <-> Forall2 (fun x y => Mesh.validate_bundle x y = true) l k) as HB.
  { intros l k. split; intros H; (eapply Forall2_impl; [exact H|]);
      intros x y; apply validate_bundle_spec. }
  assert (forall l k, Forall2 same_primitive_layout l k
                      <-> Forall2 (fun x y => Mesh.validate_primitive x y = true) l k) as HP.
  { intros l k. split; intros H; (eapply Forall2_impl; [exact H|]);
      intros x y; apply validate_primitive_spec. }
  rewrite HB, HP, <- !each_pair_Forall2.
  unfold Mesh.validateMergingMesh_structs.
  destruct (Nat.eqb_spec (length (IMeshStruct.vertexBundles s))
                         (length (IMeshStruct.vertexBundles d))); simpl;
    [|intuition congruence].
  destruct (Mesh.each_pair Mesh.validate_bundle _ _); simpl; [|intuition congruence].
  destruct (Nat.eqb_spec (length (IMeshStruct.primitives s))
                         (length (IMeshStruct.primitives d))); simpl;
    intuition congruence.
Qed.

(** X1: [validateMergingMesh] accepts two structs exactly when they
    have as many vertex bundles, with the same attribute formats in
    order at each position, and as many primitives, which at each
    position name the same bundles, have the same mode and, if both
    carry indices, the same index unit. *)
Theorem validateMergingMesh_structs_spec (s d : IMeshStruct.t) :
  Mesh.validateMergingMesh_structs s d = true
  <-> Forall2 same_attribute_formats (IMeshStruct.vertexBundles s)
                                     (IMeshStruct.vertexBundles d)
      /\ Forall2 same_primitive_layout (IMeshStruct.primitives s)
                                       (IMeshStruct.primitives d).
Proof. apply validateMergingMesh_structs_Forall2. Qed.

(** X2: validation is transitive through a struct whose primitives all
    carry indices: if it accepts [a] with [b] and [b] with [c], and
    every primitive of [b] carries indices, it accepts [a] with [c].
    (Without indices in the middle, the index units of [a] and [c] were
    never compared.) *)
Theorem validateMergingMesh_structs_transitive (a b c : IMeshStruct.t) :
  Mesh.validateMergingMesh_structs a b = true ->
  Mesh.validateMergingMesh_structs b c = true ->
  Forall (fun p => carries_indices p = true) (IMeshStruct.primitives b) ->
  Mesh.validateMergingMesh_structs a c = true.
Proof.
  rewrite !validateMergingMesh_structs_Forall2.
  intros [HB1 HP1] [HB2 HP2] Hind. split.
  - eapply Forall2_trans; [|exact HB1|exact HB2].
    unfold same_attribute_formats. intros x y z. congruence.
  - clear HB1 HB2. revert HP2 Hind. generalize (IMeshStruct.primitives c).
    induction HP1 as [|p q ps qs Hpq _ IH]; intros rs HP2 Hind.
    + inversion HP2; subst. constructor.
    + inversion HP2 as [|q' r qs' rs' Hqr Hrest]; subst.
      inversion Hind as [|q' qs' Hq Hqs]; subst.
      constructor; [|by apply IH].
      destruct Hpq as (V1 & M1 & U1), Hqr as (V2 & M2 & U2).
      split; [congruence|]. split; [congruence|].
      intros i k Hi Hk. unfold carries_indices in Hq.
      destruct (IPrimitive.indices q) as [j|] eqn:Hj; [|done].
      rewrite (U1 i j Hi eq_refl). by apply U2.
Qed.

(** ** Merging without validation *)

Lemma for_loop_app (body : nat -> M World.t unit) (n m i : nat) (w : World.t) :
  for_loop i (n + m) body w
  = (let! _ := for_loop i n body in for_loop (i + n) m body) w.
Proof.
  revert i w. induction n as [|n IH]; intros i w; simpl.
  - unfold bind, ret. by rewrite Nat.add_0_r.
  - unfold bind at 1 2 3. destruct (body i w) as [[u|e] w1]; [|done].
    rewrite IH. unfold bind. by replace (S i + n) with (i + S n) by lia.
Qed.

Section MergeUnvalidated.

Import Mesh.

Context (a b : t) (w : World.t) (sa sb : IMeshStruct.t).
Hypothesis Ha : World.structs w !! _struct a = Some sa.
Hypothesis Hb : World.structs w !! _struct b = Some sb.

Lemma merge_vertexBundles_prefix (n i : nat) :
  i + n <= length (IMeshStruct.vertexBundles sa) ->
  i + n <= length (IMeshStruct.vertexBundles sb) ->
  for_loop i n (merge_vertexBundle a b)
    (with_struct (_struct a) (bundles_merged_upto i sa sb) w)
  = (Normal tt, with_struct (_struct a) (bundles_merged_upto (i + n) sa sb) w).
Proof.
  revert i. induction n as [|n IH]; intros i Hia Hib; simpl.
  - by rewrite Nat.add_0_r.
  - destruct (lookup_lt_is_Some_2 (IMeshStruct.vertexBundles sa) i) as [x Hx]; [lia|].
    destruct (lookup_lt_is_Some_2 (IMeshStruct.vertexBundles sb) i) as [d Hd]; [lia|].
    unfold bind at 1.
    rewrite (merge_vertexBundle_step a b w sb Hb _ i x d).
    + replace (alter_vertexBundle i _ _) with (bundles_merged_upto (S i) sa sb).
      * rewrite IH by lia. do 3 f_equal. lia.
      * unfold alter_vertexBundle, bundles_merged_upto; simpl. f_equal.
        symmetry. by apply alter_merged_prefix.
    + simpl. rewrite lookup_merged_prefix by lia. done.
    + unfold seen_from. case_decide as E; [|done].
      rewrite <- (aliased_structs a b w sa sb Ha Hb E) in *. simpl.
      rewrite lookup_merged_prefix by lia. congruence.
Qed.

Lemma merge_primitives_prefix (n i : nat) :
  i + n <= length (IMeshStruct.primitives sa) ->
  i + n <= length (IMeshStruct.primitives sb) ->
  for_loop i n (merge_primitive a b)
    (with_struct (_struct a) (primitives_merged_upto i sa sb) w)
  = (Normal tt, with_struct (_struct a) (primitives_merged_upto (i + n) sa sb) w).
Proof.
  revert i. induction n as [|n IH]; intros i Hia Hib; simpl.
  - by rewrite Nat.add_0_r.
  - destruct (lookup_lt_is_Some_2 (IMeshStruct.primitives sa) i) as [x Hx]; [lia|].
    destruct (lookup_lt_is_Some_2 (IMeshStruct.primitives sb) i) as [d Hd]; [lia|].
    unfold bind at 1.
    rewrite (merge_primitive_step a b w sb Hb _ i x d).
    + replace (alter_primitive i _ _) with (primitives_merged_upto (S i) sa sb).
      * rewrite IH by lia. do 3 f_equal. lia.
      * unfold alter_primitive, primitives_merged_upto; simpl. f_equal.
        symmetry. by apply alter_merged_prefix.
    + simpl. rewrite lookup_merged_prefix by lia. done.
    + unfold seen_from. case_decide as E; [|done].
      rewrite <- (aliased_structs a b w sa sb Ha Hb E) in *. simpl.
      rewrite lookup_merged_prefix by lia. congruence.
Qed.

(** The four steps of [merge] past the validation, when [b] has at
    least as many bundles and primitives as [a]. *)
Lemma merge_steps_eval :
  length (IMeshStruct.vertexBundles sa) <= length (IMeshStruct.vertexBundles sb) ->
  length (IMeshStruct.primitives sa) <= length (IMeshStruct.primitives sb) ->
  (let! s := read_struct (_struct a) in
   let! _ := for_loop 0 (length (IMeshStruct.vertexBundles s)) (merge_vertexBundle a b) in
   let! s := read_struct (_struct a) in
   let! _ := for_loop 0 (length (IMeshStruct.primitives s)) (merge_primitive a b) in
   let! _ := merge_maxPosition a b in
   let! _ := merge_minPosition a b in
   ret true) w
  = (Normal true, with_struct (_struct a) (merged_struct sa sb) w).
Proof.
  intros HB HP.
  remember (with_struct (_struct a) (merged_struct sa sb) w) as merged eqn:Hm.
  rewrite <- (with_struct_initial a b w sa sb Ha Hb). subst merged.
  unfold bind at 1. rewrite read_this.
  replace (with_struct (_struct a) sa w)
    with (with_struct (_struct a) (bundles_merged_upto 0 sa sb) w)
    by (by destruct sa).
  unfold bind at 1.
  rewrite merge_vertexBundles_prefix by (simpl; lia).
  replace (bundles_merged_upto (0 + length (IMeshStruct.vertexBundles sa)) sa sb)
    with (primitives_merged_upto 0 sa sb).
  2:{ unfold bundles_merged_upto, primitives_merged_upto; simpl.
      rewrite drop_all, app_nil_r, (take_ge (IMeshStruct.vertexBundles sa)) by done.
      by rewrite zip_with_take_r. }
  unfold bind at 1. rewrite read_this.
  replace (length (IMeshStruct.primitives (primitives_merged_upto 0 sa sb)))
    with (length (IMeshStruct.primitives sa)) by done.
  unfold bind at 1.
  rewrite merge_primitives_prefix by (simpl; lia).
  unfold primitives_merged_upto. simpl.
  rewrite drop_all, app_nil_r, (take_ge (IMeshStruct.primitives sa)) by done.
  rewrite zip_with_take_r.
  unfold bind at 1.
  rewrite (merge_maxPosition_eval a b w sa sb Ha Hb).
  unfold bind at 1.
  rewrite (merge_minPosition_eval a b w sa sb Ha Hb).
  done.
Qed.

End MergeUnvalidated.

(** [merge] as a whole, when validation is skipped or passes and [b]
    has at least as many bundles and primitives as [a]. *)
Lemma merge_eval (a b : Mesh.t) (validate : option bool) (w : World.t)
    (sa sb : IMeshStruct.t) :
  World.structs w !! Mesh._struct a = Some sa ->
  World.structs w !! Mesh._struct b = Some sb ->
  (validate = Some true -> Mesh.validateMergingMesh_structs sa sb = true) ->
  length (IMeshStruct.vertexBundles sa) <= length (IMeshStruct.vertexBundles sb) ->
  length (IMeshStruct.primitives sa) <= length (IMeshStruct.primitives sb) ->
  Mesh.merge a b validate w
  = (Normal true, with_struct (Mesh._struct a) (merged_struct sa sb) w).
Proof.
  intros Ha Hb Hv HB HP.
  unfold Mesh.merge. unfold bind at 1.
  assert (match validate with
          | Some true => Mesh.validateMergingMesh a b
          | _ => ret true
          end w = (Normal true, w)) as ->.
  { destruct validate as [[|]|]; try done.
    by rewrite (validateMergingMesh_eval a b w sa sb Ha Hb), Hv. }
  change (negb true) with false. cbv iota.
  by apply merge_steps_eval.
Qed.

(** X3: without validation, [merge] needs only that [b] has at least as
    many vertex bundles and primitives as [a]: whatever the formats,
    modes and index units, it returns true and [a]'s struct becomes the
    merged struct; the bundles and primitives [b] has beyond [a]'s are
    not looked at. *)
Theorem merge_without_validation (a b : Mesh.t) (validate : option bool) (w : World.t)
    (sa sb : IMeshStruct.t) :
  World.structs w !! Mesh._struct a = Some sa ->
  World.structs w !! Mesh._struct b = Some sb ->
  validate <> Some true ->
  length (IMeshStruct.vertexBundles sa) <= length (IMeshStruct.vertexBundles sb) ->
  length (IMeshStruct.primitives sa) <= length (IMeshStruct.primitives sb) ->
  Mesh.merge a b validate w
  = (Normal true, with_struct (Mesh._struct a) (merged_struct sa sb) w)
  /\ length (IMeshStruct.vertexBundles (merged_struct sa sb))
     = length (IMeshStruct.vertexBundles sa)
  /\ length (IMeshStruct.primitives (merged_struct sa sb))
     = length (IMeshStruct.primitives sa).
Proof.
  intros Ha Hb Hv HB HP. split; [by apply merge_eval|].
  simpl. rewrite !length_zip_with. lia.
Qed.

(** X4: without validation, when [b] has fewer vertex bundles than [a],
    [merge] throws TypeError and leaves [a] half merged: its first
    bundles, as many as [b] has, have gained [b]'s lengths and counts;
    the others, the primitives and the bounding box are as they were. *)
Theorem merge_without_validation_fewer_bundles (a b : Mesh.t) (validate : option bool)
    (w : World.t) (sa sb : IMeshStruct.t) :
  World.structs w !! Mesh._struct a = Some sa ->
  World.structs w !! Mesh._struct b = Some sb ->
  validate <> Some true ->
  length (IMeshStruct.vertexBundles sb) < length (IMeshStruct.vertexBundles sa) ->
  Mesh.merge a b validate w
  = (Throw TypeError,
     with_struct (Mesh._struct a)
       (IMeshStruct.mk
          (zip_with merged_bundle (IMeshStruct.vertexBundles sa)
                                  (IMeshStruct.vertexBundles sb)
           ++ drop (length (IMeshStruct.vertexBundles sb)) (IMeshStruct.vertexBundles sa))
          (IMeshStruct.primitives sa)
          (IMeshStruct.minPosition sa)
          (IMeshStruct.maxPosition sa)) w).
Proof.
  intros Ha Hb Hv Hlt.
  assert (Mesh._struct a <> Mesh._struct b) as Hne.
  { intros E. rewrite (aliased_structs a b w sa sb Ha Hb E) in Hlt. lia. }
  unfold Mesh.merge. unfold bind at 1.
  assert (match validate with
          | Some true => Mesh.validateMergingMesh a b
          | _ => ret true
          end w = (Normal true, w)) as ->.
  { by destruct validate as [[|]|]. }
  change (negb true) with false. cbv iota.
  match goal with |- _ = (_, ?t) => remember t as target eqn:Ht end.
  rewrite <- (with_struct_initial a b w sa sb Ha Hb). subst target.
  unfold bind at 1. rewrite read_this.
  replace (with_struct (Mesh._struct a) sa w)
    with (with_struct (Mesh._struct a) (bundles_merged_upto 0 sa sb) w)
    by (by destruct sa).
  unfold bind at 1.
  replace (length (IMeshStruct.vertexBundles sa))
    with (length (IMeshStruct.vertexBundles sb)
          + S (length (IMeshStruct.vertexBundles sa)
               - S (length (IMeshStruct.vertexBundles sb)))) by lia.
  rewrite for_loop_app. unfold bind at 1.
  rewrite (merge_vertexBundles_prefix a b w sa sb Ha Hb) by (simpl; lia).
  simpl for_loop. unfold bind at 1.
  unfold Mesh.merge_vertexBundle at 1, Mesh.vertexBundle_at at 1.
  unfold bind at 1 2.
  rewrite (read_mesh a b w sb Hb). unfold seen_from. rewrite decide_False by done.
  rewrite lookup_ge_None_2 by (simpl; lia).
  unfold throw. do 3 f_equal.
  unfold bundles_merged_upto. simpl. f_equal. f_equal.
  rewrite zip_with_take_both' by lia. done.
Qed.

(** ** What [merge] never touches *)

Lemma writes_only_ret {A : Type} (l : nat) (x : A) : writes_only l (ret x).
Proof. by intros w. Qed.

Lemma writes_only_throw {A : Type} (l : nat) (e : JSError) :
  writes_only l (@throw World.t A e).
Proof. by intros w. Qed.

Lemma writes_only_bind {A B : Type} (l : nat) (m : M World.t A) (k : A -> M World.t B) :
  writes_only l m -> (forall x, writes_only l (k x)) -> writes_only l (bind m k).
Proof.
  intros Hm Hk w. unfold bind.
  destruct (Hm w) as [D1 S1].
  destruct (m w) as [[x|e] w1]; simpl in *; [|done].
  destruct (Hk x w1) as [D2 S2]. split; [congruence|].
  intros l' Hl'. by rewrite S2, S1.
Qed.

Lemma writes_only_read_struct (l l0 : nat) : writes_only l (read_struct l0).
Proof. intros w. unfold read_struct. by destruct (World.structs w !! l0). Qed.

Lemma writes_only_modify_struct (l : nat) (f : IMeshStruct.t -> IMeshStruct.t) :
  writes_only l (modify_struct l f).
Proof.
  intros w. unfold modify_struct.
  destruct (World.structs w !! l); simpl; [|done].
  split; [done|]. intros l' Hl'. by rewrite lookup_insert_ne.
Qed.

Lemma writes_only_for_loop (l : nat) (body : nat -> M World.t unit) (n i : nat) :
  (forall j, writes_only l (body j)) -> writes_only l (for_loop i n body).
Proof.
  intros Hbody. revert i. induction n as [|n IH]; intros i; simpl.
  - apply writes_only_ret.
  - apply writes_only_bind; [apply Hbody|]. intros _. apply IH.
Qed.

Create HintDb writes_only.
#[local] Hint Resolve writes_only_ret writes_only_throw writes_only_read_struct
  writes_only_modify_struct : writes_only.

Ltac writes_only_step :=
  match goal with
  | |- writes_only _ (bind _ _) => apply writes_only_bind; [|intros ?]
  | |- writes_only _ (match ?x with _ => _ end) => destruct x
  | |- writes_only _ _ => solve [auto with writes_only]
  end.

Lemma writes_only_merge (a b : Mesh.t) (validate : option bool) :
  writes_only (Mesh._struct a) (Mesh.merge a b validate).
Proof.
  assert (forall i, writes_only (Mesh._struct a) (Mesh.merge_vertexBundle a b i)) as HB.
  { intros i. unfold Mesh.merge_vertexBundle, Mesh.vertexBundle_at.
    repeat writes_only_step. }
  assert (forall i, writes_only (Mesh._struct a) (Mesh.merge_primitive a b i)) as HP.
  { intros i. unfold Mesh.merge_primitive. repeat writes_only_step. }
  assert (forall get alter c set f,
            (forall g, writes_only (Mesh._struct a)
                         (modify_struct (Mesh._struct a) (alter g))) ->
            writes_only (Mesh._struct a)
              (Mesh.merge_component get alter c set f a b)) as HC.
  { intros get alter c set f Halter. unfold Mesh.merge_component.
    apply writes_only_bind; [auto with writes_only|]. intros dst.
    destruct (get dst); [apply Halter|auto with writes_only]. }
  unfold Mesh.merge.
  apply writes_only_bind.
  { destruct validate as [[|]|]; [|auto with writes_only..].
    unfold Mesh.validateMergingMesh. repeat writes_only_step. }
  intros valid. destruct (negb valid); [auto with writes_only|].
  apply writes_only_bind; [auto with writes_only|]. intros s1.
  apply writes_only_bind; [by apply writes_only_for_loop|]. intros _.
  apply writes_only_bind; [auto with writes_only|]. intros s2.
  apply writes_only_bind; [by apply writes_only_for_loop|]. intros _.
  apply writes_only_bind.
  { unfold Mesh.merge_maxPosition.
    apply writes_only_bind; [auto with writes_only|]. intros s3.
    apply writes_only_bind; [auto with writes_only|]. intros d3.
    destruct (IMeshStruct.maxPosition s3), (IMeshStruct.maxPosition d3);
      auto with writes_only.
    repeat (apply writes_only_bind; [|intros _]);
      apply HC; intros g; apply writes_only_modify_struct. }
  intros _. apply writes_only_bind; [|auto with writes_only].
  unfold Mesh.merge_minPosition.
  apply writes_only_bind; [auto with writes_only|]. intros s3.
  apply writes_only_bind; [auto with writes_only|]. intros d3.
  destruct (IMeshStruct.minPosition s3), (IMeshStruct.minPosition d3);
    auto with writes_only.
  repeat (apply writes_only_bind; [|intros _]);
    apply HC; intros g; apply writes_only_modify_struct.
Qed.

(** X5: whatever its arguments and its outcome (true, false or an
    exception part-way), [merge] makes no call to the device: the log of
    the device and its policy are as they were, so that no buffer is
    created, updated or released by a merge. *)
Theorem merge_makes_no_device_call (a b : Mesh.t) (validate : option bool) (w : World.t) :
  World.device (snd (Mesh.merge a b validate w)) = World.device w.
Proof. apply (writes_only_merge a b validate w). Qed.

(** ** Merging and validation *)

Lemma each_pair_zip_with_l {A B : Type} (same : A -> A -> bool) (f : A -> B -> A)
    (l : list A) (k : list B) (m : list A) :
  (forall x d y, same (f x d) y = same x y) ->
  length l <= length k ->
  Mesh.each_pair same (zip_with f l k) m = Mesh.each_pair same l m.
Proof.
  intros Hf. revert k m. induction l as [|x l IH]; intros [|d k] [|y m] Hlen;
    simpl in *; try done; try lia.
  rewrite Hf. destruct (same x y); simpl; [|done]. apply IH. lia.
Qed.

Lemma validate_primitive_merged (p q r : IPrimitive.t) :
  Mesh.validate_primitive (merged_primitive p q) r = Mesh.validate_primitive p r.
Proof.
  unfold merged_primitive.
  by destruct (IPrimitive.indices p) as [i|] eqn:Ei, (IPrimitive.indices q) as [j|];
    unfold Mesh.validate_primitive; simpl; rewrite ?Ei.
Qed.

Lemma validateMergingMesh_structs_merged (sa sb sc : IMeshStruct.t) :
  length (IMeshStruct.vertexBundles sa) <= length (IMeshStruct.vertexBundles sb) ->
  length (IMeshStruct.primitives sa) <= length (IMeshStruct.primitives sb) ->
  Mesh.validateMergingMesh_structs (merged_struct sa sb) sc
  = Mesh.validateMergingMesh_structs sa sc.
Proof.
  intros HB HP. unfold Mesh.validateMergingMesh_structs. simpl.
  rewrite !length_zip_with.
  rewrite (Nat.min_l _ _ HB), (Nat.min_l _ _ HP).
  rewrite (each_pair_zip_with_l Mesh.validate_bundle merged_bundle) by done.
  by rewrite (each_pair_zip_with_l Mesh.validate_primitive merged_primitive)
    by (done || apply validate_primitive_merged).
Qed.

(** X6: a merge that succeeds changes no answer of validation: after
    [merge(a, b)] on compatible structs, [validateMergingMesh(a, c)]
    returns for every mesh [c] what it returned before. *)
Theorem merge_keeps_validation (a b c : Mesh.t) (validate : option bool) (w : World.t)
    (sa sb : IMeshStruct.t) :
  World.structs w !! Mesh._struct a = Some sa ->
  World.structs w !! Mesh._struct b = Some sb ->
  Mesh.validateMergingMesh_structs sa sb = true ->
  fst (Mesh.validateMergingMesh a c (snd (Mesh.merge a b validate w)))
  = fst (Mesh.validateMergingMesh a c w).
Proof.
  intros Ha Hb Hv.
  destruct (validateMergingMesh_structs_lengths sa sb Hv) as [HB HP].
  rewrite (merge_eval a b validate w sa sb Ha Hb) by (done || lia). simpl.
  unfold Mesh.validateMergingMesh, bind.
  rewrite read_this, (read_struct_existing _ _ _ Ha).
  unfold read_struct, with_struct; simpl. rewrite lookup_insert.
  case_decide as E.
  - rewrite <- E, Ha. unfold ret; simpl.
    by rewrite !validateMergingMesh_structs_refl.
  - destruct (World.structs w !! Mesh._struct c) as [sc|]; [|done].
    unfold ret; simpl. f_equal. apply validateMergingMesh_structs_merged; lia.
Qed.

(** ** The bounding box after a merge *)

Lemma number_le_Math_max (a b : number) :
  a <> NaN -> b <> NaN ->
  number_le a (Math_max a b) /\ number_le b (Math_max a b).
Proof.
  destruct a as [|x], b as [|y]; try done. intros _ _.
  destruct (Math_max_Num x y) as (r & -> & Hx & Hy & _). done.
Qed.

Lemma number_le_Math_min (a b : number) :
  a <> NaN -> b <> NaN ->
  number_le (Math_min a b) a /\ number_le (Math_min a b) b.
Proof.
  destruct a as [|x], b as [|y]; try done. intros _ _.
  destruct (Math_min_Num x y) as (r & -> & Hx & Hy & _). done.
Qed.

Lemma maxPosition_with_struct (a : Mesh.t) (X : IMeshStruct.t) (w : World.t) :
  MeshAccessors.maxPosition (a, with_struct (Mesh._struct a) X w)
  = (Normal (IMeshStruct.maxPosition X), (a, with_struct (Mesh._struct a) X w)).
Proof.
  unfold MeshAccessors.maxPosition, MeshAccessors.struct, bind, Mesh.get_this,
    Mesh.in_world, ret; simpl.
  by rewrite read_this.
Qed.

Lemma minPosition_with_struct (a : Mesh.t) (X : IMeshStruct.t) (w : World.t) :
  MeshAccessors.minPosition (a, with_struct (Mesh._struct a) X w)
  = (Normal (IMeshStruct.minPosition X), (a, with_struct (Mesh._struct a) X w)).
Proof.
  unfold MeshAccessors.minPosition, MeshAccessors.struct, bind, Mesh.get_this,
    Mesh.in_world, ret; simpl.
  by rewrite read_this.
Qed.

(** X7: after a merge of compatible structs that both have a
    [maxPosition] without NaN, the getter [maxPosition] of [a] returns a
    position that is, component by component, at least [a]'s former one
    and at least [b]'s; likewise [minPosition] returns one that is at
    most both.  A position [b] does not have leaves [a]'s as it was. *)
Theorem merge_bounding_box_encloses (a b : Mesh.t) (validate : option bool)
    (w : World.t) (sa sb : IMeshStruct.t) :
  World.structs w !! Mesh._struct a = Some sa ->
  World.structs w !! Mesh._struct b = Some sb ->
  Mesh.validateMergingMesh_structs sa sb = true ->
  let w' := snd (Mesh.merge a b validate w) in
  (forall p q,
     IMeshStruct.maxPosition sa = Some p -> IMeshStruct.maxPosition sb = Some q ->
     no_NaN p -> no_NaN q ->
     exists r, MeshAccessors.maxPosition (a, w') = (Normal (Some r), (a, w'))
               /\ Vec3_le p r /\ Vec3_le q r)
  /\ (forall p q,
        IMeshStruct.minPosition sa = Some p -> IMeshStruct.minPosition sb = Some q ->
        no_NaN p -> no_NaN q ->
        exists r, MeshAccessors.minPosition (a, w') = (Normal (Some r), (a, w'))
                  /\ Vec3_le r p /\ Vec3_le r q)
  /\ (IMeshStruct.maxPosition sb = None ->
      MeshAccessors.maxPosition (a, w') = (Normal (IMeshStruct.maxPosition sa), (a, w')))
  /\ (IMeshStruct.minPosition sb = None ->
      MeshAccessors.minPosition (a, w') = (Normal (IMeshStruct.minPosition sa), (a, w'))).
Proof.
  intros Ha Hb Hv w'. subst w'.
  destruct (validateMergingMesh_structs_lengths sa sb Hv) as [HB HP].
  rewrite (merge_eval a b validate w sa sb Ha Hb) by (done || lia). simpl.
  rewrite maxPosition_with_struct, minPosition_with_struct. simpl.
  split; [|split; [|split]].
  - intros p q -> -> (Px & Py & Pz) (Qx & Qy & Qz). simpl.
    eexists. split; [done|].
    unfold Vec3_le; simpl.
    destruct (number_le_Math_max _ _ Px Qx), (number_le_Math_max _ _ Py Qy),
      (number_le_Math_max _ _ Pz Qz). done.
  - intros p q -> -> (Px & Py & Pz) (Qx & Qy & Qz). simpl.
    eexists. split; [done|].
    unfold Vec3_le; simpl.
    destruct (number_le_Math_min _ _ Px Qx), (number_le_Math_min _ _ Py Qy),
      (number_le_Math_min _ _ Pz Qz). done.
  - intros ->. by destruct (IMeshStruct.maxPosition sa).
  - intros ->. by destruct (IMeshStruct.minPosition sa).
Qed.

(** ** The life of a mesh *)

Lemma _deferredInit_sets_flag (m m' : Mesh.t) (w w' : World.t) (c : Completion unit) :
  Mesh._deferredInit (m, w) = (c, (m', w')) ->
  Mesh._initialized m' = true
  /\ Mesh._struct m' = Mesh._struct m /\ Mesh._data m' = Mesh._data m.
Proof.
  intros H.
  destruct (Mesh._initialized m) eqn:Hi.
  { rewrite _deferredInit_initialized in H by done. by inversion H; subst. }
  destruct (Mesh._data m) as [data|] eqn:Hd.
  2:{ rewrite _deferredInit_without_data in H by done. by inversion H; subst. }
  rewrite (_deferredInit_pending m w data) in H by done.
  destruct (materialize _ _ w) as [[rm|e] w1]; inversion H; by subst.
Qed.

Lemma renderingMesh_inv (m m' : Mesh.t) (w w' : World.t)
    (c : Completion (option RenderingMesh.t)) :
  Mesh.renderingMesh (m, w) = (c, (m', w')) ->
  exists c0, Mesh._deferredInit (m, w) = (c0, (m', w'))
             /\ match c0 with
                | Normal _ => c = Normal (Mesh._renderingMesh m')
                | Throw e => c = Throw e
                end.
Proof.
  unfold Mesh.renderingMesh, bind.
  destruct (Mesh._deferredInit (m, w)) as [[u|e] [m1 w1]]; intros H.
  - unfold Mesh.get_this, ret in H; simpl in H. inversion H; subst.
    by exists (Normal u).
  - inversion H; subst. by exists (Throw e).
Qed.

Lemma renderingMesh_initialized (m : Mesh.t) (w : World.t) :
  Mesh._initialized m = true ->
  Mesh.renderingMesh (m, w) = (Normal (Mesh._renderingMesh m), (m, w)).
Proof.
  intros Hi. unfold Mesh.renderingMesh, bind.
  by rewrite _deferredInit_initialized.
Qed.

(** X8: a read of [renderingMesh] that returns is repeated at no cost:
    the next read returns the same value, makes no call to the device
    and changes neither the mesh nor the world. *)
Theorem renderingMesh_cached (m m' : Mesh.t) (w w' : World.t)
    (r : option RenderingMesh.t) :
  Mesh.renderingMesh (m, w) = (Normal r, (m', w')) ->
  Mesh.renderingMesh (m', w') = (Normal r, (m', w')).
Proof.
  intros H. apply renderingMesh_inv in H as ([u|e] & H & Hc); [|done].
  apply _deferredInit_sets_flag in H as (Hi & _).
  rewrite renderingMesh_initialized by done. by inversion Hc.
Qed.

(** X9: a materialisation that throws is not tried again: the flag is
    left set, so the next read of [renderingMesh] returns what the mesh
    held before the failed read ([null] for a mesh that had no rendering
    mesh), without error and without a call to the device. *)
Theorem renderingMesh_failure_not_retried (m m' : Mesh.t) (w w' : World.t) (e : JSError) :
  Mesh.renderingMesh (m, w) = (Throw e, (m', w')) ->
  m' = flagged m
  /\ Mesh.renderingMesh (m', w') = (Normal (Mesh._renderingMesh m), (m', w')).
Proof.
  intros H. apply renderingMesh_inv in H as ([u|e0] & H & Hc); [done|].
  assert (m' = flagged m) as ->.
  { destruct (Mesh._initialized m) eqn:Hi.
    { by rewrite _deferredInit_initialized in H. }
    destruct (Mesh._data m) as [data|] eqn:Hd.
    2:{ by rewrite _deferredInit_without_data in H. }
    rewrite (_deferredInit_pending m w data) in H by done.
    destruct (materialize _ _ w) as [[rm|e1] w1]; by inversion H. }
  split; [done|]. by rewrite renderingMesh_initialized.
Qed.

Lemma _tryDestroyRenderingMesh_eval (m : Mesh.t) (w : World.t) :
  Mesh._tryDestroyRenderingMesh (m, w)
  = (Normal tt,
     (match Mesh._renderingMesh m with
      | Some _ => Mesh.mk (Mesh._struct m) (Mesh._data m) false None
      | None => m
      end,
      add_calls (map destroy_call (owned_buffers m)) w)).
Proof.
  destruct m as [l d i [rm|]]; unfold owned_buffers; simpl.
  - unfold Mesh._tryDestroyRenderingMesh, bind, Mesh.get_this, Mesh.set_this,
      Mesh.in_world; simpl.
    by rewrite RenderingMesh_destroy_eval, map_app.
  - by rewrite add_calls_nil.
Qed.

(** X10: [destroy()] on a mesh releases every buffer the mesh owns,
    vertex buffers first, and leaves it without rendering mesh; a second
    [destroy()] then does nothing at all.  If the mesh held a rendering
    mesh, its flag is reset, so that a later read of [renderingMesh]
    materialises again. *)
Theorem Mesh_destroy_idempotent (m : Mesh.t) (w : World.t) :
  exists m1 w1,
    Mesh.destroy (m, w) = (Normal tt, (m1, w1))
    /\ Mesh._renderingMesh m1 = None
    /\ device_calls w1 = device_calls w ++ map destroy_call (owned_buffers m)
    /\ World.structs w1 = World.structs w
    /\ (is_Some (Mesh._renderingMesh m) -> Mesh._initialized m1 = false)
    /\ Mesh.destroy (m1, w1) = (Normal tt, (m1, w1)).
Proof.
  unfold Mesh.destroy. rewrite _tryDestroyRenderingMesh_eval.
  eexists _, _. split; [done|].
  destruct m as [l d i [rm|]]; simpl; repeat split; try done.
Qed.

(** X11: [assign] on a mesh that holds a rendering mesh releases every
    buffer of that rendering mesh, vertex buffers first, and leaves the
    mesh pending on the new struct and data: no rendering mesh, flag
    reset.  The structs are not touched. *)
Theorem assign_releases_and_resets (m : Mesh.t) (w : World.t) (struct : nat)
    (data : TypedArray.t) (rm : RenderingMesh.t) :
  Mesh._renderingMesh m = Some rm ->
  exists m' w',
    Mesh.assign struct data (m, w) = (Normal tt, (m', w'))
    /\ pending m' data
    /\ Mesh._struct m' = struct
    /\ Mesh._renderingMesh m' = None
    /\ device_calls w'
       = device_calls w
         ++ map destroy_call (RenderingMesh._vertexBuffers rm
                              ++ RenderingMesh._indexBuffers rm)
    /\ World.structs w' = World.structs w.
Proof.
  intros Hrm. rewrite (assign_with_renderingMesh m w struct data rm Hrm).
  eexists _, _. split; [done|]. by rewrite map_app.
Qed.

(** X12: [assign] followed by a read of [renderingMesh], on a mesh that
    holds a rendering mesh, materialises the new pair: for a well-formed
    new struct on a device that never fails, the read returns a new
    rendering mesh with one vertex buffer per bundle of the new struct
    and the submeshes of its primitives that name a bundle. *)
Theorem assign_then_renderingMesh (m : Mesh.t) (w : World.t) (struct : nat)
    (data : TypedArray.t) (rm : RenderingMesh.t) (s : IMeshStruct.t) :
  Mesh._renderingMesh m = Some rm ->
  World.structs w !! struct = Some s ->
  valid_struct (TypedArray.buffer data) s = true ->
  device_never_fails w ->
  exists rm' st,
    (let! _ := Mesh.assign struct data in Mesh.renderingMesh) (m, w)
    = (Normal (Some rm'), st)
    /\ Mesh._renderingMesh (fst st) = Some rm'
    /\ length (RenderingMesh._vertexBuffers rm') = length (IMeshStruct.vertexBundles s)
    /\ Forall2 (submesh_of (RenderingMesh._vertexBuffers rm') (IMeshStruct.vertexBundles s))
               (List.filter names_a_bundle (IMeshStruct.primitives s))
               (RenderingMesh._subMeshes rm').
Proof.
  intros Hrm Hs Hv Hdev. unfold bind at 1.
  rewrite (assign_with_renderingMesh m w struct data rm Hrm).
  destruct (renderingMesh_valid (Mesh.mk struct (Some data) false None)
              (add_calls (map destroy_call (RenderingMesh._vertexBuffers rm)
                          ++ map destroy_call (RenderingMesh._indexBuffers rm)) w)
              data s)
    as (rm' & w' & evs & E & _ & _ & _ & Hl & _ & Hsubs);
    [done|done|done|by apply add_calls_never_fails|].
  rewrite E. by eexists _, _.
Qed.

Lemma consistent_deferredInit (m m' : Mesh.t) (w w' : World.t) (c : Completion unit) :
  Mesh._deferredInit (m, w) = (c, (m', w')) -> consistent m'.
Proof.
  intros H _. by apply _deferredInit_sets_flag in H as (Hi & _).
Qed.

(** X13: every operation of a mesh keeps the flag set whenever a
    rendering mesh is held: this is so of a new mesh, and [assign],
    [destroy], the setter of [_nativeAsset] and a read of
    [renderingMesh], whatever its outcome, preserve it. *)
Theorem mesh_operations_keep_consistent (m : Mesh.t) (w : World.t) :
  consistent (fst (Mesh.create w))
  /\ (consistent m ->
      (forall struct data, consistent (fst (snd (Mesh.assign struct data (m, w)))))
      /\ consistent (fst (snd (Mesh.destroy (m, w))))
      /\ (forall value, consistent (fst (snd (MeshAccessors.set_nativeAsset value (m, w)))))
      /\ consistent (fst (snd (Mesh.renderingMesh (m, w))))).
Proof.
  split; [by intros [? ?]|]. intros Hm. split; [|split; [|split]].
  - intros struct data.
    destruct (Mesh._renderingMesh m) as [rm|] eqn:Hrm.
    + rewrite (assign_with_renderingMesh m w struct data rm Hrm). by intros [? ?].
    + rewrite (assign_without_renderingMesh m w struct data Hrm). by intros [? ?].
  - unfold Mesh.destroy. rewrite _tryDestroyRenderingMesh_eval. simpl.
    destruct (Mesh._renderingMesh m); [by intros [? ?]|done].
  - intros value. done.
  - destruct (Mesh.renderingMesh (m, w)) as [c [m' w']] eqn:E.
    apply renderingMesh_inv in E as (c0 & E & _). simpl.
    by eapply consistent_deferredInit.
Qed.

(** ** Submeshes by index *)

Lemma getSubmesh_bounds (rm : RenderingMesh.t) (index : Z) :
  is_Some (RenderingMesh.getSubmesh rm index)
  <-> (0 <= index < Z.of_nat (RenderingMesh.subMeshCount rm))%Z.
Proof.
  unfold RenderingMesh.getSubmesh, RenderingMesh.subMeshCount, element_at.
  destruct (Z.ltb_spec index 0).
  - split; [by intros [? ?]|lia].
  - rewrite lookup_lt_is_Some. lia.
Qed.

(** X14: on a mesh whose [renderingMesh] reads as [null] (a mesh without
    data, or one whose materialisation failed), [subMeshCount] returns 0
    while [getSubMesh] throws TypeError at every index. *)
Theorem getSubMesh_without_renderingMesh (m : Mesh.t) (w : World.t)
    (st : Mesh.t * World.t) (index : Z) :
  Mesh.renderingMesh (m, w) = (Normal None, st) ->
  Mesh.subMeshCount (m, w) = (Normal 0, st)
  /\ MeshAccessors.getSubMesh index (m, w) = (Throw TypeError, st).
Proof.
  intros H. unfold Mesh.subMeshCount, MeshAccessors.getSubMesh, bind.
  by rewrite H.
Qed.

(** X15: on a mesh whose [renderingMesh] reads as a rendering mesh,
    [getSubMesh(index)] returns a submesh exactly for the indices from 0
    to [subMeshCount] - 1, and [undefined] (no error) for every other
    index; neither call changes the state the read has left. *)
Theorem getSubMesh_defined_within_count (m : Mesh.t) (w : World.t) (rm : RenderingMesh.t)
    (st : Mesh.t * World.t) :
  Mesh.renderingMesh (m, w) = (Normal (Some rm), st) ->
  exists n,
    Mesh.subMeshCount (m, w) = (Normal n, st)
    /\ forall index, exists r,
         MeshAccessors.getSubMesh index (m, w) = (Normal r, st)
         /\ (is_Some r <-> (0 <= index < Z.of_nat n)%Z).
Proof.
  intros H. exists (RenderingMesh.subMeshCount rm).
  unfold Mesh.subMeshCount, MeshAccessors.getSubMesh, bind. rewrite H.
  split; [done|]. intros index. eexists. split; [done|].
  apply getSubmesh_bounds.
Qed.

(** X16: the setter of [_nativeAsset] replaces the data and nothing
    else: the getter returns the new value, but on a mesh whose flag is
    set the next read of [renderingMesh] still returns what the mesh held
    (not a materialisation of the new data), and makes no call to the
    device. *)
Theorem set_nativeAsset_keeps_renderingMesh (m : Mesh.t) (w : World.t)
    (value : option TypedArray.t) :
  Mesh._initialized m = true ->
  exists m',
    MeshAccessors.set_nativeAsset value (m, w) = (Normal tt, (m', w))
    /\ MeshAccessors.get_nativeAsset (m', w) = (Normal value, (m', w))
    /\ Mesh.renderingMesh (m', w) = (Normal (Mesh._renderingMesh m), (m', w)).
Proof.
  intros Hi. eexists. split; [done|]. split; [done|].
  by rewrite renderingMesh_initialized.
Qed.

(** ** What is uploaded to an index buffer *)

Lemma new_TypedArray_normal (ctor : TypedArrayCtor) (buffer : ArrayBuffer)
    (off len : Z) (view : TypedArray.t) :
  new_TypedArray ctor buffer off len = Normal view ->
  view = TypedArray.mk ctor buffer off len
  /\ (0 <= off)%Z /\ (0 <= len)%Z
  /\ (off + len * BYTES_PER_ELEMENT ctor <= byteLength buffer)%Z.
Proof.
  unfold new_TypedArray.
  destruct (Z.ltb_spec off 0); [done|].
  destruct (negb _); [done|].
  destruct (Z.ltb_spec len 0); [done|].
  destruct (Z.ltb_spec (byteLength buffer) (off + len * BYTES_PER_ELEMENT ctor)); [done|].
  intros [= <-]. done.
Qed.

(** X17: when the index branch of a primitive completes, the index
    buffer was created with the byte length of the index range as its
    size and the stride of the index unit, and one view was uploaded to
    it: a view of the unit's element type that starts at the range's
    offset, lies within the buffer and holds [length ÷ stride] elements,
    that is the bytes of the range less the [length rem stride] last
    ones. *)
Theorem create_indexBuffer_upload (buffer : ArrayBuffer) (indices : IPrimitiveIndices.t)
    (w w' : World.t) (b : GFXBuffer) (view : TypedArray.t) :
  Mesh.create_indexBuffer buffer indices w = (Normal (b, view), w') ->
  let range := IPrimitiveIndices.range indices in
  let stride := getIndexUnitStride (IPrimitiveIndices.indexUnit indices) in
  device_calls w'
  = device_calls w
    ++ [createBuffer_call b
          (IGFXBufferInfo.mk [INDEX; TRANSFER_DST] [HOST; DEVICE]
             (IBufferRange.length range) (stride, 1%Z));
        update_call b view]
  /\ TypedArray.ctor view = getIndexUnitCtor (IPrimitiveIndices.indexUnit indices)
  /\ BYTES_PER_ELEMENT (TypedArray.ctor view) = stride
  /\ TypedArray.byteOffset view = IBufferRange.offset range
  /\ (TypedArray.length view * stride
      = IBufferRange.length range - Z.rem (IBufferRange.length range) stride)%Z
  /\ (0 <= TypedArray.byteOffset view)%Z
  /\ (TypedArray.byteOffset view + TypedArray.length view * stride
      <= byteLength buffer)%Z.
Proof.
  intros H range stride. unfold Mesh.create_indexBuffer in H.
  apply bind_normal in H as (b' & w1 & H1 & H).
  apply createBuffer_normal in H1 as ->.
  apply bind_normal in H as (v & w2 & H2 & H).
  pose proof (lift_normal _ _ _ _ H2) as ->.
  unfold lift in H2. injection H2 as H2.
  apply new_TypedArray_normal in H2 as (-> & Hoff & Hlen & Hend).
  apply bind_normal in H as (u & w3 & H3 & H).
  unfold GFXBuffer_update in H3. inversion H3; subst w3; clear H3.
  inversion H; subst; clear H. simpl.
  rewrite BYTES_PER_ELEMENT_getIndexUnitCtor in *.
  split.
  { rewrite log_call_add_calls, add_calls_app. done. }
  repeat split; try done.
  unfold truncated_quotient. subst range stride.
  pose proof (Z.quot_rem' (IBufferRange.length (IPrimitiveIndices.range indices))
                (getIndexUnitStride (IPrimitiveIndices.indexUnit indices))).
  lia.
Qed.

(** ** Counting submeshes *)

(** X18: on a pending mesh whose materialisation completes,
    [subMeshCount] is the number of primitives of the struct that name at
    least one vertex bundle (not the number of primitives). *)
Theorem subMeshCount_counts_bound_primitives (m : Mesh.t) (w : World.t)
    (data : TypedArray.t) (s : IMeshStruct.t) (rm : RenderingMesh.t)
    (st : Mesh.t * World.t) :
  pending m data ->
  World.structs w !! Mesh._struct m = Some s ->
  Mesh.renderingMesh (m, w) = (Normal (Some rm), st) ->
  Mesh.subMeshCount (m, w)
  = (Normal (length (List.filter names_a_bundle (IMeshStruct.primitives s))), st).
Proof.
  intros Hp Hs H. unfold Mesh.subMeshCount, bind. rewrite H.
  unfold ret, RenderingMesh.subMeshCount. do 2 f_equal.
  destruct st as [m' w'].
  apply renderingMesh_inv in H as ([u|e] & H & Hc); [|done].
  rewrite (_deferredInit_pending m w data Hp) in H.
  destruct (materialize (flagged m) (TypedArray.buffer data) w)
    as [[rm0|e] w0] eqn:E; inversion H; subst; clear H.
  simpl in Hc. assert (rm0 = rm) as -> by congruence.
  by destruct (materialize_normal (flagged m) _ w w' s rm Hs E)
    as (evs & _ & _ & _ & _ & Hl).
Qed.

(** X19: a pending mesh whose struct has no vertex bundle and no
    primitive materialises into an empty rendering mesh, whatever the
    buffer and the device: no call is made to the device. *)
Theorem empty_struct_materializes_empty (m : Mesh.t) (w : World.t) (data : TypedArray.t)
    (s : IMeshStruct.t) :
  pending m data ->
  World.structs w !! Mesh._struct m = Some s ->
  IMeshStruct.vertexBundles s = [] ->
  IMeshStruct.primitives s = [] ->
  Mesh.renderingMesh (m, w)
  = (Normal (Some (RenderingMesh.mk [] [] [])),
     (Mesh.mk (Mesh._struct m) (Mesh._data m) true (Some (RenderingMesh.mk [] [] [])), w)).
Proof.
  intros Hp Hs HB HP. unfold Mesh.renderingMesh, bind.
  rewrite (_deferredInit_pending m w data Hp).
  unfold materialize, Mesh._createVertexBuffers, bind.
  rewrite (read_struct_existing (Mesh._struct (flagged m)) _ _ Hs), HB. simpl.
  rewrite (read_struct_existing _ _ _ Hs), HP. done.
Qed.

(** ** Materialisation and the struct *)

Lemma same_primitive_source_refl (p : IPrimitive.t) : same_primitive_source p p.
Proof.
  repeat split. destruct (IPrimitive.geometricInfo p); by constructor.
Qed.

Lemma same_struct_source_refl (s : IMeshStruct.t) : same_struct_source s s.
Proof.
  repeat split. induction (IMeshStruct.primitives s); constructor;
    [apply same_primitive_source_refl|done].
Qed.

Lemma keeps_structs_ret {A : Type} (x : A) : keeps_structs (ret x).
Proof. by intros w. Qed.

Lemma keeps_structs_throw {A : Type} (e : JSError) : keeps_structs (@throw World.t A e).
Proof. by intros w. Qed.

Lemma keeps_structs_lift {A : Type} (c : Completion A) : keeps_structs (lift c).
Proof. by intros w. Qed.

Lemma keeps_structs_bind {A B : Type} (m : M World.t A) (k : A -> M World.t B) :
  keeps_structs m -> (forall x, keeps_structs (k x)) -> keeps_structs (bind m k).
Proof.
  intros Hm Hk w. unfold bind. pose proof (Hm w) as H1.
  destruct (m w) as [[x|e] w1]; simpl in *; [|done].
  by rewrite Hk.
Qed.

Lemma keeps_structs_createBuffer (info : IGFXBufferInfo.t) : keeps_structs (createBuffer info).
Proof. intros w. unfold createBuffer. by destruct (GFXDevice.accepts _ _ _). Qed.

Lemma keeps_structs_update (b : GFXBuffer) (data : TypedArray.t) :
  keeps_structs (GFXBuffer_update b data).
Proof. by intros w. Qed.

Lemma keeps_structs_read_struct (l : nat) : keeps_structs (read_struct l).
Proof. intros w. unfold read_struct. by destruct (World.structs w !! l). Qed.

Create HintDb keeps_structs.
#[local] Hint Resolve keeps_structs_ret keeps_structs_throw keeps_structs_lift
  keeps_structs_createBuffer keeps_structs_update keeps_structs_read_struct
  : keeps_structs.

Ltac keeps_structs_step :=
  match goal with
  | |- keeps_structs (bind _ _) => apply keeps_structs_bind; [|intros ?]
  | |- keeps_structs (match ?x with _ => _ end) => destruct x
  | |- keeps_structs _ => solve [auto with keeps_structs]
  end.

Lemma keeps_structs_createVertexBuffers_map (data : ArrayBuffer)
    (bundles : list IVertexBundle.t) :
  keeps_structs (Mesh._createVertexBuffers_map data bundles).
Proof.
  induction bundles as [|vb rest IH]; simpl; repeat keeps_structs_step.
Qed.

Lemma keeps_structs_prepare_indices (buffer : ArrayBuffer) (prim : IPrimitive.t) :
  keeps_structs (Mesh.prepare_indices buffer prim).
Proof.
  unfold Mesh.prepare_indices, Mesh.create_indexBuffer. repeat keeps_structs_step.
Qed.

Lemma keeps_structs_first_bundle_attributes (this : Mesh.t) (prim : IPrimitive.t) :
  keeps_structs (Mesh.first_bundle_attributes this prim).
Proof. unfold Mesh.first_bundle_attributes. repeat keeps_structs_step. Qed.

Lemma keeps_source_of_keeps_structs {A : Type} (l : nat) (s : IMeshStruct.t)
    (m : M World.t A) :
  keeps_structs m -> keeps_source l s m.
Proof.
  intros Hm w cur Hcur Hs. rewrite Hm. split; [by exists cur|done].
Qed.

Lemma keeps_source_bind {A B : Type} (l : nat) (s : IMeshStruct.t)
    (m : M World.t A) (k : A -> M World.t B) :
  keeps_source l s m -> (forall x, keeps_source l s (k x)) -> keeps_source l s (bind m k).
Proof.
  intros Hm Hk w cur Hcur Hs. unfold bind.
  destruct (Hm w cur Hcur Hs) as [(s1 & Hs1 & Hr1) Ho1].
  destruct (m w) as [[x|e] w1]; simpl in *.
  - destruct (Hk x w1 s1 Hs1 Hr1) as [(s2 & Hs2 & Hr2) Ho2].
    split; [by exists s2|]. intros l' Hl'. by rewrite Ho2, Ho1.
  - split; [by exists s1|done].
Qed.

(** Writing a raycast object with the same source fields at the place
    of a primitive of [s]. *)
Lemma keeps_source_attach (l : nat) (s : IMeshStruct.t) (i : nat) (prim : IPrimitive.t)
    (g g1 : IPrimitiveGeometricInfo.t) :
  IMeshStruct.primitives s !! i = Some prim ->
  IPrimitive.geometricInfo prim = Some g ->
  same_raycast_source g g1 ->
  keeps_source l s (modify_struct l (alter_primitive i (with_geometricInfo g1))).
Proof.
  intros Hprim Hg Hg1 w cur Hcur (HB & Hmin & Hmax & HP).
  unfold modify_struct. rewrite Hcur. simpl. split.
  - eexists. split; [apply lookup_insert_eq|].
    unfold alter_primitive, same_struct_source; simpl.
    split; [done|]. split; [done|]. split; [done|].
    apply Forall2_alter_r; [done|].
    intros p p' Hp Hp' (V & M0 & I & G).
    assert (p = prim) as -> by congruence.
    unfold with_geometricInfo, same_primitive_source; simpl.
    rewrite Hg. repeat split; try done. by constructor.
  - intros l' Hl'. by rewrite lookup_insert_ne.
Qed.

Lemma keeps_source_attach_geometricInfo (this : Mesh.t) (s : IMeshStruct.t)
    (buffer : ArrayBuffer) (i : nat) (prim : IPrimitive.t) (ib : option TypedArray.t) :
  IMeshStruct.primitives s !! i = Some prim ->
  keeps_source (Mesh._struct this) s (Mesh.attach_geometricInfo this buffer i prim ib).
Proof.
  intros Hprim. unfold Mesh.attach_geometricInfo.
  destruct (IPrimitive.geometricInfo prim) as [g|] eqn:Hg.
  - apply keeps_source_bind; [by eapply keeps_source_attach|]. intros _.
    apply keeps_source_bind.
    { apply keeps_source_of_keeps_structs. auto with keeps_structs. }
    intros positions.
    apply keeps_source_bind; [by eapply keeps_source_attach|]. intros _.
    apply keeps_source_of_keeps_structs. auto with keeps_structs.
  - apply keeps_source_of_keeps_structs. auto with keeps_structs.
Qed.

Lemma keeps_source_materialize_primitives (this : Mesh.t) (s : IMeshStruct.t)
    (buffer : ArrayBuffer) (vbs : list GFXBuffer) (prims : list IPrimitive.t) :
  forall (i : nat) (ibs : list GFXBuffer) (subs : list IRenderingSubmesh.t),
    (forall j p, prims !! j = Some p -> IMeshStruct.primitives s !! (i + j) = Some p) ->
    keeps_source (Mesh._struct this) s
      (Mesh.materialize_primitives this buffer vbs prims i ibs subs).
Proof.
  induction prims as [|prim rest IH]; intros i ibs subs Hat; simpl.
  - apply keeps_source_of_keeps_structs. auto with keeps_structs.
  - assert (forall j p, rest !! j = Some p ->
                        IMeshStruct.primitives s !! (S i + j) = Some p) as Hrest.
    { intros j p Hj. replace (S i + j) with (i + S j) by lia. by apply Hat. }
    destruct (length (IPrimitive.vertexBundelIndices prim) =? 0)%nat; [by apply IH|].
    apply keeps_source_bind; [|intros made; by apply IH].
    unfold Mesh.materialize_primitive.
    apply keeps_source_bind.
    { apply keeps_source_of_keeps_structs, keeps_structs_prepare_indices. }
    intros index. apply keeps_source_bind.
    { apply keeps_source_of_keeps_structs, keeps_structs_first_bundle_attributes. }
    intros attributes. apply keeps_source_bind.
    { apply keeps_source_attach_geometricInfo.
      specialize (Hat 0 prim eq_refl). by rewrite Nat.add_0_r in Hat. }
    intros g. apply keeps_source_of_keeps_structs. auto with keeps_structs.
Qed.

Lemma materialize_keeps_source (this : Mesh.t) (buffer : ArrayBuffer) (w : World.t)
    (s : IMeshStruct.t) :
  World.structs w !! Mesh._struct this = Some s ->
  (exists s', World.structs (snd (materialize this buffer w)) !! Mesh._struct this = Some s'
              /\ same_struct_source s s')
  /\ forall l, l <> Mesh._struct this ->
       World.structs (snd (materialize this buffer w)) !! l = World.structs w !! l.
Proof.
  intros Hs. unfold materialize.
  rewrite (bind_unfold (Mesh._createVertexBuffers this buffer)).
  assert (keeps_structs (Mesh._createVertexBuffers this buffer)) as Hk.
  { unfold Mesh._createVertexBuffers. apply keeps_structs_bind;
      [auto with keeps_structs|]. intros s0. apply keeps_structs_createVertexBuffers_map. }
  specialize (Hk w).
  destruct (Mesh._createVertexBuffers this buffer w) as [[vbs|e] w1]; simpl in Hk.
  2:{ simpl. rewrite Hk. split; [|done]. exists s. split; [done|].
      apply same_struct_source_refl. }
  rewrite (bind_unfold (read_struct (Mesh._struct this))).
  rewrite (read_struct_existing _ w1 s) by (by rewrite Hk).
  assert (keeps_source (Mesh._struct this) s
            (let! made := Mesh.materialize_primitives this buffer vbs
                            (IMeshStruct.primitives s) 0 [] [] in
             ret (RenderingMesh.mk (snd made) vbs (fst made)))) as Hsrc.
  { apply keeps_source_bind.
    - by apply keeps_source_materialize_primitives.
    - intros made. apply keeps_source_of_keeps_structs. auto with keeps_structs. }
  destruct (Hsrc w1 s) as [Hs' Ho]; [by rewrite Hk|apply same_struct_source_refl|].
  split; [done|]. intros l Hl. by rewrite Ho, Hk.
Qed.

Lemma renderingMesh_struct_source (m : Mesh.t) (w : World.t) (s : IMeshStruct.t) :
  World.structs w !! Mesh._struct m = Some s ->
  let w' := snd (snd (Mesh.renderingMesh (m, w))) in
  (exists s', World.structs w' !! Mesh._struct m = Some s' /\ same_struct_source s s')
  /\ forall l, l <> Mesh._struct m -> World.structs w' !! l = World.structs w !! l.
Proof.
  intros Hs w'. subst w'.
  assert (forall c m1 w1, Mesh._deferredInit (m, w) = (c, (m1, w1)) ->
            snd (snd (Mesh.renderingMesh (m, w))) = w1) as Hw.
  { intros c m1 w1 H. unfold Mesh.renderingMesh, bind. rewrite H. by destruct c. }
  destruct (Mesh._initialized m) eqn:Hi.
  { rewrite (Hw _ _ _ (_deferredInit_initialized m w Hi)).
    split; [|done]. exists s. split; [done|apply same_struct_source_refl]. }
  destruct (Mesh._data m) as [data|] eqn:Hd.
  2:{ rewrite (Hw _ _ _ (_deferredInit_without_data m w Hi Hd)).
      split; [|done]. exists s. split; [done|apply same_struct_source_refl]. }
  pose proof (_deferredInit_pending m w data (conj Hi Hd)) as H.
  pose proof (materialize_keeps_source (flagged m) (TypedArray.buffer data) w s Hs) as Hm.
  destruct (materialize (flagged m) (TypedArray.buffer data) w) as [[rm|e] w1];
    by rewrite (Hw _ _ _ H).
Qed.

(** X20: whatever its outcome, a read of [renderingMesh] changes
    nothing in the struct of the mesh but the raycast fields it
    attaches: the struct keeps its vertex bundles, its bounding box, the
    number and the order of its primitives and, for every primitive, the
    bundle indices, the mode, the indices, the presence of
    [geometricInfo] and its [doubleSided] and [range]. *)
Theorem renderingMesh_keeps_struct_source (m : Mesh.t) (w : World.t) (s : IMeshStruct.t) :
  World.structs w !! Mesh._struct m = Some s ->
  exists s',
    World.structs (snd (snd (Mesh.renderingMesh (m, w)))) !! Mesh._struct m = Some s'
    /\ same_struct_source s s'.
Proof. intros Hs. apply (renderingMesh_struct_source m w s Hs). Qed.

Lemma each_pair_related_l {A : Type} (same : A -> A -> bool) (R : A -> A -> Prop)
    (l l' k : list A) :
  (forall x x' y, R x x' -> same x' y = same x y) ->
  Forall2 R l l' -> Mesh.each_pair same l' k = Mesh.each_pair same l k.
Proof.
  intros Hsame H. revert k. induction H as [|x x' l l' Hx Hl IH]; intros [|y k];
    simpl; try done.
  by rewrite (Hsame x x' y Hx), IH.
Qed.

Lemma each_pair_related_r {A : Type} (same : A -> A -> bool) (R : A -> A -> Prop)
    (l k k' : list A) :
  (forall x y y', R y y' -> same x y' = same x y) ->
  Forall2 R k k' -> Mesh.each_pair same l k' = Mesh.each_pair same l k.
Proof.
  intros Hsame H. revert l. induction H as [|y y' k k' Hy Hk IH]; intros [|x l];
    simpl; try done.
  by rewrite (Hsame x y y' Hy), IH.
Qed.

Lemma validate_primitive_source_l (p p' q : IPrimitive.t) :
  same_primitive_source p p' -> Mesh.validate_primitive p' q = Mesh.validate_primitive p q.
Proof.
  intros (V & M0 & I & _). unfold Mesh.validate_primitive. by rewrite V, M0, I.
Qed.

Lemma validate_primitive_source_r (p q q' : IPrimitive.t) :
  same_primitive_source q q' -> Mesh.validate_primitive p q' = Mesh.validate_primitive p q.
Proof.
  intros (V & M0 & I & _). unfold Mesh.validate_primitive. by rewrite V, M0, I.
Qed.

(** Validation does not look at the fields materialisation attaches. *)
Lemma validateMergingMesh_structs_source (s s' d d' : IMeshStruct.t) :
  same_struct_source s s' -> same_struct_source d d' ->
  Mesh.validateMergingMesh_structs s' d' = Mesh.validateMergingMesh_structs s d.
Proof.
  intros (B & _ & _ & P) (B' & _ & _ & P').
  unfold Mesh.validateMergingMesh_structs.
  rewrite B, B', <- (Forall2_length _ _ _ P), <- (Forall2_length _ _ _ P').
  rewrite (each_pair_related_l Mesh.validate_primitive same_primitive_source
             _ _ _ validate_primitive_source_l P).
  by rewrite (each_pair_related_r Mesh.validate_primitive same_primitive_source
                _ _ _ validate_primitive_source_r P').
Qed.

(** X21: a read of [renderingMesh], whatever its outcome, does not
    change what [validateMergingMesh] answers: for a mesh [m] and any
    mesh [c] (which may hold the same struct), both
    [m.validateMergingMesh(c)] and [c.validateMergingMesh(m)] return
    after the read of [m.renderingMesh] what they returned before. *)
Theorem renderingMesh_keeps_validation (m c : Mesh.t) (w : World.t)
    (s sc : IMeshStruct.t) :
  World.structs w !! Mesh._struct m = Some s ->
  World.structs w !! Mesh._struct c = Some sc ->
  let w' := snd (snd (Mesh.renderingMesh (m, w))) in
  Mesh.validateMergingMesh m c w' = (fst (Mesh.validateMergingMesh m c w), w')
  /\ Mesh.validateMergingMesh c m w' = (fst (Mesh.validateMergingMesh c m w), w').
Proof.
  intros Hs Hc w'.
  destruct (renderingMesh_struct_source m w s Hs) as [(s' & Hs' & Hsrc) Hother].
  fold w' in Hs', Hother.
  assert (exists sc', World.structs w' !! Mesh._struct c = Some sc'
                      /\ same_struct_source sc sc') as (sc' & Hc' & Hsrc').
  { destruct (decide (Mesh._struct c = Mesh._struct m)) as [E|N].
    - exists s'. rewrite E. split; [done|]. rewrite E in Hc. congruence.
    - exists sc. rewrite (Hother _ N). split; [done|apply same_struct_source_refl]. }
  rewrite (validateMergingMesh_eval m c w' s' sc' Hs' Hc').
  rewrite (validateMergingMesh_eval c m w' sc' s' Hc' Hs').
  rewrite (validateMergingMesh_eval m c w s sc Hs Hc).
  rewrite (validateMergingMesh_eval c m w sc s Hc Hs). simpl.
  by rewrite (validateMergingMesh_structs_source s s' sc sc' Hsrc Hsrc'),
             (validateMergingMesh_structs_source sc sc' s s' Hsrc' Hsrc).
Qed.

(** ** A primitive that names a missing bundle *)

(** X22: [_deferredInit] reads the attributes of the first bundle a
    primitive names without checking that the bundle exists.  On a
    device that never fails, with every bundle in bounds and the
    primitives before it well formed, a primitive whose first bundle
    index names no bundle (and whose own index range, if any, is in
    bounds and aligned) makes the read of [renderingMesh] throw a
    TypeError: no rendering mesh is stored, the flag stays set, and by
    then one vertex buffer per bundle and the index buffers of the
    primitives up to and including that one have been created, none of
    which is released. *)
Theorem dangling_bundle_index_throws (m : Mesh.t) (w : World.t) (data : TypedArray.t)
    (s : IMeshStruct.t) (pre rest : list IPrimitive.t) (bad : IPrimitive.t) (idx : Z) :
  pending m data ->
  World.structs w !! Mesh._struct m = Some s ->
  device_never_fails w ->
  forallb (valid_bundle (TypedArray.buffer data)) (IMeshStruct.vertexBundles s) = true ->
  IMeshStruct.primitives s = pre ++ bad :: rest ->
  forallb (valid_primitive (TypedArray.buffer data) (length (IMeshStruct.vertexBundles s)))
          pre = true ->
  head (IPrimitive.vertexBundelIndices bad) = Some idx ->
  element_at (IMeshStruct.vertexBundles s) idx = None ->
  match IPrimitive.indices bad with
  | None => true
  | Some indices =>
      range_in_bounds (TypedArray.buffer data) (IPrimitiveIndices.range indices)
      && range_aligned (getIndexUnitStride (IPrimitiveIndices.indexUnit indices))
                       (IPrimitiveIndices.range indices)
  end = true ->
  exists w' evs,
    Mesh.renderingMesh (m, w) = (Throw TypeError, (flagged m, w'))
    /\ device_calls w' = device_calls w ++ evs
    /\ destroyed_buffers evs = []
    /\ length (created_buffers evs)
       = length (IMeshStruct.vertexBundles s)
         + length (List.filter (fun p => names_a_bundle p && carries_indices p)
                               (pre ++ [bad])).
Proof.
  intros Hp Hs Hdev Hbundles Hprims Hpre Hhead Hnone Hind.
  set (buffer := TypedArray.buffer data) in *.
  destruct (createVertexBuffers_map_valid buffer _ w Hbundles Hdev)
    as (vbs & e1 & E1 & Hc1 & Hd1 & Hl1).
  destruct (materialize_primitives_valid (flagged m) buffer vbs _ _ Hpre 0 [] []
              (add_calls e1 w) s Hs eq_refl (add_calls_never_fails e1 w Hdev))
    as (ibs & subs & w2 & e2 & s2 & E2 & Hext2 & Hc2 & Hd2 & Hl2 & _ & Hs2 & Hb2).
  assert (device_never_fails w2) as Hdev2.
  { eapply device_extended_never_fails; [exact Hext2|by apply add_calls_never_fails]. }
  destruct (prepare_indices_valid buffer bad w2 Hind Hdev2)
    as (ib & view & e3 & E3 & Hc3 & Hd3 & Hib).
  assert (names_a_bundle bad = true) as Hn.
  { unfold names_a_bundle. by destruct (IPrimitive.vertexBundelIndices bad). }
  assert (Mesh.first_bundle_attributes (flagged m) bad (add_calls e3 w2)
          = (Throw TypeError, add_calls e3 w2)) as E4.
  { unfold Mesh.first_bundle_attributes.
    destruct (IPrimitive.vertexBundelIndices bad) as [|i0 is0]; [done|].
    simpl in Hhead. injection Hhead as ->.
    unfold bind. rewrite (read_struct_existing _ (add_calls e3 w2) s2 Hs2).
    by rewrite Hb2, Hnone. }
  assert (materialize (flagged m) buffer w = (Throw TypeError, add_calls e3 w2)) as E.
  { unfold materialize, Mesh._createVertexBuffers.
    change (Mesh._struct (flagged m)) with (Mesh._struct m).
    rewrite !bind_unfold. rewrite (read_struct_existing _ _ _ Hs), E1.
    rewrite bind_unfold, (read_struct_existing _ (add_calls e1 w) _ Hs).
    rewrite bind_unfold, Hprims, materialize_primitives_app, E2. simpl.
    unfold names_a_bundle in Hn. apply negb_true_iff in Hn. rewrite Hn.
    unfold Mesh.materialize_primitive. rewrite !bind_unfold, E3.
    by rewrite bind_unfold, E4. }
  exists (add_calls e3 w2), (e1 ++ e2 ++ e3). split.
  { unfold Mesh.renderingMesh. rewrite bind_unfold.
    rewrite (_deferredInit_pending m w data Hp). fold buffer. by rewrite E. }
  destruct Hext2 as [_ Hcalls2].
  split.
  { change (device_calls (add_calls e3 w2)) with (device_calls w2 ++ e3).
    rewrite Hcalls2.
    change (device_calls (add_calls e1 w)) with (device_calls w ++ e1).
    by rewrite <- !app_assoc. }
  split; [by rewrite !destroyed_buffers_app, Hd1, Hd2, Hd3|].
  rewrite !created_buffers_app, !length_app, Hc1, Hc2, Hc3, Hl1, Hl2.
  rewrite List.filter_app, length_app. simpl. rewrite Hn. simpl.
  unfold carries_indices.
  destruct ib as [b|], (IPrimitive.indices bad) as [ind|]; simpl; try lia.
  - destruct Hib as [Hib _]. by destruct Hib as [? ?].
  - destruct Hib as [_ Hib]. by destruct Hib as [? ?].
Qed.

(** ** The further properties on the sample states *)

Lemma validateMergingMesh_structs_transitive_witness :
  Mesh.validateMergingMesh_structs merge_target_struct merge_source_struct = true
  /\ Mesh.validateMergingMesh_structs merge_source_struct merge_target_struct = true
  /\ Forall (fun p => carries_indices p = true) (IMeshStruct.primitives merge_source_struct)
  /\ Mesh.validateMergingMesh_structs merge_target_struct merge_target_struct = true.
Proof.
  split; [reflexivity|]. split; [reflexivity|].
  split; [repeat constructor|].
  apply (validateMergingMesh_structs_transitive merge_target_struct merge_source_struct
           merge_target_struct).
  - reflexivity.
  - reflexivity.
  - repeat constructor.
Defined.

Lemma merge_without_validation_witness :
  World.structs sample_world !! Mesh._struct (pending_mesh 4) = Some one_bundle_struct
  /\ World.structs sample_world !! Mesh._struct (pending_mesh 3) = Some two_bundle_struct
  /\ Mesh.validateMergingMesh_structs one_bundle_struct two_bundle_struct = false
  /\ Mesh.merge (pending_mesh 4) (pending_mesh 3) None sample_world
     = (Normal true,
        with_struct (Mesh._struct (pending_mesh 4))
          (merged_struct one_bundle_struct two_bundle_struct) sample_world)
  /\ length (IMeshStruct.vertexBundles (merged_struct one_bundle_struct two_bundle_struct))
     = length (IMeshStruct.vertexBundles one_bundle_struct)
  /\ length (IMeshStruct.primitives (merged_struct one_bundle_struct two_bundle_struct))
     = length (IMeshStruct.primitives one_bundle_struct).
Proof.
  split; [reflexivity|]. split; [reflexivity|]. split; [reflexivity|].
  apply (merge_without_validation (pending_mesh 4) (pending_mesh 3) None sample_world
           one_bundle_struct two_bundle_struct).
  - reflexivity.
  - reflexivity.
  - discriminate.
  - simpl; lia.
  - simpl; lia.
Defined.

Lemma merge_without_validation_fewer_bundles_witness :
  World.structs sample_world !! Mesh._struct (pending_mesh 3) = Some two_bundle_struct
  /\ World.structs sample_world !! Mesh._struct (pending_mesh 4) = Some one_bundle_struct
  /\ Mesh.merge (pending_mesh 3) (pending_mesh 4) None sample_world
     = (Throw TypeError,
        with_struct (Mesh._struct (pending_mesh 3))
          (IMeshStruct.mk
             (zip_with merged_bundle (IMeshStruct.vertexBundles two_bundle_struct)
                                     (IMeshStruct.vertexBundles one_bundle_struct)
              ++ drop (length (IMeshStruct.vertexBundles one_bundle_struct))
                      (IMeshStruct.vertexBundles two_bundle_struct))
             (IMeshStruct.primitives two_bundle_struct)
             (IMeshStruct.minPosition two_bundle_struct)
             (IMeshStruct.maxPosition two_bundle_struct)) sample_world).
Proof.
  split; [reflexivity|]. split; [reflexivity|].
  apply (merge_without_validation_fewer_bundles (pending_mesh 3) (pending_mesh 4) None
           sample_world two_bundle_struct one_bundle_struct).
  - reflexivity.
  - reflexivity.
  - discriminate.
  - simpl; lia.
Defined.

Lemma merge_keeps_validation_witness :
  World.structs sample_world !! Mesh._struct (pending_mesh 5) = Some merge_target_struct
  /\ World.structs sample_world !! Mesh._struct (pending_mesh 6) = Some merge_source_struct
  /\ Mesh.validateMergingMesh_structs merge_target_struct merge_source_struct = true
  /\ fst (Mesh.validateMergingMesh (pending_mesh 5) (pending_mesh 6)
            (snd (Mesh.merge (pending_mesh 5) (pending_mesh 6) (Some true) sample_world)))
     = fst (Mesh.validateMergingMesh (pending_mesh 5) (pending_mesh 6) sample_world).
Proof.
  split; [reflexivity|]. split; [reflexivity|]. split; [reflexivity|].
  apply (merge_keeps_validation (pending_mesh 5) (pending_mesh 6) (pending_mesh 6)
           (Some true) sample_world merge_target_struct merge_source_struct);
    reflexivity.
Defined.

Lemma merge_bounding_box_encloses_witness :
  World.structs sample_world !! Mesh._struct (pending_mesh 5) = Some merge_target_struct
  /\ World.structs sample_world !! Mesh._struct (pending_mesh 6) = Some merge_source_struct
  /\ Mesh.validateMergingMesh_structs merge_target_struct merge_source_struct = true
  /\ let w' := snd (Mesh.merge (pending_mesh 5) (pending_mesh 6) (Some true) sample_world) in
     (forall p q,
        IMeshStruct.maxPosition merge_target_struct = Some p ->
        IMeshStruct.maxPosition merge_source_struct = Some q ->
        no_NaN p -> no_NaN q ->
        exists r, MeshAccessors.maxPosition (pending_mesh 5, w')
                  = (Normal (Some r), (pending_mesh 5, w'))
                  /\ Vec3_le p r /\ Vec3_le q r)
     /\ (forall p q,
           IMeshStruct.minPosition merge_target_struct = Some p ->
           IMeshStruct.minPosition merge_source_struct = Some q ->
           no_NaN p -> no_NaN q ->
           exists r, MeshAccessors.minPosition (pending_mesh 5, w')
                     = (Normal (Some r), (pending_mesh 5, w'))
                     /\ Vec3_le r p /\ Vec3_le r q)
     /\ (IMeshStruct.maxPosition merge_source_struct = None ->
         MeshAccessors.maxPosition (pending_mesh 5, w')
         = (Normal (IMeshStruct.maxPosition merge_target_struct), (pending_mesh 5, w')))
     /\ (IMeshStruct.minPosition merge_source_struct = None ->
         MeshAccessors.minPosition (pending_mesh 5, w')
         = (Normal (IMeshStruct.minPosition merge_target_struct), (pending_mesh 5, w'))).
Proof.
  split; [reflexivity|]. split; [reflexivity|]. split; [reflexivity|].
  apply (merge_bounding_box_encloses (pending_mesh 5) (pending_mesh 6) (Some true)
           sample_world merge_target_struct merge_source_struct);
    reflexivity.
Defined.

Lemma renderingMesh_cached_witness :
  Mesh.renderingMesh (pending_mesh 0, sample_world)
  = (Normal (Some sample_renderingMesh), (materialized_mesh, materialized_world))
  /\ Mesh.renderingMesh (materialized_mesh, materialized_world)
     = (Normal (Some sample_renderingMesh), (materialized_mesh, materialized_world)).
Proof.
  split; [vm_compute; reflexivity|].
  apply (renderingMesh_cached (pending_mesh 0) materialized_mesh sample_world
           materialized_world (Some sample_renderingMesh)).
  vm_compute; reflexivity.
Defined.

Lemma renderingMesh_failure_not_retried_witness :
  Mesh.renderingMesh (pending_mesh 1, sample_world)
  = (Throw RangeError, (fst (snd rejected_sample), snd (snd rejected_sample)))
  /\ fst (snd rejected_sample) = flagged (pending_mesh 1)
  /\ Mesh.renderingMesh (fst (snd rejected_sample), snd (snd rejected_sample))
     = (Normal (Mesh._renderingMesh (pending_mesh 1)),
        (fst (snd rejected_sample), snd (snd rejected_sample))).
Proof.
  split; [vm_compute; reflexivity|].
  apply (renderingMesh_failure_not_retried (pending_mesh 1) (fst (snd rejected_sample))
           sample_world (snd (snd rejected_sample)) RangeError).
  vm_compute; reflexivity.
Defined.

Lemma assign_releases_and_resets_witness :
  Mesh._renderingMesh materialized_mesh = Some sample_renderingMesh
  /\ exists m' w',
       Mesh.assign 2 sample_data (materialized_mesh, materialized_world)
       = (Normal tt, (m', w'))
       /\ pending m' sample_data
       /\ Mesh._struct m' = 2
       /\ Mesh._renderingMesh m' = None
       /\ device_calls w'
          = device_calls materialized_world
            ++ map destroy_call (RenderingMesh._vertexBuffers sample_renderingMesh
                                 ++ RenderingMesh._indexBuffers sample_renderingMesh)
       /\ World.structs w' = World.structs materialized_world.
Proof.
  split; [vm_compute; reflexivity|].
  apply (assign_releases_and_resets materialized_mesh materialized_world 2 sample_data
           sample_renderingMesh).
  vm_compute; reflexivity.
Defined.

Lemma assign_then_renderingMesh_witness :
  Mesh._renderingMesh materialized_mesh = Some sample_renderingMesh
  /\ World.structs materialized_world !! 2 = Some zero_count_struct
  /\ valid_struct (TypedArray.buffer sample_data) zero_count_struct = true
  /\ device_never_fails materialized_world
  /\ exists rm' st,
       (let! _ := Mesh.assign 2 sample_data in Mesh.renderingMesh)
         (materialized_mesh, materialized_world)
       = (Normal (Some rm'), st)
       /\ Mesh._renderingMesh (fst st) = Some rm'
       /\ length (RenderingMesh._vertexBuffers rm')
          = length (IMeshStruct.vertexBundles zero_count_struct)
       /\ Forall2 (submesh_of (RenderingMesh._vertexBuffers rm')
                              (IMeshStruct.vertexBundles zero_count_struct))
                  (List.filter names_a_bundle (IMeshStruct.primitives zero_count_struct))
                  (RenderingMesh._subMeshes rm').
Proof.
  split; [vm_compute; reflexivity|]. split; [vm_compute; reflexivity|].
  split; [reflexivity|]. split; [intros calls info; vm_compute; reflexivity|].
  apply (assign_then_renderingMesh materialized_mesh materialized_world 2 sample_data
           sample_renderingMesh zero_count_struct).
  - vm_compute; reflexivity.
  - vm_compute; reflexivity.
  - reflexivity.
  - intros calls info; vm_compute; reflexivity.
Defined.

Lemma getSubMesh_without_renderingMesh_witness :
  Mesh.renderingMesh (fresh_mesh, fresh_world) = (Normal None, (flagged fresh_mesh, fresh_world))
  /\ Mesh.subMeshCount (fresh_mesh, fresh_world)
     = (Normal 0, (flagged fresh_mesh, fresh_world))
  /\ MeshAccessors.getSubMesh 0 (fresh_mesh, fresh_world)
     = (Throw TypeError, (flagged fresh_mesh, fresh_world)).
Proof.
  split; [reflexivity|].
  apply (getSubMesh_without_renderingMesh fresh_mesh fresh_world
           (flagged fresh_mesh, fresh_world) 0).
  reflexivity.
Defined.

Lemma getSubMesh_defined_within_count_witness :
  Mesh.renderingMesh (pending_mesh 0, sample_world)
  = (Normal (Some sample_renderingMesh), (materialized_mesh, materialized_world))
  /\ exists n,
       Mesh.subMeshCount (pending_mesh 0, sample_world)
       = (Normal n, (materialized_mesh, materialized_world))
       /\ forall index, exists r,
            MeshAccessors.getSubMesh index (pending_mesh 0, sample_world)
            = (Normal r, (materialized_mesh, materialized_world))
            /\ (is_Some r <-> (0 <= index < Z.of_nat n)%Z).
Proof.
  split; [vm_compute; reflexivity|].
  apply (getSubMesh_defined_within_count (pending_mesh 0) sample_world sample_renderingMesh
           (materialized_mesh, materialized_world)).
  vm_compute; reflexivity.
Defined.

Lemma set_nativeAsset_keeps_renderingMesh_witness :
  Mesh._initialized materialized_mesh = true
  /\ exists m',
       MeshAccessors.set_nativeAsset None (materialized_mesh, materialized_world)
       = (Normal tt, (m', materialized_world))
       /\ MeshAccessors.get_nativeAsset (m', materialized_world)
          = (Normal None, (m', materialized_world))
       /\ Mesh.renderingMesh (m', materialized_world)
          = (Normal (Mesh._renderingMesh materialized_mesh), (m', materialized_world)).
Proof.
  split; [vm_compute; reflexivity|].
  apply (set_nativeAsset_keeps_renderingMesh materialized_mesh materialized_world None).
  vm_compute; reflexivity.
Defined.

Lemma create_indexBuffer_upload_witness :
  Mesh.create_indexBuffer sample_buffer sample_indices sample_world
  = (Normal (0, TypedArray.mk Uint16Array sample_buffer 12 2), snd sample_indexBuffer)
  /\ let view := TypedArray.mk Uint16Array sample_buffer 12 2 in
     let range := IPrimitiveIndices.range sample_indices in
     let stride := getIndexUnitStride (IPrimitiveIndices.indexUnit sample_indices) in
     device_calls (snd sample_indexBuffer)
     = device_calls sample_world
       ++ [createBuffer_call 0
             (IGFXBufferInfo.mk [INDEX; TRANSFER_DST] [HOST; DEVICE]
                (IBufferRange.length range) (stride, 1%Z));
           update_call 0 view]
     /\ TypedArray.ctor view = getIndexUnitCtor (IPrimitiveIndices.indexUnit sample_indices)
     /\ BYTES_PER_ELEMENT (TypedArray.ctor view) = stride
     /\ TypedArray.byteOffset view = IBufferRange.offset range
     /\ (TypedArray.length view * stride
         = IBufferRange.length range - Z.rem (IBufferRange.length range) stride)%Z
     /\ (0 <= TypedArray.byteOffset view)%Z
     /\ (TypedArray.byteOffset view + TypedArray.length view * stride
         <= byteLength sample_buffer)%Z.
Proof.
  split; [vm_compute; reflexivity|].
  apply (create_indexBuffer_upload sample_buffer sample_indices sample_world
           (snd sample_indexBuffer) 0 (TypedArray.mk Uint16Array sample_buffer 12 2)).
  vm_compute; reflexivity.
Defined.

Lemma subMeshCount_counts_bound_primitives_witness :
  pending (pending_mesh 0) sample_data
  /\ World.structs sample_world !! Mesh._struct (pending_mesh 0) = Some sample_struct
  /\ Mesh.renderingMesh (pending_mesh 0, sample_world)
     = (Normal (Some sample_renderingMesh), (materialized_mesh, materialized_world))
  /\ Mesh.subMeshCount (pending_mesh 0, sample_world)
     = (Normal (length (List.filter names_a_bundle (IMeshStruct.primitives sample_struct))),
        (materialized_mesh, materialized_world)).
Proof.
  split; [split; reflexivity|]. split; [reflexivity|].
  split; [vm_compute; reflexivity|].
  apply (subMeshCount_counts_bound_primitives (pending_mesh 0) sample_world sample_data
           sample_struct sample_renderingMesh (materialized_mesh, materialized_world)).
  - split; reflexivity.
  - reflexivity.
  - vm_compute; reflexivity.
Defined.

Lemma empty_struct_materializes_empty_witness :
  pending loaded_fresh_mesh sample_data
  /\ World.structs fresh_world !! Mesh._struct loaded_fresh_mesh
     = Some (IMeshStruct.mk [] [] None None)
  /\ Mesh.renderingMesh (loaded_fresh_mesh, fresh_world)
     = (Normal (Some (RenderingMesh.mk [] [] [])),
        (Mesh.mk (Mesh._struct loaded_fresh_mesh) (Mesh._data loaded_fresh_mesh) true
           (Some (RenderingMesh.mk [] [] [])), fresh_world)).
Proof.
  split; [split; reflexivity|]. split; [vm_compute; reflexivity|].
  apply (empty_struct_materializes_empty loaded_fresh_mesh fresh_world sample_data
           (IMeshStruct.mk [] [] None None)).
  - split; reflexivity.
  - vm_compute; reflexivity.
  - reflexivity.
  - reflexivity.
Defined.

Lemma renderingMesh_keeps_struct_source_witness :
  World.structs sample_world !! Mesh._struct (pending_mesh 0) = Some sample_struct
  /\ exists s',
       World.structs (snd (snd (Mesh.renderingMesh (pending_mesh 0, sample_world))))
         !! Mesh._struct (pending_mesh 0) = Some s'
       /\ same_struct_source sample_struct s'.
Proof.
  split; [reflexivity|].
  apply (renderingMesh_keeps_struct_source (pending_mesh 0) sample_world sample_struct).
  reflexivity.
Defined.

Lemma renderingMesh_keeps_validation_witness :
  World.structs sample_world !! Mesh._struct (pending_mesh 0) = Some sample_struct
  /\ World.structs sample_world !! Mesh._struct (pending_mesh 5) = Some merge_target_struct
  /\ let w' := snd (snd (Mesh.renderingMesh (pending_mesh 0, sample_world))) in
     Mesh.validateMergingMesh (pending_mesh 0) (pending_mesh 5) w'
     = (fst (Mesh.validateMergingMesh (pending_mesh 0) (pending_mesh 5) sample_world), w')
     /\ Mesh.validateMergingMesh (pending_mesh 5) (pending_mesh 0) w'
        = (fst (Mesh.validateMergingMesh (pending_mesh 5) (pending_mesh 0) sample_world), w').
Proof.
  split; [reflexivity|]. split; [reflexivity|].
  apply (renderingMesh_keeps_validation (pending_mesh 0) (pending_mesh 5) sample_world
           sample_struct merge_target_struct); reflexivity.
Defined.

Lemma dangling_bundle_index_throws_witness :
  pending (pending_mesh 7) sample_data
  /\ World.structs dangling_world !! Mesh._struct (pending_mesh 7) = Some dangling_struct
  /\ device_never_fails dangling_world
  /\ forallb (valid_bundle (TypedArray.buffer sample_data))
             (IMeshStruct.vertexBundles dangling_struct) = true
  /\ IMeshStruct.primitives dangling_struct
     = [indexed_primitive] ++ dangling_primitive :: [unbound_primitive]
  /\ element_at (IMeshStruct.vertexBundles dangling_struct) 3 = None
  /\ exists w' evs,
       Mesh.renderingMesh (pending_mesh 7, dangling_world)
       = (Throw TypeError, (flagged (pending_mesh 7), w'))
       /\ device_calls w' = device_calls dangling_world ++ evs
       /\ destroyed_buffers evs = []
       /\ length (created_buffers evs)
          = length (IMeshStruct.vertexBundles dangling_struct)
            + length (List.filter (fun p => names_a_bundle p && carries_indices p)
                                  ([indexed_primitive] ++ [dangling_primitive])).
Proof.
  split; [split; reflexivity|]. split; [reflexivity|].
  split; [intros calls info; reflexivity|]. split; [reflexivity|].
  split; [reflexivity|]. split; [reflexivity|].
  apply (dangling_bundle_index_throws (pending_mesh 7) dangling_world sample_data
           dangling_struct [indexed_primitive] [unbound_primitive] dangling_primitive 3).
  - split; reflexivity.
  - reflexivity.
  - intros calls info; reflexivity.
  - reflexivity.
  - reflexivity.
  - reflexivity.
  - reflexivity.
  - reflexivity.
  - reflexivity.
Defined.
